(** * netatmo.py: token lifecycle, station directory and resumable CSV export

    A shallow embedding of the core of [netatmo.py] (class [WeatherStation],
    [last_timestamp], [dl_csv]) together with the properties its
    specification states about it.

    Conventions of the embedding
    - A Python [str] is a [string]; the content of the CSV file is a list of
      bytes ([list ascii]); [None] is [None] of an [option].
    - A [dict] used as a map is a [gmap]; the rc file is represented by the
      [configparser] content it holds (a default section and named
      sections); the textual syntax of the file is not modelled.
    - [time.time()] and [expires_in] are exact rationals; a measured value
      keeps the text [csv.writer] prints for it.
    - The outside world (HTTP replies, the clock, the local time zone, the
      interpolation hooks of [configparser]) is a class whose methods the
      definitions call; the theorems hold for every instance.
    - [verbosity] is 0, so [trace] prints nothing. *)

From Stdlib Require Import ZArith QArith List Ascii String Sorted Permutation Lia Bool.
From Stdlib Require Import DecimalString DecimalZ Decimal.
From stdpp Require Import gmap strings list sorting.
Import ListNotations.

Local Open Scope string_scope.
Local Open Scope Z_scope.
Local Open Scope list_scope.

(** ** Python primitives *)

Module Py.

(** Exceptions the modelled code can raise. *)
Inductive exn :=
| AttributeError
| KeyError
| TypeError
| ValueError
| OverflowError
| UnicodeDecodeError.

(** A computation that returns or raises. *)
Inductive result (A : Type) :=
| Ok (a : A)
| Raise (e : exn).
Arguments Ok {A} a.
Arguments Raise {A} e.

(** [c.lower()] on one ASCII character; other bytes are left alone. *)
Definition lower_ascii (c : ascii) : ascii :=
  let n := nat_of_ascii c in
  if ((65 <=? n) && (n <=? 90))%nat then ascii_of_nat (n + 32) else c.

(** [s.lower()] for ASCII text (device ids are MAC addresses). *)
Fixpoint lower (s : string) : string :=
  match s with
  | EmptyString => EmptyString
  | String c r => String (lower_ascii c) (lower r)
  end.

(** Truthiness of an optional string: [None] and [''] are falsy. *)
Definition truthy (s : option string) : bool :=
  match s with
  | None => false
  | Some s => negb (String.eqb s "")
  end.

(** [str(x)] of a value that is a string or [None]. *)
Definition str (x : option string) : string :=
  match x with
  | Some s => s
  | None => "None"
  end.

(** [str(n)] of an integer. *)
Definition str_int (n : Z) : string := NilZero.string_of_int (Z.to_int n).

(** [int(s)] on the spellings the API produces: decimal digits with an
    optional sign.  Python also accepts surrounding blanks, underscores
    between digits and non-ASCII digits; those are outside the model and
    reported as [ValueError]. *)
Definition int (s : string) : option Z :=
  match s with
  | String "+" s' => option_map Z.of_uint (NilZero.uint_of_string s')
  | _ => option_map Z.of_int (NilZero.int_of_string s)
  end.

Definition is_digit (c : ascii) : bool :=
  let n := nat_of_ascii c in ((48 <=? n) && (n <=? 57))%nat.

(** [t.isnumeric()] for ASCII text: not empty, digits only. *)
Definition isnumeric (t : list ascii) : bool :=
  match t with
  | [] => false
  | _ => forallb is_digit t
  end.

(** [int(x)] of a number: truncation toward zero. *)
Definition trunc (x : Q) : Z := Z.quot (Qnum x) (Z.pos (Qden x)).

(** [sep.join(l)]. *)
Fixpoint join (sep : string) (l : list string) : string :=
  match l with
  | [] => ""
  | [x] => x
  | x :: r => x +:+ sep +:+ join sep r
  end.

(** The characters the CSV code is concerned with. *)
Definition newline : ascii := "010"%char.
Definition semicolon : ascii := ";"%char.
Definition quotechar : ascii := "034"%char.

(** [b.find(c)]: the index of the first [c], or -1. *)
Fixpoint find (c : ascii) (b : list ascii) : Z :=
  match b with
  | [] => -1
  | x :: r =>
      if Ascii.eqb x c then 0
      else let k := find c r in if k <? 0 then -1 else k + 1
  end.

(** [b[0:k]], with Python's reading of a negative [k]. *)
Definition slice0 (b : list ascii) (k : Z) : list ascii :=
  let len := Z.of_nat (length b) in
  let stop := if k <? 0 then Z.max 0 (len + k) else Z.min k len in
  firstn (Z.to_nat stop) b.

(** [f.readlines()] of a binary file: every line keeps its terminator,
    the last one may lack it. *)
Fixpoint readlines (b : list ascii) : list (list ascii) :=
  match b with
  | [] => []
  | c :: r =>
      if Ascii.eqb c newline then [c] :: readlines r
      else match readlines r with
           | [] => [[c]]
           | l :: ls => (c :: l) :: ls
           end
  end.

(** [b.decode('ascii')] succeeds when every byte is below 128. *)
Definition is_ascii (b : list ascii) : bool :=
  forallb (fun c => (nat_of_ascii c <? 128)%nat) b.

(** The encoding of a text as bytes. *)
Definition encode (s : string) : list ascii := list_ascii_of_string s.

End Py.

Import Py.

(** ** The device snapshot *)

(** A module record of the device snapshot; a station carries the same
    fields for its own primary module. *)
Record ModuleRec := {
  _id : string;
  module_name : string;
  data_type : list string
}.

(** A station record: its primary module, its name and the attached
    modules in the order the directory fetch returned them. *)
Record StationRec := {
  main : ModuleRec;
  station_name : string;
  modules : list ModuleRec
}.

(** What [moduleByName] hands back: the station dict itself or one of the
    dicts of its [modules] list. *)
Inductive entry :=
| Station (s : StationRec)
| Module (m : ModuleRec).

Definition entry_data_type (e : entry) : list string :=
  match e with
  | Station s => data_type (main s)
  | Module m => data_type m
  end.

(** ** The client object *)

(** The attributes of a [WeatherStation].  [_refresh_token] and
    [_expiration] do not exist until a token was loaded or granted: [None]
    there stands for the missing attribute.  [_access_token = None] is
    Python's [None]. *)
Record WeatherStation := {
  _client_id : option string;
  _client_secret : option string;
  _username : option string;
  _password : option string;
  _access_token : option string;
  _refresh_token : option string;
  _expiration : option Q;
  default_station : option string;
  devices : option (list StationRec);
  rc_file : option string
}.

Definition set_credentials (self : WeatherStation)
  (client_id client_secret username password : option string) : WeatherStation :=
  {| _client_id := client_id; _client_secret := client_secret;
     _username := username; _password := password;
     _access_token := _access_token self;
     _refresh_token := _refresh_token self;
     _expiration := _expiration self;
     default_station := default_station self;
     devices := devices self; rc_file := rc_file self |}.

Definition set_access_token (self : WeatherStation) (t : option string)
  : WeatherStation :=
  {| _client_id := _client_id self; _client_secret := _client_secret self;
     _username := _username self; _password := _password self;
     _access_token := t;
     _refresh_token := _refresh_token self;
     _expiration := _expiration self;
     default_station := default_station self;
     devices := devices self; rc_file := rc_file self |}.

Definition set_refresh_token (self : WeatherStation) (t : string)
  : WeatherStation :=
  {| _client_id := _client_id self; _client_secret := _client_secret self;
     _username := _username self; _password := _password self;
     _access_token := _access_token self;
     _refresh_token := Some t;
     _expiration := _expiration self;
     default_station := default_station self;
     devices := devices self; rc_file := rc_file self |}.

Definition set_expiration (self : WeatherStation) (e : Q) : WeatherStation :=
  {| _client_id := _client_id self; _client_secret := _client_secret self;
     _username := _username self; _password := _password self;
     _access_token := _access_token self;
     _refresh_token := _refresh_token self;
     _expiration := Some e;
     default_station := default_station self;
     devices := devices self; rc_file := rc_file self |}.

Definition set_default_station (self : WeatherStation) (d : option string)
  : WeatherStation :=
  {| _client_id := _client_id self; _client_secret := _client_secret self;
     _username := _username self; _password := _password self;
     _access_token := _access_token self;
     _refresh_token := _refresh_token self;
     _expiration := _expiration self;
     default_station := d;
     devices := devices self; rc_file := rc_file self |}.

Definition set_rc_file (self : WeatherStation) (f : option string)
  : WeatherStation :=
  {| _client_id := _client_id self; _client_secret := _client_secret self;
     _username := _username self; _password := _password self;
     _access_token := _access_token self;
     _refresh_token := _refresh_token self;
     _expiration := _expiration self;
     default_station := default_station self;
     devices := devices self; rc_file := f |}.

(** [auth]: stores the four credentials and forgets the access token. *)
Definition auth (self : WeatherStation)
  (client_id client_secret username password : option string) : WeatherStation :=
  set_access_token
    (set_credentials self client_id client_secret username password) None.

(** ** Station directory *)

(** The [for i in self.devices] loop of [stationByName]: [station] is the
    identifier after the default has been substituted. *)
Fixpoint stationByName_loop (station : option string) (l : list StationRec)
  : option StationRec :=
  match l with
  | [] => None
  | i :: l' =>
      match station with
      | None => Some i
      | Some s =>
          if String.eqb s "" then Some i
          else if String.eqb (station_name i) s then Some i
          else if String.eqb (lower (_id (main i))) (lower s) then Some i
          else stationByName_loop station l'
      end
  end.

Definition stationByName (self : WeatherStation) (station : option string)
  : option StationRec :=
  match devices self with
  | None => None
  | Some l =>
      let station := if truthy station then station else default_station self in
      stationByName_loop station l
  end.

(** The [for mod in s['modules']] loop of [moduleByName]. *)
Fixpoint moduleByName_loop (module : string) (l : list ModuleRec) : option entry :=
  match l with
  | [] => None
  | mod_ :: l' =>
      if String.eqb (module_name mod_) module then Some (Module mod_)
      else if String.eqb (_id mod_) module then Some (Module mod_)
      else moduleByName_loop module l'
  end.

Definition moduleByName (self : WeatherStation) (module : string)
  (station : option string) : option entry :=
  match stationByName self station with
  | None => None
  | Some s =>
      if String.eqb (module_name (main s)) module then Some (Station s)
      else if String.eqb (_id (main s)) module then Some (Station s)
      else moduleByName_loop module (modules s)
  end.

(** *** The resolution rules, as predicates *)

(** The identifier a station lookup really uses. *)
Definition effective (self : WeatherStation) (station : option string)
  : option string :=
  if truthy station then station else default_station self.

(** A station matches a non-empty identifier by exact name or by its id
    compared without regard to case. *)
Definition station_matches (s : string) (i : StationRec) : bool :=
  String.eqb (station_name i) s
  || String.eqb (lower (_id (main i))) (lower s).

(** A module record matches by exact name or exact id. *)
Definition module_matches (module : string) (m : ModuleRec) : bool :=
  String.eqb (module_name m) module || String.eqb (_id m) module.

(** The records [moduleByName] goes through, in its order: the station's
    own record first, then the attached modules. *)
Definition candidates (s : StationRec) : list entry :=
  Station s :: map Module (modules s).

Definition entry_module (e : entry) : ModuleRec :=
  match e with
  | Station s => main s
  | Module m => m
  end.

(** The name rule and the id rule of the station level, one level down:
    a record matches by exact name or by its id compared without regard
    to case. *)
Definition module_rules (module : string) (m : ModuleRec) : bool :=
  String.eqb (module_name m) module
  || String.eqb (lower (_id m)) (lower module).

(** A module identifier is spelled the way the snapshot spells its ids
    when no record of the station has an id that differs from it only in
    the case of its letters. *)
Definition spelled_as_stored (module : string) (s : StationRec) : bool :=
  forallb (fun e => implb (String.eqb (lower (_id (entry_module e))) (lower module))
                      (String.eqb (_id (entry_module e)) module))
    (candidates s).

(** [first_match p l x]: [x] is the first element of [l] that satisfies
    [p]. *)
Definition first_match {A} (p : A -> bool) (l : list A) (x : A) : Prop :=
  exists pre post, l = pre ++ x :: post /\ p x = true /\
                   Forall (fun y => p y = false) pre.

Definition no_match {A} (p : A -> bool) (l : list A) : Prop :=
  Forall (fun y => p y = false) l.

(** ** The outside world *)

(** The content of an rc file as [configparser] holds it: the options of
    the default section and the options of every named section.  A file is
    known by what [config.read] yields from it; its text is not modelled.
    Files that [config.read] refuses (a line outside any section, an option
    given twice) are therefore not among the worlds, and nothing is told
    about how a value that [config.write] cannot render faithfully (blanks
    at its ends, line breaks) reads back. *)
Record Config := {
  defaults : gmap string string;
  sections : gmap string (gmap string string)
}.

(** The interpolation hooks of [configparser]: [before_get d raw] expands a
    raw value against the visible options [d] ([None]: the expansion
    raises); [before_set v] tells whether a value is accepted on
    assignment (otherwise [ValueError]). *)
Class Interpolation := {
  before_get : gmap string string -> string -> option string;
  before_set : string -> bool
}.

(** What depends on the operating system and the local time zone.  A time
    function answers [None] where Python raises for a value out of range.
    - [ctime t] is [time.ctime(t)];
    - [strftime t] is
      [datetime.datetime.fromtimestamp(t).strftime("%Y-%m-%d %H:%M:%S")];
    - [isoformat t] is [datetime.datetime.fromtimestamp(t).isoformat()];
    - [strptime s] is
      [datetime.datetime.strptime(s, "%Y-%m-%dT%H:%M:%S").timestamp()]. *)
Class Platform := {
  expanduser : string -> string;
  ctime : Z -> option string;
  strftime : Z -> option string;
  isoformat : Z -> option string;
  strptime : string -> option Q
}.

(** A value of a measurement row: a JSON number (kept as the text
    [csv.writer] prints for it), [null] or a string. *)
Inductive Cell :=
| Num (repr : string)
| Null
| Text (s : string).

(** The [body] member of a measurement reply: an object from timestamp to
    values, or an array. *)
Inductive Body :=
| BodyDict (d : gmap string (list Cell))
| BodyList (l : list (list Cell)).

(** What [json.loads(resp.text)] can be: [null], an object with an [error]
    member, the complete token object of the OAuth2 endpoint, the object of
    the measurement endpoint, whose [status] and [body] members may be
    absent, or an incomplete token object: one with an [access_token]
    member that has no [refresh_token] member ([refresh_token = None]) or
    has one and no [expires_in] member. *)
Inductive Reply :=
| ReplyNull
| ReplyError (error : string)
| ReplyTokens (access_token refresh_token : string) (expires_in : Q)
| ReplyMeasure (status : option string) (body : option Body)
| ReplyPartial (access_token : string) (refresh_token : option string).

(** What an [accessToken] read evaluates to. *)
Inductive Token :=
| TokenStr (t : string)
| TokenNone
| TokenFalse.

(** The parameters of a [getmeasure] request; an absent key is [None]. *)
Record MeasureParams := {
  p_access_token : Token;
  p_device_id : string;
  p_module_id : option string;
  p_scale : string;
  p_type : string;
  p_date_begin : option Z;
  p_date_end : option Z;
  p_limit : option Z;
  p_optimize : bool;
  p_real_time : bool
}.

(** The requests the client posts: the two grants go to [_AUTH_REQ] (the
    password grant with scope [read_station]), the measurement request to
    [_GETMEASURE_REQ]. *)
Inductive Request :=
| PasswordGrant (client_id client_secret username password : string)
| RefreshGrant (refresh_token client_id client_secret : string)
| GetMeasure (p : MeasureParams).

(** The clock and the server: [time_time k] is the reading of the [k]-th
    call of [time.time()], [http_post k r] the decoded reply to request [r]
    when [k] requests were posted before it. *)
Class Outside := {
  time_time : nat -> Q;
  http_post : nat -> Request -> Reply
}.

(** A line on standard output. *)
Inductive Printed :=
| PrintError (error : string)
| PrintErrorReply (v : Reply)
| PrintGetmeasure (n : nat) (date_begin : Z) (ct : string).

(** The part of the world the client changes: the rc files and the CSV
    files by path, the number of clock readings taken, the requests posted
    (oldest first) and the lines printed. *)
Record World := {
  rc_files : gmap string Config;
  csv_files : gmap string (list ascii);
  clock : nat;
  sent : list Request;
  stdout : list Printed
}.

Definition write_rc (w : World) (rc : string) (c : Config) : World :=
  {| rc_files := <[rc := c]> (rc_files w); csv_files := csv_files w;
     clock := clock w; sent := sent w; stdout := stdout w |}.

Definition write_csv (w : World) (f : string) (b : list ascii) : World :=
  {| rc_files := rc_files w; csv_files := <[f := b]> (csv_files w);
     clock := clock w; sent := sent w; stdout := stdout w |}.

Definition tick (w : World) : World :=
  {| rc_files := rc_files w; csv_files := csv_files w;
     clock := S (clock w); sent := sent w; stdout := stdout w |}.

Definition record_request (w : World) (r : Request) : World :=
  {| rc_files := rc_files w; csv_files := csv_files w;
     clock := clock w; sent := sent w ++ [r]; stdout := stdout w |}.

Definition print (w : World) (p : Printed) : World :=
  {| rc_files := rc_files w; csv_files := csv_files w;
     clock := clock w; sent := sent w; stdout := stdout w ++ [p] |}.

(** [_postRequest(url, params)]: one request, one decoded reply. *)
Definition _postRequest {outside : Outside} (w : World) (r : Request) : Reply * World :=
  (http_post (length (sent w)) r, record_request w r).

(** ** configparser *)

Definition DEFAULT_RC_FILE : string := "~/.netatmorc".
Definition default_section : string := "DEFAULT".

(** [configparser.ConfigParser()]. *)
Definition ConfigParser : Config := {| defaults := ∅; sections := ∅ |}.

(** [config = ConfigParser(); if os.path.exists(rc): config.read(rc)], for
    a file that [config.read] parses. *)
Definition read_rc (w : World) (rc : string) : Config :=
  match rc_files w !! rc with
  | Some c => c
  | None => ConfigParser
  end.

Definition has_section (c : Config) (section : string) : bool :=
  bool_decide (is_Some (sections c !! section)).

(** [config.add_section(s)], used only where the section is new. *)
Definition add_section (c : Config) (section : string) : Config :=
  {| defaults := defaults c; sections := <[section := ∅]> (sections c) |}.

(** [config[section][option]]: [None] when the read raises. *)
Definition get {interpolation : Interpolation} (c : Config) (section opt : string)
  : option string :=
  match sections c !! section with
  | None => None
  | Some sec =>
      let d := sec ∪ defaults c in
      match d !! opt with
      | None => None
      | Some raw => before_get d raw
      end
  end.

Definition has_option (c : Config) (section opt : string) : bool :=
  if String.eqb section "" || String.eqb section default_section
  then bool_decide (is_Some (defaults c !! opt))
  else match sections c !! section with
       | None => false
       | Some sec =>
           bool_decide (is_Some (sec !! opt))
           || bool_decide (is_Some (defaults c !! opt))
       end.

(** [config.set(section, option, value)] on a named section: an option
    value must be a string, and a non-empty one must pass [before_set]. *)
Definition set_option {interpolation : Interpolation} (c : Config) (section opt : string)
  (value : option string) : result Config :=
  match sections c !! section with
  | None => Raise KeyError
  | Some sec =>
      match value with
      | None => Raise TypeError
      | Some v =>
          if negb (String.eqb v "") && negb (before_set v)
          then Raise ValueError
          else Ok {| defaults := defaults c;
                     sections := <[section := <[opt := v]> sec]> (sections c) |}
      end
  end.

(** [config.remove_option(section, option)] on a named section. *)
Definition remove_option (c : Config) (section opt : string) : result Config :=
  match sections c !! section with
  | None => Raise KeyError
  | Some sec =>
      Ok {| defaults := defaults c;
            sections := <[section := delete opt sec]> (sections c) |}
  end.

Definition remove_section (c : Config) (section : string) : Config :=
  {| defaults := defaults c; sections := delete section (sections c) |}.

(** [config.set] for each pair, in order. *)
Fixpoint set_options {interpolation : Interpolation} (c : Config) (section : string)
  (kvs : list (string * option string)) : result Config :=
  match kvs with
  | [] => Ok c
  | (k, v) :: r =>
      match set_option c section k v with
      | Ok c' => set_options c' section r
      | Raise e => Raise e
      end
  end.

(** [config[section] = {k: v, ...}] for a named section: the section is
    emptied or created, then every pair is set. *)
Definition set_section {interpolation : Interpolation} (c : Config) (section : string)
  (kvs : list (string * option string)) : result Config :=
  set_options (add_section c section) section kvs.

(** ** Credential store and token manager *)

Section TokenManager.
Context {interpolation : Interpolation} {platform : Platform} {outside : Outside}.

Definition loadCredentials (self : WeatherStation) (w : World) : WeatherStation :=
  match rc_file self with
  | None => self
  | Some f =>
      let config := read_rc w (expanduser f) in
      match get config "netatmo" "client_id", get config "netatmo" "client_secret",
            get config "netatmo" "username", get config "netatmo" "password" with
      | Some client_id, Some client_secret, Some username, Some password =>
          let self := auth self (Some client_id) (Some client_secret)
                        (Some username) (Some password) in
          if has_option config "netatmo" "default_station" then
            match get config "netatmo" "default_station" with
            | Some d => set_default_station self (Some d)
            | None => auth self None None None None
            end
          else self
      | _, _, _, _ => auth self None None None None
      end
  end.

Definition saveCredentials (self : WeatherStation) (w : World) : result World :=
  match rc_file self with
  | None => Ok w
  | Some f =>
      let rc := expanduser f in
      let config := read_rc w rc in
      let config :=
        if has_section config "netatmo" then config
        else add_section config "netatmo" in
      match set_options config "netatmo"
              [("client_id", Some (str (_client_id self)));
               ("client_secret", Some (str (_client_secret self)));
               ("username", Some (str (_username self)));
               ("password", Some (str (_password self)))] with
      | Raise e => Raise e
      | Ok config =>
          let r := match default_station self with
                   | None => remove_option config "netatmo" "default_station"
                   | Some d => set_option config "netatmo" "default_station" (Some d)
                   end in
          match r with
          | Raise e => Raise e
          | Ok config =>
              let config := remove_section config "netatmo/tokens" in
              Ok (write_rc w rc config)
          end
      end
  end.

Definition loadTokens (self : WeatherStation) (w : World) : WeatherStation :=
  match rc_file self with
  | None => self
  | Some f =>
      let config := read_rc w (expanduser f) in
      match get config "netatmo/tokens" "access_token" with
      | None => set_access_token self None
      | Some a =>
          let self := set_access_token self (Some a) in
          match get config "netatmo/tokens" "refresh_token" with
          | None => set_access_token self None
          | Some r =>
              let self := set_refresh_token self r in
              match get config "netatmo/tokens" "expiration" with
              | None => set_access_token self None
              | Some e =>
                  match strptime e with
                  | None => set_access_token self None
                  | Some t => set_expiration self t
                  end
              end
          end
      end
  end.

Definition saveTokens (self : WeatherStation) (w : World) : result World :=
  match rc_file self with
  | None => Ok w
  | Some f =>
      let rc := expanduser f in
      let config := read_rc w rc in
      match _refresh_token self with
      | None => Raise AttributeError
      | Some refresh_token =>
          match _expiration self with
          | None => Raise AttributeError
          | Some expiration =>
              match isoformat (trunc expiration) with
              | None => Raise OverflowError
              | Some iso =>
                  match set_section config "netatmo/tokens"
                          [("access_token", _access_token self);
                           ("refresh_token", Some refresh_token);
                           ("expiration", Some iso)] with
                  | Raise e => Raise e
                  | Ok config => Ok (write_rc w rc config)
                  end
              end
          end
      end
  end.

(** The shared tail of both grants in [accessToken]: the reply is
    examined, the three attributes are assigned one after the other, each
    from a member of the reply, the tokens are saved and the new access
    token is returned.  A member that is missing stops the read with
    [KeyError] at its assignment, and the assignments made before it
    stay. *)
Definition accept_grant (self : WeatherStation) (w : World) (resp : Reply)
  : result Token * WeatherStation * World :=
  match resp with
  | ReplyNull => (Ok TokenFalse, self, w)
  | ReplyError e => (Ok TokenNone, self, print w (PrintError e))
  | ReplyMeasure _ _ => (Raise KeyError, self, w)
  | ReplyPartial access_token None =>
      let self := set_access_token self (Some access_token) in
      (Raise KeyError, self, w)
  | ReplyPartial access_token (Some refresh_token) =>
      let self := set_access_token self (Some access_token) in
      let self := set_refresh_token self refresh_token in
      (Raise KeyError, self, w)
  | ReplyTokens access_token refresh_token expires_in =>
      let self := set_access_token self (Some access_token) in
      let self := set_refresh_token self refresh_token in
      let now := time_time (clock w) in
      let w := tick w in
      let self := set_expiration self (expires_in + now)%Q in
      match saveTokens self w with
      | Raise e => (Raise e, self, w)
      | Ok w => (Ok (TokenStr access_token), self, w)
      end
  end.

(** The [accessToken] property: the value read, and the client and the
    world after the read. *)
Definition accessToken (self : WeatherStation) (w : World)
  : result Token * WeatherStation * World :=
  match _client_id self, _client_secret self with
  | Some client_id, Some client_secret =>
      match _access_token self with
      | None =>
          match _username self, _password self with
          | Some username, Some password =>
              let postParams :=
                PasswordGrant client_id client_secret username password in
              let (resp, w) := _postRequest w postParams in
              accept_grant self w resp
          | _, _ => (Ok TokenNone, self, w)
          end
      | Some access_token =>
          match _expiration self with
          | None => (Raise AttributeError, self, w)
          | Some expiration =>
              let now := time_time (clock w) in
              let w := tick w in
              if Qle_bool expiration now then
                match _refresh_token self with
                | None => (Raise AttributeError, self, w)
                | Some refresh_token =>
                    let postParams :=
                      RefreshGrant refresh_token client_id client_secret in
                    let (resp, w) := _postRequest w postParams in
                    accept_grant self w resp
                end
              else (Ok (TokenStr access_token), self, w)
          end
      end
  | _, _ => (Ok TokenNone, self, w)
  end.

(** The argument of the constructor: a dict, a path, [None], or anything
    else. *)
Inductive configuration :=
| ConfDict (d : gmap string (option string))
| ConfStr (s : string)
| ConfNone
| ConfOther.

Definition blank : WeatherStation :=
  {| _client_id := None; _client_secret := None; _username := None;
     _password := None; _access_token := None; _refresh_token := None;
     _expiration := None; default_station := None; devices := None;
     rc_file := None |}.

Definition load (self : WeatherStation) (w : World) : WeatherStation :=
  if truthy (rc_file self) then loadTokens (loadCredentials self w) w else self.

(** [WeatherStation(configuration)]. *)
Definition __init__ (c : configuration) (w : World) : result WeatherStation :=
  match c with
  | ConfDict d =>
      match d !! "client_id", d !! "client_secret", d !! "username",
            d !! "password" with
      | Some client_id, Some client_secret, Some username, Some password =>
          let self := auth blank client_id client_secret username password in
          let device := match d !! "device" with
                        | Some v => v
                        | None => None
                        end in
          Ok (load (set_default_station self device) w)
      | _, _, _, _ => Raise KeyError
      end
  | ConfStr s => Ok (load (set_rc_file blank (Some s)) w)
  | ConfNone => Ok (load (set_rc_file blank (Some DEFAULT_RC_FILE)) w)
  | ConfOther => Ok (load blank w)
  end.

(** [getMeasure]: [None] when no token is available, otherwise the decoded
    reply of the measurement endpoint. *)
Definition getMeasure (self : WeatherStation) (w : World)
  (device_id : option string) (scale mtype : string) (module_id : option string)
  (date_begin date_end limit : option Z) (optimize real_time : bool)
  : result (option Reply) * WeatherStation * World :=
  match accessToken self w with
  | (Raise e, self, w) => (Raise e, self, w)
  | (Ok TokenNone, self, w) => (Ok None, self, w)
  | (Ok authToken, self, w) =>
      let dev := match device_id with
                 | Some d => Ok d
                 | None => match stationByName self None with
                           | Some s => Ok (_id (main s))
                           | None => Raise TypeError
                           end
                 end in
      match dev with
      | Raise e => (Raise e, self, w)
      | Ok device_id =>
          let ty :=
            if String.eqb mtype "*" then
              match module_id with
              | None => match stationByName self (Some device_id) with
                        | Some s => Ok (join "," (data_type (main s)))
                        | None => Raise TypeError
                        end
              | Some m => match moduleByName self m (Some device_id) with
                          | Some e => Ok (join "," (entry_data_type e))
                          | None => Raise TypeError
                          end
              end
            else Ok mtype in
          match ty with
          | Raise e => (Raise e, self, w)
          | Ok mtype =>
              let nonzero (x : option Z) :=
                match x with
                | Some 0 => None
                | _ => x
                end in
              let postParams :=
                {| p_access_token := authToken; p_device_id := device_id;
                   p_module_id := if truthy module_id then module_id else None;
                   p_scale := scale; p_type := mtype;
                   p_date_begin := nonzero date_begin;
                   p_date_end := nonzero date_end;
                   p_limit := nonzero limit;
                   p_optimize := optimize; p_real_time := real_time |} in
              let (resp, w) := _postRequest w (GetMeasure postParams) in
              (Ok (Some resp), self, w)
          end
      end
  end.

End TokenManager.

(** ** Time-series exporter *)

(** *** The CSV writer *)

(** A string field between quotes, an embedded quote doubled. *)
Definition quoted (s : string) : list ascii :=
  quotechar
    :: flat_map (fun c => if Ascii.eqb c quotechar then [c; c] else [c]) (encode s)
    ++ [quotechar].

(** One field under [QUOTE_NONNUMERIC]: numbers bare, everything else
    quoted, [None] as the empty string. *)
Definition field (c : Cell) : list ascii :=
  match c with
  | Num repr => encode repr
  | Null => [quotechar; quotechar]
  | Text s => quoted s
  end.

Fixpoint fields_line (values : list Cell) : list ascii :=
  match values with
  | [] => []
  | [c] => field c
  | c :: r => field c ++ semicolon :: fields_line r
  end.

(** [csv_writer.writerow(values)]: the bytes of one line. *)
Definition writerow (values : list Cell) : list ascii :=
  fields_line values ++ [newline].

(** The header line. *)
Definition header (fields : list string) : list Cell :=
  Text "Timestamp" :: Text "DateTime" :: map Text fields.

(** *** The resume point *)

(** [last_timestamp(filename)]. *)
Definition last_timestamp (w : World) (filename : string) : result Z :=
  match csv_files w !! filename with
  | None => Ok 0
  | Some data =>
      let taille := Nat.min (length data) 100 in
      if (taille =? 0)%nat then Ok 0
      else
        let tail := skipn (length data - taille) data in
        let last := List.last (readlines tail) [] in
        if is_ascii last then
          let t := slice0 last (find semicolon last) in
          if isnumeric t then
            match int (string_of_list_ascii t) with
            | Some n => Ok n
            | None => Raise ValueError
            end
          else Ok 0
        else Raise UnicodeDecodeError
  end.

(** The first two statements of [dl_csv]. *)
Definition resume (w : World) (filename : string) : result Z :=
  match last_timestamp w filename with
  | Ok start => Ok (if start >? 0 then start + 1 else start)
  | Raise e => Raise e
  end.

(** *** One page *)

(** [sorted(v['body'].items())]: the keys of a dict are distinct, so the
    order is the order of the keys as strings. *)
Fixpoint insert_item (x : string * list Cell) (l : list (string * list Cell))
  : list (string * list Cell) :=
  match l with
  | [] => [x]
  | y :: r => if String.leb (fst x) (fst y) then x :: l else y :: insert_item x r
  end.

Definition sorted (l : list (string * list Cell)) : list (string * list Cell) :=
  fold_right insert_item [] l.

(** The [for] loop over one page: the rows handed to [writerow] (with
    their timestamp), the cursor [start] after them, and whether the loop
    ran to its end. *)
Fixpoint write_page {platform : Platform} (items : list (string * list Cell)) (start : Z)
  : result unit * list (Z * list Cell) * Z :=
  match items with
  | [] => (Ok tt, [], start)
  | (t, v) :: r =>
      match int t with
      | None => (Raise ValueError, [], start)
      | Some t =>
          match strftime t with
          | None => (Raise OverflowError, [], start)
          | Some dt =>
              let values := Num (str_int t) :: Text dt :: v in
              let start := if start <? t then t else start in
              let '(res, rows, start) := write_page r start in
              (res, (t, values) :: rows, start)
          end
      end
  end.

(** *** The loop *)

(** Why the [while True] loop was left through a [break]. *)
Inductive Stop :=
| StatusNotOk
| EmptyPage
| WindowEnd.

Inductive Outcome :=
| Stopped (why : Stop)
| Raised (e : exn)
| OutOfFuel.

(** One trip through the loop that got a reply: the cursor it asked from,
    the reply, the rows it wrote and the cursor after them. *)
Record Iteration := {
  it_start : Z;
  it_reply : Reply;
  it_rows : list (Z * list Cell);
  it_cursor : Z
}.

(** A run of [dl_csv]: how it ended, its trips through the loop, whether
    the header was written, and the client and the world after it. *)
Record Run := {
  outcome : Outcome;
  wrote_header : bool;
  iterations : list Iteration;
  run_self : WeatherStation;
  run_world : World
}.

(** The variables of the loop. *)
Record LoopState := {
  ls_self : WeatherStation;
  ls_world : World;
  ls_n : nat;
  ls_start : Z
}.

(** What one trip through the body of the loop comes to: the loop is
    left (through a [break] or an exception), or it goes round again. *)
Inductive Trip :=
| Leave (o : Outcome) (its : list Iteration) (self : WeatherStation) (w : World)
| Again (it : Iteration) (s : LoopState).

Section Exporter.
Context {interpolation : Interpolation} {platform : Platform} {outside : Outside}.

Variable device_id : option string.
Variable module_id : option string.
Variable fields : list string.
Variable date_end : option Z.

(** The body of the [while True] loop. *)
Definition trip (s : LoopState) : Trip :=
  let self := ls_self s in
  let w := ls_world s in
  let start := ls_start s in
  let n := S (ls_n s) in
  match ctime start with
  | None => Leave (Raised OverflowError) [] self w
  | Some ct =>
      let w := print w (PrintGetmeasure n start ct) in
      match getMeasure self w device_id "max" (join "," fields) module_id
              (Some start) None None false false with
      | (Raise e, self, w) => Leave (Raised e) [] self w
      | (Ok None, self, w) => Leave (Raised TypeError) [] self w
      | (Ok (Some ReplyNull), self, w) => Leave (Raised TypeError) [] self w
      | (Ok (Some (ReplyMeasure (Some st) body as v)), self, w) =>
          if String.eqb st "ok" then
            match body with
            | None => Leave (Raised KeyError) [] self w
            | Some (BodyList []) =>
                Leave (Stopped EmptyPage) [Build_Iteration start v [] start] self w
            | Some (BodyList (_ :: _)) => Leave (Raised AttributeError) [] self w
            | Some (BodyDict d) =>
                if (size d =? 0)%nat then
                  Leave (Stopped EmptyPage) [Build_Iteration start v [] start] self w
                else
                  let '(res, rows, cursor) :=
                    write_page (sorted (map_to_list d)) start in
                  let it := Build_Iteration start v rows cursor in
                  match res with
                  | Raise e => Leave (Raised e) [it] self w
                  | Ok _ =>
                      match date_end with
                      | None => Leave (Raised TypeError) [it] self w
                      | Some e =>
                          if cursor >=? e then Leave (Stopped WindowEnd) [it] self w
                          else Again it (Build_LoopState self w n (cursor + 1))
                      end
                  end
            end
          else
            Leave (Stopped StatusNotOk) [Build_Iteration start v [] start] self
              (print w (PrintErrorReply v))
      | (Ok (Some v), self, w) =>
          Leave (Stopped StatusNotOk) [Build_Iteration start v [] start] self
            (print w (PrintErrorReply v))
      end
  end.

(** One trip, as a run of the loop that may have to go on. *)
Definition once (s : LoopState) : Outcome * list Iteration * LoopState :=
  match trip s with
  | Leave o its self w => (o, its, Build_LoopState self w (S (ls_n s)) (ls_start s))
  | Again it s' => (OutOfFuel, [it], s')
  end.

(** A run that has to go on is continued. *)
Definition and_then (r : Outcome * list Iteration * LoopState)
  (k : LoopState -> Outcome * list Iteration * LoopState)
  : Outcome * list Iteration * LoopState :=
  let '(o, its, s) := r in
  match o with
  | OutOfFuel => let '(o', its', s') := k s in (o', its ++ its', s')
  | _ => r
  end.

(** [while True]: at most [fuel] trips, counted in binary so that a large
    bound costs nothing before it is used. *)
Fixpoint while_true (fuel : positive) (s : LoopState)
  : Outcome * list Iteration * LoopState :=
  match fuel with
  | xH => once s
  | xO p => and_then (while_true p s) (while_true p)
  | xI p => and_then (once s) (fun s' => and_then (while_true p s') (while_true p))
  end.

(** Trips that are enough for every run from [start]: the cursor moves by
    at least one on every trip and the loop is left once it is at
    [date_end]. *)
Definition enough (start : Z) : positive :=
  match date_end with
  | None => 1%positive
  | Some e => Z.to_pos (e - start + 1)
  end.

(** The rows a run wrote, in the order of the [writerow] calls. *)
Definition rows_of (its : list Iteration) : list (Z * list Cell) :=
  flat_map it_rows its.

(** The bytes a list of rows adds to the file. *)
Definition lines_of (rows : list (Z * list Cell)) : list ascii :=
  flat_map (fun r => writerow (snd r)) rows.

(** [dl_csv(ws, filename, device_id, module_id, fields, date_end)].  The
    file is opened for appending, which creates it; what the loop wrote
    is in the file when the run is over, however it ended. *)
Definition dl_csv (self : WeatherStation) (w : World) (filename : string) : Run :=
  match resume w filename with
  | Raise e => Build_Run (Raised e) false [] self w
  | Ok start =>
      let old := match csv_files w !! filename with
                 | Some b => b
                 | None => []
                 end in
      let first := (length old =? 0)%nat in
      let head := if first then writerow (header fields) else [] in
      let '(o, its, s) := while_true (enough start) (Build_LoopState self w 0 start) in
      Build_Run o first its (ls_self s)
        (write_csv (ls_world s) filename (old ++ head ++ lines_of (rows_of its)))
  end.

End Exporter.

(** ** A concrete environment

    The theorems below hold for every platform, interpolation and outside
    world.  The instances here make the definitions run: a platform whose
    local time zone is UTC, an interpolation for values without a percent
    sign, and servers that answer from a script or from a table of
    measurements. *)

(** Proleptic Gregorian date of a day number counted from 1970-01-01. *)
Definition civil_from_days (z0 : Z) : Z * Z * Z :=
  let z := z0 + 719468 in
  let era := z / 146097 in
  let doe := z - era * 146097 in
  let yoe := (doe - doe / 1460 + doe / 36524 - doe / 146096) / 365 in
  let y := yoe + era * 400 in
  let doy := doe - (365 * yoe + yoe / 4 - yoe / 100) in
  let mp := (5 * doy + 2) / 153 in
  let d := doy - (153 * mp + 2) / 5 + 1 in
  let m := if mp <? 10 then mp + 3 else mp - 9 in
  (if m <=? 2 then y + 1 else y, m, d).

Definition days_from_civil (y m d : Z) : Z :=
  let y := if m <=? 2 then y - 1 else y in
  let era := y / 400 in
  let yoe := y - era * 400 in
  let doy := (153 * (if m >? 2 then m - 3 else m + 9) + 2) / 5 + d - 1 in
  let doe := yoe * 365 + yoe / 4 - yoe / 100 + doy in
  era * 146097 + doe - 719468.

(** A number in at least [width] digits, zero padded. *)
Definition pad (width : nat) (n : Z) : string :=
  let s := str_int n in
  string_of_list_ascii (repeat "0"%char (width - String.length s)) +:+ s.

Definition pad_space (width : nat) (n : Z) : string :=
  let s := str_int n in
  string_of_list_ascii (repeat " "%char (width - String.length s)) +:+ s.

Definition day_names : list string :=
  ["Sun"; "Mon"; "Tue"; "Wed"; "Thu"; "Fri"; "Sat"].

Definition month_names : list string :=
  ["Jan"; "Feb"; "Mar"; "Apr"; "May"; "Jun";
   "Jul"; "Aug"; "Sep"; "Oct"; "Nov"; "Dec"].

(** The fields of a timestamp in UTC, for the years [datetime] covers. *)
Definition utc_fields (t : Z) : option (Z * Z * Z * Z * Z * Z * Z) :=
  let days := t / 86400 in
  let secs := t mod 86400 in
  let '(y, m, d) := civil_from_days days in
  if (1 <=? y) && (y <=? 9999)
  then Some (y, m, d, secs / 3600, (secs mod 3600) / 60, secs mod 60,
             (days + 4) mod 7)
  else None.

Definition utc_strftime (sep : string) (t : Z) : option string :=
  match utc_fields t with
  | Some (y, m, d, hh, mm, ss, _) =>
      Some (pad 4 y +:+ "-" +:+ pad 2 m +:+ "-" +:+ pad 2 d +:+ sep
            +:+ pad 2 hh +:+ ":" +:+ pad 2 mm +:+ ":" +:+ pad 2 ss)
  | None => None
  end.

Definition utc_ctime (t : Z) : option string :=
  match utc_fields t with
  | Some (y, m, d, hh, mm, ss, wd) =>
      Some (nth (Z.to_nat wd) day_names "" +:+ " "
            +:+ nth (Z.to_nat (m - 1)) month_names "" +:+ pad_space 3 d +:+ " "
            +:+ pad 2 hh +:+ ":" +:+ pad 2 mm +:+ ":" +:+ pad 2 ss
            +:+ " " +:+ str_int y)
  | None => None
  end.

(** The number written in [len] characters from position [pos]. *)
Definition number_at (s : string) (pos len : nat) : option Z :=
  let t := list_ascii_of_string (substring pos len s) in
  if isnumeric t then int (string_of_list_ascii t) else None.

(** The timestamp of a text in the layout [isoformat] produces. *)
Definition utc_strptime (s : string) : option Q :=
  match number_at s 0 4, number_at s 5 2, number_at s 8 2,
        number_at s 11 2, number_at s 14 2, number_at s 17 2 with
  | Some y, Some m, Some d, Some hh, Some mm, Some ss =>
      let t := days_from_civil y m d * 86400 + hh * 3600 + mm * 60 + ss in
      match utc_strftime "T" t with
      | Some s' => if String.eqb s s' then Some (inject_Z t) else None
      | None => None
      end
  | _, _, _, _, _, _ => None
  end.

(** A platform in the UTC time zone whose paths need no expansion. *)
Definition utc : Platform :=
  {| expanduser := fun p => p;
     ctime := utc_ctime;
     strftime := utc_strftime " ";
     isoformat := utc_strftime "T";
     strptime := utc_strptime |}.

Definition has_percent (s : string) : bool :=
  existsb (Ascii.eqb "%"%char) (list_ascii_of_string s).

(** Interpolation on values without a percent sign: they are read and
    accepted as they are.  (This instance turns every other value down.) *)
Definition percent_free : Interpolation :=
  {| before_get := fun _ raw => if has_percent raw then None else Some raw;
     before_set := fun v => negb (has_percent v) |}.

(** An outside world that follows a script: the [k]-th clock reading and
    the reply to the [k]-th request are the [k]-th entries of two lists
    (the last reading repeats; [null] once the replies are used up). *)
Definition scripted (times : list Q) (replies : list Reply) : Outside :=
  {| time_time := fun k => nth k times (List.last times 0%Q);
     http_post := fun k _ => nth k replies ReplyNull |}.

(** A measurement server over a table of rows in ascending order of
    timestamp: it answers a [getmeasure] request with the first [page]
    rows from [date_begin] on (from the start when the key is absent),
    and any grant with a fresh token. *)
Definition served (table : list (Z * list Cell)) (page : nat) (p : MeasureParams)
  : list (Z * list Cell) :=
  firstn page
    (List.filter (fun r => match p_date_begin p with
                      | Some b => b <=? fst r
                      | None => true
                      end) table).

Definition server (table : list (Z * list Cell)) (page : nat) : Outside :=
  {| time_time := fun k => inject_Z (1478000000 + Z.of_nat k);
     http_post := fun _ r =>
       match r with
       | GetMeasure p =>
           match served table page p with
           | [] => ReplyMeasure (Some "ok") (Some (BodyList []))
           | rows =>
               ReplyMeasure (Some "ok")
                 (Some (BodyDict
                          (list_to_map (map (fun r => (str_int (fst r), snd r)) rows))))
           end
       | _ => ReplyTokens "access" "refresh" 10800
       end |}.

(** A client that holds credentials and a token that is still valid. *)
Definition client : WeatherStation :=
  {| _client_id := Some "id"; _client_secret := Some "secret";
     _username := Some "user@example.org"; _password := Some "password";
     _access_token := Some "access"; _refresh_token := Some "refresh";
     _expiration := Some (inject_Z 2000000000);
     default_station := None; devices := None; rc_file := None |}.

(** A world with nothing in it. *)
Definition nothing : World :=
  {| rc_files := ∅; csv_files := ∅; clock := 0; sent := []; stdout := [] |}.

(** ** Notions the properties are stated with *)

(** A value [configparser] takes on assignment. *)
Definition accepted {interpolation : Interpolation} (v : string) : Prop :=
  v = "" \/ before_set v = true.

(** The token section [saveTokens] writes. *)
Definition token_section (access refresh iso : string) : gmap string string :=
  <["expiration" := iso]> (<["refresh_token" := refresh]> (<["access_token" := access]> ∅)).

(** The content [saveTokens] leaves in the rc file. *)
Definition with_tokens (c : Config) (access refresh iso : string) : Config :=
  {| defaults := defaults c;
     sections := <["netatmo/tokens" := token_section access refresh iso]> (sections c) |}.

(** The grant request a client posts when it needs a token: a password
    grant when it holds none, a refresh grant otherwise. *)
Definition grant_request (self : WeatherStation) : option Request :=
  match _client_id self, _client_secret self with
  | Some client_id, Some client_secret =>
      match _access_token self with
      | None =>
          match _username self, _password self with
          | Some username, Some password =>
              Some (PasswordGrant client_id client_secret username password)
          | _, _ => None
          end
      | Some _ =>
          match _refresh_token self with
          | Some refresh_token =>
              Some (RefreshGrant refresh_token client_id client_secret)
          | None => None
          end
      end
  | _, _ => None
  end.

(** The clock reading that a grant adds to [expires_in]: the first of the
    read for a password grant, the second for a refresh grant, whose first
    reading was compared with the expiration. *)
Definition grant_clock (self : WeatherStation) (w : World) : nat :=
  match _access_token self with
  | None => clock w
  | Some _ => S (clock w)
  end.

(** The client after a grant was accepted. *)
Definition granted (self : WeatherStation) (access refresh : string) (e : Q)
  : WeatherStation :=
  set_expiration (set_refresh_token (set_access_token self (Some access)) refresh) e.

(** A client is backed by its rc file when the credentials it holds are
    in the file: the file has the credentials section. *)
Definition backed {platform : Platform} (self : WeatherStation) (w : World) : Prop :=
  forall f, rc_file self = Some f -> is_Some (_client_id self) ->
    is_Some (sections (read_rc w (expanduser f)) !! "netatmo").

(** *** Clients and servers of the examples *)

Definition rc_path : string := "/home/user/.netatmorc".

(** A client that was given credentials through [auth] and has an rc
    file, but holds no token yet. *)
Definition fresh : WeatherStation :=
  set_rc_file
    (auth blank (Some "id") (Some "secret") (Some "user@example.org")
       (Some "password"))
    (Some rc_path).

(** The same credentials handed to the constructor as a dict. *)
Definition dict_credentials : gmap string (option string) :=
  <["client_id" := Some "id"]>
    (<["client_secret" := Some "secret"]>
       (<["username" := Some "user@example.org"]>
          (<["password" := Some "password"]> ∅))).

(** A client whose username and password are empty strings. *)
Definition empty_user : WeatherStation :=
  auth blank (Some "id") (Some "secret") (Some "") (Some "").

(** A client whose token expired in 2014. *)
Definition expired : WeatherStation :=
  set_expiration (set_rc_file client (Some rc_path)) (inject_Z 1400000000).

(** A client with an rc file whose password has a percent sign. *)
Definition percent_password : WeatherStation :=
  set_credentials expired (Some "id") (Some "secret") (Some "user@example.org")
    (Some "100%").

(** A server that grants a token, at clock readings one minute apart. *)
Definition granting : Outside :=
  scripted [inject_Z 1478000000; inject_Z 1478000060]
    [ReplyTokens "tok1" "ref1" 10800].

(** A server that turns the first grant down and accepts the second. *)
Definition refusing : Outside :=
  scripted [inject_Z 1478000000; inject_Z 1478000060; inject_Z 1478000120]
    [ReplyError "invalid_grant"; ReplyTokens "tok2" "ref2" 10800].

(** An rc file that holds a token section and nothing else. *)
Definition tokens_only : Config :=
  with_tokens ConfigParser "tok0" "ref0" "2016-11-01T11:33:20".

(** *** The sink as the specification describes it *)

(** A line without its terminator. *)
Definition strip_newline (l : list ascii) : list ascii :=
  if Ascii.eqb (List.last l "000"%char) newline then removelast l else l.

(** The last row of a sink: its last line, without the terminator. *)
Definition last_row (sink : list ascii) : option (list ascii) :=
  match readlines sink with
  | [] => None
  | l => Some (strip_newline (List.last l []))
  end.

(** The text of a row before its first semicolon. *)
Fixpoint first_field (row : list ascii) : list ascii :=
  match row with
  | [] => []
  | c :: r => if Ascii.eqb c semicolon then [] else c :: first_field r
  end.

(** The timestamp of a row, when its first field is numeric. *)
Definition timestamp_of (row : list ascii) : option Z :=
  let t := first_field row in
  if isnumeric t then int (string_of_list_ascii t) else None.

(** Follows the specification: the last row's timestamp + 1 if the last
    row parses as numeric, else 0; an empty or missing sink gives 0. *)
Definition resumeTimestamp (sink : option (list ascii)) : Z :=
  match sink with
  | None => 0
  | Some b =>
      match last_row b with
      | None => 0
      | Some row =>
          match timestamp_of row with
          | Some t => t + 1
          | None => 0
          end
      end
  end.

(** A stretch of bytes is made of whole lines when it is empty or ends
    with a line break. *)
Definition whole_lines (b : list ascii) : Prop :=
  b = [] \/ exists p, b = p ++ [newline].

(** *** What the exporter's properties are stated with *)

(** The status of a reply is "ok". *)
Definition status_ok (v : Reply) : bool :=
  match v with
  | ReplyMeasure (Some st) _ => String.eqb st "ok"
  | _ => false
  end.

(** [len(v['body'])], 0 without a body. *)
Definition page_size (v : Reply) : nat :=
  match v with
  | ReplyMeasure _ (Some (BodyDict d)) => size d
  | ReplyMeasure _ (Some (BodyList l)) => length l
  | _ => 0
  end.

(** The three conditions the loop checks on a trip, in its order: the
    status is missing or not "ok"; the page has no entry; the cursor
    after the page has reached [date_end]. *)
Definition stop_condition (date_end : option Z) (it : Iteration) : option Stop :=
  if negb (status_ok (it_reply it)) then Some StatusNotOk
  else if (page_size (it_reply it) =? 0)%nat then Some EmptyPage
  else match date_end with
       | Some e => if it_cursor it >=? e then Some WindowEnd else None
       | None => None
       end.

(** The highest of a cursor and the timestamps of some rows. *)
Definition highest (start : Z) (rows : list (Z * list Cell)) : Z :=
  fold_left Z.max (map fst rows) start.

(** Each trip asks from where the trip before it ended, plus one. *)
Fixpoint chained (start : Z) (its : list Iteration) : Prop :=
  match its with
  | [] => True
  | it :: r => it_start it = start /\ chained (it_cursor it + 1) r
  end.

(** A page honours the cursor it was asked from: its keys are positive
    timestamps at or after the cursor, and between two keys of the page
    the order of the texts is the order of the numbers. *)
Definition honest_key (start : Z) (key : string) : bool :=
  match int key with
  | Some t => (0 <? t) && (start <=? t)
  | None => false
  end.

Definition same_order (a b : string) : bool :=
  implb (String.leb a b && negb (String.eqb a b))
    match int a, int b with
    | Some x, Some y => x <? y
    | _, _ => false
    end.

Definition honest_page (start : Z) (v : Reply) : bool :=
  match v with
  | ReplyMeasure _ (Some (BodyDict d)) =>
      let keys := map fst (map_to_list d) in
      forallb (honest_key start) keys
      && forallb (fun a => forallb (same_order a) keys) keys
  | _ => true
  end.

Definition honest_iteration (it : Iteration) : bool :=
  honest_page (it_start it) (it_reply it).

(** A row the resume point can be read back from: a positive timestamp,
    printed as the first field, on a line of at most 100 ASCII bytes
    without a line break inside. *)
Definition row_fits (r : Z * list Cell) : bool :=
  (0 <? fst r)
  && match snd r with
     | Num s :: _ => String.eqb s (str_int (fst r))
     | _ => false
     end
  && negb (existsb (Ascii.eqb newline) (fields_line (snd r)))
  && (length (writerow (snd r)) <=? 100)%nat
  && is_ascii (writerow (snd r)).

Definition header_fits (fields : list string) : bool :=
  negb (existsb (Ascii.eqb newline) (fields_line (header fields)))
  && (length (writerow (header fields)) <=? 100)%nat
  && is_ascii (writerow (header fields)).

(** The bytes of a sink that holds the header and some rows. *)
Definition sink_of (fields : list string) (rows : list (Z * list Cell))
  : list ascii :=
  writerow (header fields) ++ flat_map (fun r => writerow (snd r)) rows.

(** The sink holds exactly these rows: it is absent or empty and there
    are none, or it is the header followed by them. *)
Definition sink_holds (fields : list string) (rows : list (Z * list Cell))
  (content : option (list ascii)) : Prop :=
  (rows = [] /\ (content = None \/ content = Some []))
  \/ content = Some (sink_of fields rows).

(** The resume point a sink with these rows should give. *)
Definition resume_after (rows : list (Z * list Cell)) : Z :=
  match rows with
  | [] => 0
  | _ => fst (List.last rows (0, [])) + 1
  end.

(** *** Sinks of the examples *)

(** A sink whose only row carries the timestamp 1478000000. *)
Definition one_row : list ascii :=
  writerow (header ["Temperature"])
  ++ writerow [Num "1478000000"; Text "2016-11-01 11:33:20"; Num "21.5"].

(** A sink whose last row carries the timestamp 0. *)
Definition epoch_row : list ascii :=
  writerow (header ["Temperature"])
  ++ writerow [Num "0"; Text "1970-01-01 00:00:00"; Num "21.5"].

(** *** The trips of the loop, as a relation

    [trips date_end start o its]: from the cursor [start] the loop can
    make the trips [its] and end as [o].  It follows the branches of the
    loop body; what the token manager and the server do is left open. *)
Inductive trips {platform : Platform} (date_end : option Z)
  : Z -> Outcome -> list Iteration -> Prop :=
| trips_out (start : Z) :
    trips date_end start OutOfFuel []
| trips_raised (start : Z) (e : exn) :
    trips date_end start (Raised e) []
| trips_status (start : Z) (v : Reply) :
    status_ok v = false ->
    trips date_end start (Stopped StatusNotOk) [Build_Iteration start v [] start]
| trips_empty (start : Z) (v : Reply) :
    status_ok v = true -> page_size v = 0%nat ->
    trips date_end start (Stopped EmptyPage) [Build_Iteration start v [] start]
| trips_page_raised (start : Z) (st : string) (d : gmap string (list Cell))
    (e : exn) (rows : list (Z * list Cell)) (cursor : Z) :
    String.eqb st "ok" = true -> size d <> 0%nat ->
    write_page (sorted (map_to_list d)) start = (Raise e, rows, cursor) ->
    trips date_end start (Raised e)
      [Build_Iteration start (ReplyMeasure (Some st) (Some (BodyDict d))) rows cursor]
| trips_no_end (start : Z) (st : string) (d : gmap string (list Cell))
    (rows : list (Z * list Cell)) (cursor : Z) :
    String.eqb st "ok" = true -> size d <> 0%nat ->
    write_page (sorted (map_to_list d)) start = (Ok tt, rows, cursor) ->
    date_end = None ->
    trips date_end start (Raised TypeError)
      [Build_Iteration start (ReplyMeasure (Some st) (Some (BodyDict d))) rows cursor]
| trips_window (start : Z) (st : string) (d : gmap string (list Cell))
    (rows : list (Z * list Cell)) (cursor e : Z) :
    String.eqb st "ok" = true -> size d <> 0%nat ->
    write_page (sorted (map_to_list d)) start = (Ok tt, rows, cursor) ->
    date_end = Some e -> e <= cursor ->
    trips date_end start (Stopped WindowEnd)
      [Build_Iteration start (ReplyMeasure (Some st) (Some (BodyDict d))) rows cursor]
| trips_next (start : Z) (st : string) (d : gmap string (list Cell))
    (rows : list (Z * list Cell)) (cursor e : Z) (o : Outcome)
    (its : list Iteration) :
    String.eqb st "ok" = true -> size d <> 0%nat ->
    write_page (sorted (map_to_list d)) start = (Ok tt, rows, cursor) ->
    date_end = Some e -> cursor < e ->
    trips date_end (cursor + 1) o its ->
    trips date_end start o
      (Build_Iteration start (ReplyMeasure (Some st) (Some (BodyDict d))) rows cursor
       :: its).

(** *** The run of the loop, trip by trip *)

(** The page of a reply has a body with no entry. *)
Definition empty_page (v : Reply) : bool :=
  match v with
  | ReplyMeasure _ (Some (BodyDict d)) => (size d =? 0)%nat
  | ReplyMeasure _ (Some (BodyList [])) => true
  | _ => false
  end.

Section Runs.
Context {interpolation : Interpolation} {platform : Platform} {outside : Outside}.

Variable device_id : option string.
Variable module_id : option string.
Variable fields : list string.
Variable date_end : option Z.

(** [rounds s its s']: from the loop variables [s], the trips [its] all
    went round, each starting from the variables the one before it left,
    and left the variables [s']. *)
Inductive rounds : LoopState -> list Iteration -> LoopState -> Prop :=
| rounds_none (s : LoopState) : rounds s [] s
| rounds_more (s s1 s2 : LoopState) (it : Iteration) (its : list Iteration) :
    trip device_id module_id fields date_end s = Again it s1 ->
    rounds s1 its s2 ->
    rounds s (it :: its) s2.

(** [runs s o its self w]: from [s], the loop made trips that went round
    and then one that left it as [o]; [its] are the trips that got a
    reply, [self] and [w] the client and the world when the loop was
    left. *)
Definition runs (s : LoopState) (o : Outcome) (its : list Iteration)
  (self : WeatherStation) (w : World) : Prop :=
  exists before s1 last,
    rounds s before s1 /\
    trip device_id module_id fields date_end s1 = Leave o last self w /\
    its = before ++ last.

End Runs.

(** *** The two-page scenario *)

(** The reply that carries a page of rows. *)
Definition page_of (rows : list (Z * list Cell)) : Reply :=
  ReplyMeasure (Some "ok")
    (Some (BodyDict (list_to_map (map (fun r => (str_int (fst r), snd r)) rows)))).

(** The upstream of the scenario: the first request is answered with the
    page {t0, t0+60}, the second with the page {t0+120, t0+3600}. *)
Definition two_pages (t0 : Z) (v1 v2 v3 v4 : list Cell) : Outside :=
  scripted [inject_Z 1478000000]
    [page_of [(t0, v1); (t0 + 60, v2)];
     page_of [(t0 + 120, v3); (t0 + 3600, v4)]].

(** The key of [a] comes before the key of [b] when [sorted] compares
    them, as texts. *)
Definition text_before (a b : Z) : Prop :=
  String.leb (str_int b) (str_int a) = false.

(** The number a string of digits stands for, read from the left after
    the number [acc] of the digits before it. *)
Fixpoint digits_value (d : uint) (acc : N) : N :=
  match d with
  | Nil => acc
  | D0 l => digits_value l (10 * acc)
  | D1 l => digits_value l (10 * acc + 1)
  | D2 l => digits_value l (10 * acc + 2)
  | D3 l => digits_value l (10 * acc + 3)
  | D4 l => digits_value l (10 * acc + 4)
  | D5 l => digits_value l (10 * acc + 5)
  | D6 l => digits_value l (10 * acc + 6)
  | D7 l => digits_value l (10 * acc + 7)
  | D8 l => digits_value l (10 * acc + 8)
  | D9 l => digits_value l (10 * acc + 9)
  end.

(** The sink is empty: there is no file, or a file without a byte. *)
Definition empty_sink (w : World) (filename : string) : Prop :=
  csv_files w !! filename = None \/ csv_files w !! filename = Some [].

(** The request of the loop for the rows from [start] on. *)
Definition page_request (token device : string) (module_id : option string)
  (fields : list string) (start : Z) : Request :=
  GetMeasure
    {| p_access_token := TokenStr token; p_device_id := device;
       p_module_id := if truthy module_id then module_id else None;
       p_scale := "max"; p_type := join "," fields;
       p_date_begin := match start with 0 => None | _ => Some start end;
       p_date_end := None; p_limit := None;
       p_optimize := false; p_real_time := false |}.

(** A sink whose only row carries the timestamp 99, and an upstream that
    answers with a page whose only key is 10. *)
Definition row_99 : list ascii :=
  writerow (header ["Temperature"])
  ++ writerow [Num "99"; Text "1970-01-01 00:01:39"; Num "21.5"].

Definition early_page : Outside :=
  scripted [inject_Z 1478000000] [page_of [(10, [Num "21.4"])]].


Definition T0 : Z := 1478000000.

Definition scenario_table : list (Z * list Cell) :=
  [(T0, [Num "21.5"]); (T0 + 60, [Num "21.4"]);
   (T0 + 120, [Num "21.4"]); (T0 + 3600, [Num "20.9"])].

(** A server that hands out the table two rows at a time. *)
Definition scenario_server : Outside := server scenario_table 2.

Definition station_id : string := "70:ee:50:00:00:01".
Definition station_csv : string := "netatmo_station.csv".

(** Where the loop asks from after some trips that all went round. *)
Definition next_start (start : Z) (its : list Iteration) : Z :=
  fold_left (fun _ it => it_cursor it + 1) its start.

(** *** A table of long rows *)

Definition long_fields : list string :=
  ["Temperature"; "CO2"; "Humidity"; "Noise"; "Pressure";
   "min_temp"; "max_temp"; "date_min_temp"; "date_max_temp";
   "min_hum"; "max_hum"; "min_pressure"; "max_pressure"].

(** One measurement of thirteen values: its line has 107 bytes. *)
Definition long_table : list (Z * list Cell) :=
  [(T0, [Num "21.5"; Num "450"; Num "55"; Num "40"; Num "1013.2";
         Num "20.1"; Num "23.4"; Num "1477990000"; Num "1477995000";
         Num "50"; Num "60"; Num "1010.1"; Num "1015.3"])].

Definition long_server : Outside := server long_table 1024.

(** A page whose two keys have different lengths. *)
Definition uneven_page : gmap string (list Cell) :=
  <["999999999" := [Num "21.5"]]> (<["1000000000" := [Num "21.4"]]> ∅).

Definition uneven_server : Outside :=
  scripted [inject_Z 1478000000]
    [ReplyMeasure (Some "ok") (Some (BodyDict uneven_page))].

(** A server that pays no attention to [date_begin]: it answers two
    requests with the same page of one row, then with an empty page. *)
Definition repeated_page : Reply :=
  ReplyMeasure (Some "ok")
    (Some (BodyDict (<["1478000000" := [Num "21.5"]]> ∅))).

Definition repeating_server : Outside :=
  scripted [inject_Z 1478000000]
    [repeated_page; repeated_page; ReplyMeasure (Some "ok") (Some (BodyList []))].

(** The order [sorted] puts the items in. *)
Definition key_le (a b : string * list Cell) : Prop :=
  String.leb (fst a) (fst b) = true.

(** What a row looks like: the timestamp printed first, then the date,
    then the values. *)
Definition row_shape (r : Z * list Cell) : Prop :=
  exists dt v, snd r = Num (str_int (fst r)) :: Text dt :: v.

(** The first two rows of the scenario as [dl_csv] writes them, and a
    world whose sink holds them: a run that was cut after two rows. *)
Definition two_rows : list (Z * list Cell) :=
  [(T0, [Num "1478000000"; Text "2016-11-01 11:33:20"; Num "21.5"]);
   (T0 + 60, [Num "1478000060"; Text "2016-11-01 11:34:20"; Num "21.4"])].

Definition cut_world : World :=
  write_csv nothing station_csv (sink_of ["Temperature"] two_rows).

(** *** A device snapshot *)

Definition outdoor : ModuleRec :=
  {| _id := "02:00:00:00:00:0a"; module_name := "Outdoor";
     data_type := ["Temperature"; "Humidity"] |}.

Definition home : StationRec :=
  {| main := {| _id := station_id; module_name := "Indoor";
                data_type := ["Temperature"; "CO2"; "Humidity"; "Noise"; "Pressure"] |};
     station_name := "Home";
     modules := [outdoor] |}.

(** A client after a directory fetch that returned one station. *)
Definition at_home : WeatherStation :=
  {| _client_id := _client_id client; _client_secret := _client_secret client;
     _username := _username client; _password := _password client;
     _access_token := _access_token client;
     _refresh_token := _refresh_token client;
     _expiration := _expiration client;
     default_station := None; devices := Some [home]; rc_file := None |}.

(** A second station, and a client whose snapshot lists it first while the
    stored default names the other one. *)
Definition cabin : StationRec :=
  {| main := {| _id := "70:ee:50:00:00:02"; module_name := "Cabin indoor";
                data_type := ["Temperature"; "CO2"; "Humidity"; "Noise"; "Pressure"] |};
     station_name := "Cabin";
     modules := [] |}.

Definition by_default : WeatherStation :=
  {| _client_id := _client_id client; _client_secret := _client_secret client;
     _username := _username client; _password := _password client;
     _access_token := _access_token client;
     _refresh_token := _refresh_token client;
     _expiration := _expiration client;
     default_station := Some station_id; devices := Some [cabin; home];
     rc_file := None |}.

(** The sink a run over [long_table] leaves: the header and one row of
    107 bytes. *)
Definition long_sink : list ascii :=
  sink_of long_fields
    (map (fun r => (fst r, Num (str_int (fst r)) :: Text "2016-11-01 11:33:20" :: snd r))
       long_table).

(** * The rest of the client *)

(** ** Notions for the token manager and the credential store *)

(** Two clients agree on everything but the token attributes. *)
Definition same_settings (a b : WeatherStation) : Prop :=
  _client_id a = _client_id b /\ _client_secret a = _client_secret b /\
  _username a = _username b /\ _password a = _password b /\
  default_station a = default_station b /\ devices a = devices b /\
  rc_file a = rc_file b.


(** The four credentials a client holds. *)
Definition credentials (self : WeatherStation)
  : option string * option string * option string * option string :=
  (_client_id self, _client_secret self, _username self, _password self).

(** The four credentials an rc file holds, as [loadCredentials] reads
    them. *)
Definition stored_credentials {interpolation : Interpolation} (c : Config)
  : option string * option string * option string * option string :=
  (get c "netatmo" "client_id", get c "netatmo" "client_secret",
   get c "netatmo" "username", get c "netatmo" "password").

(** The credentials section can be loaded: the four options can be read,
    and so can the default station when there is one. *)
Definition loadable {interpolation : Interpolation} (c : Config) : bool :=
  match get c "netatmo" "client_id", get c "netatmo" "client_secret",
        get c "netatmo" "username", get c "netatmo" "password" with
  | Some _, Some _, Some _, Some _ =>
      implb (has_option c "netatmo" "default_station")
        (bool_decide (is_Some (get c "netatmo" "default_station")))
  | _, _, _, _ => false
  end.

(** A client that holds credentials and a token with its refresh token
    and expiration. *)
Definition holding (self : WeatherStation) (cid cs : string) (u p : option string)
  (tok rt : string) (e : Q) : WeatherStation :=
  set_expiration
    (set_refresh_token
       (set_access_token (set_credentials self (Some cid) (Some cs) u p) (Some tok))
       rt)
    e.

(** A server that grants a token whose text has a percent sign. *)
Definition granting_percent : Outside :=
  scripted [inject_Z 1478000000; inject_Z 1478000060]
    [ReplyTokens "tok%1" "ref1" 10800].


(** An optional number as [getMeasure] passes it on: 0 is left out. *)
Definition unless_zero (x : option Z) : option Z :=
  match x with
  | Some 0 => None
  | _ => x
  end.

(** What a request posted by a call of [getMeasure] looks like: a grant,
    or a measurement request with the arguments of the call, the falsy
    ones left out. *)
Definition measure_request (device_id : option string) (scale mtype : string)
  (module_id : option string) (date_begin date_end limit : option Z)
  (optimize real_time : bool) (r : Request) : Prop :=
  match r with
  | GetMeasure p =>
      (forall d, device_id = Some d -> p_device_id p = d) /\
      p_scale p = scale /\
      (mtype <> "*" -> p_type p = mtype) /\
      p_module_id p = (if truthy module_id then module_id else None) /\
      p_date_begin p = unless_zero date_begin /\
      p_date_end p = unless_zero date_end /\
      p_limit p = unless_zero limit /\
      p_optimize p = optimize /\ p_real_time p = real_time
  | _ => True
  end.

(** What a request posted during a run of [dl_csv] looks like. *)
Definition export_request (device_id module_id : option string)
  (fields : list string) (r : Request) : Prop :=
  exists start : Z,
    measure_request device_id "max" (join "," fields) module_id (Some start)
      None None false false r.

(** The row of [long_table] as [dl_csv] writes it: a line of 107 bytes. *)
Definition long_line : list ascii :=
  writerow
    (Num "1478000000" :: Text "2016-11-01 11:33:20" :: snd (List.hd (0, []) long_table)).

(** What [dl_csv] leaves alone: the settings of the client, every CSV
    file but the sink, every rc file but the client's own. *)
Definition untouched {platform : Platform} (filename : string)
  (self : WeatherStation) (w : World) (self' : WeatherStation) (w' : World) : Prop :=
  same_settings self self' /\
  (forall g, g <> filename -> csv_files w' !! g = csv_files w !! g) /\
  (forall g, (forall f, rc_file self = Some f -> g <> expanduser f) ->
     rc_files w' !! g = rc_files w !! g).

(** The rows of a page that was written whole: one row for every key of
    the page, in the order [sorted] gives, with the timestamp the key
    spells and the values of the key after the timestamp and the date. *)
Definition whole_page (it : Iteration) : Prop :=
  match it_reply it with
  | ReplyMeasure (Some st) (Some (BodyDict d)) =>
      if String.eqb st "ok" then
        map (fun r => Some (fst r)) (it_rows it)
        = map (fun kv => int (fst kv)) (sorted (map_to_list d)) /\
        map (fun r => skipn 2 (snd r)) (it_rows it)
        = map snd (sorted (map_to_list d))
      else it_rows it = []
  | _ => it_rows it = []
  end.

(** ** Directory fetch and default station *)

Definition set_devices (self : WeatherStation) (l : list StationRec)
  : WeatherStation :=
  {| _client_id := _client_id self; _client_secret := _client_secret self;
     _username := _username self; _password := _password self;
     _access_token := _access_token self;
     _refresh_token := _refresh_token self;
     _expiration := _expiration self;
     default_station := default_station self;
     devices := Some l; rc_file := rc_file self |}.

(** The [user] member of the directory: the account the stations belong
    to. *)
Record UserRec := {
  mail : string
}.

(** The client together with its [user] attribute, which does not exist
    until a directory fetch has set it. *)
Record Account := {
  ws : WeatherStation;
  user : option UserRec
}.

(** The parameters of a [getstationsdata] request.  The key [device_id]
    is absent ([None]), or present with the value [None] or a string. *)
Record StationsParams := {
  s_access_token : Token;
  s_get_favorites : bool;
  s_device_id : option (option string)
}.

(** What [json.loads(resp.text)] can be for the directory endpoint:
    [null], an object with an [error] member, or an object without one,
    whose [body] may be absent and may lack [user] or [devices]. *)
Inductive StationsReply :=
| StationsNull
| StationsError (error : string)
| StationsData (body : option (option UserRec * option (list StationRec))).

(** The directory endpoint: [http_stations k p] is the decoded reply to
    the request [p] when [k] directory requests were posted before it. *)
Class Directory := {
  http_stations : nat -> StationsParams -> StationsReply
}.

(** The world with the directory requests posted so far, oldest first. *)
Record Net := {
  world : World;
  asked : list StationsParams
}.

(** [re.match('^' + '[\:\-]'.join(['([0-9a-f]{2})']*6) + '$', s)]: six
    pairs of hexadecimal digits in lower case with a colon or a hyphen
    between them.  [$] matches at the end of the text and also before a
    line break that ends it. *)
Definition is_hex (c : ascii) : bool :=
  let n := nat_of_ascii c in
  (((48 <=? n) && (n <=? 57)) || ((97 <=? n) && (n <=? 102)))%nat.

Definition is_separator (c : ascii) : bool :=
  Ascii.eqb c ":" || Ascii.eqb c "-".

Fixpoint mac_pairs (n : nat) (l : list ascii) : bool :=
  match l with
  | a :: b :: r =>
      is_hex a && is_hex b &&
      match n with
      | O => match r with
             | [] => true
             | [c] => Ascii.eqb c newline
             | _ => false
             end
      | S n' => match r with
                | c :: r' => is_separator c && mac_pairs n' r'
                | [] => false
                end
      end
  | _ => false
  end.

Definition mac_address (s : string) : bool :=
  mac_pairs 5 (list_ascii_of_string s).

Section DirectoryFetch.
Context {interpolation : Interpolation} {platform : Platform}
  {outside : Outside} {directory : Directory}.

(** [getData(device_id)].  The error line is recorded by its error text. *)
Definition getData (self : Account) (n : Net) (device_id : option string)
  : result bool * Account * Net :=
  match accessToken (ws self) (world n) with
  | (Raise e, c, w) =>
      (Raise e, {| ws := c; user := user self |},
       {| world := w; asked := asked n |})
  | (Ok TokenNone, c, w) =>
      (Ok false, {| ws := c; user := user self |},
       {| world := w; asked := asked n |})
  | (Ok authToken, c, w) =>
      let postParams :=
        {| s_access_token := authToken; s_get_favorites := false;
           s_device_id :=
             match device_id with
             | None => Some (default_station c)
             | Some d => if String.eqb d "*" then None else Some (Some d)
             end |} in
      let resp := http_stations (length (asked n)) postParams in
      let asked' := asked n ++ [postParams] in
      match resp with
      | StationsNull =>
          (Ok false, {| ws := c; user := user self |},
           {| world := w; asked := asked' |})
      | StationsError e =>
          (Ok false, {| ws := c; user := user self |},
           {| world := print w (PrintError e); asked := asked' |})
      | StationsData None =>
          (Raise KeyError, {| ws := c; user := user self |},
           {| world := w; asked := asked' |})
      | StationsData (Some (None, _)) =>
          (Raise KeyError, {| ws := c; user := user self |},
           {| world := w; asked := asked' |})
      | StationsData (Some (Some u, None)) =>
          (Raise KeyError, {| ws := c; user := Some u |},
           {| world := w; asked := asked' |})
      | StationsData (Some (Some u, Some l)) =>
          (Ok true, {| ws := set_devices c l; user := Some u |},
           {| world := w; asked := asked' |})
      end
  end.

(** [setDefaultStation(device)]. *)
Definition setDefaultStation (self : Account) (n : Net) (device : string)
  : result bool * Account * Net :=
  if String.eqb device "" then
    (Ok true,
     {| ws := set_default_station (ws self) None; user := user self |}, n)
  else if mac_address (lower device) then
    (Ok true,
     {| ws := set_default_station (ws self) (Some (lower device));
        user := user self |}, n)
  else
    match getData self n (Some "*") with
    | (Raise e, self, n) => (Raise e, self, n)
    | (Ok _, self, n) =>
        match stationByName (ws self) (Some device) with
        | Some i =>
            (Ok true,
             {| ws := set_default_station (ws self) (Some (_id (main i)));
                user := user self |}, n)
        | None => (Ok false, self, n)
        end
    end.

End DirectoryFetch.

(** The [device_id] parameter [getData] sends: the default station when
    no device is named, nothing for "*", the device named otherwise. *)
Definition stations_device (self : WeatherStation) (device_id : option string)
  : option (option string) :=
  match device_id with
  | None => Some (default_station self)
  | Some d => if String.eqb d "*" then None else Some (Some d)
  end.

(** A directory that lists two stations, and an account that has not
    fetched it yet. *)
Definition listing : Directory :=
  {| http_stations := fun _ _ =>
       StationsData (Some (Some {| mail := "user@example.org" |},
                           Some [cabin; home])) |}.

Definition newcomer : Account := {| ws := client; user := None |}.

Definition offline : Net := {| world := nothing; asked := [] |}.

(** ** The [config] command *)

(** The command line of [config]: the rc file ([~/.netatmorc] unless
    [-c] names another) and the five options, [None] when not given. *)
Record Args := {
  a_rc_file : string;
  a_username : option string;
  a_password : option string;
  a_client_id : option string;
  a_client_secret : option string;
  a_device : option string
}.

(** How [action_config] ends: with [exit(2)] after the help text, with an
    exception, or with the five values it prints, after the line "Write
    config" ([wrote] is true) or "Read config". *)
Inductive ConfigResult :=
| ConfigExit (status : Z)
| ConfigRaised (e : exn)
| ConfigShown (wrote : bool)
    (username password client_id client_secret default : option string).

Definition given (x : option string) : nat :=
  match x with
  | Some _ => 1
  | None => 0
  end.

Section ConfigCommand.
Context {interpolation : Interpolation} {platform : Platform}
  {outside : Outside} {directory : Directory}.

(** [action_config(parser, args)]. *)
Definition action_config (args : Args) (n : Net) : ConfigResult * Net :=
  match __init__ (ConfStr (a_rc_file args)) (world n) with
  | Raise e => (ConfigRaised e, n)
  | Ok ws0 =>
      let k := (given (a_username args) + given (a_password args)
                + given (a_client_id args) + given (a_client_secret args))%nat in
      if ((1 <=? k) && (k <? 4))%nat then (ConfigExit 2, n)
      else
        let step :=
          if (k =? 4)%nat || bool_decide (is_Some (a_device args)) then
            let ws1 := loadCredentials ws0 (world n) in
            let ws2 :=
              if (k =? 4)%nat
              then auth ws1 (a_client_id args) (a_client_secret args)
                     (a_username args) (a_password args)
              else ws1 in
            let r :=
              match a_device args with
              | Some device =>
                  setDefaultStation {| ws := ws2; user := None |} n device
              | None => (Ok true, {| ws := ws2; user := None |}, n)
              end in
            match r with
            | (Raise e, _, n') => inl (e, n')
            | (Ok _, acc, n') =>
                match saveCredentials (ws acc) (world n') with
                | Raise e => inl (e, n')
                | Ok w' => inr (true, ws acc, {| world := w'; asked := asked n' |})
                end
            end
          else inr (false, ws0, n) in
        match step with
        | inl (e, n') => (ConfigRaised e, n')
        | inr (wrote, ws3, n') =>
            let ws4 := loadCredentials ws3 (world n') in
            (ConfigShown wrote (_username ws4) (_password ws4) (_client_id ws4)
               (_client_secret ws4) (default_station ws4), n')
        end
  end.

End ConfigCommand.

(** An rc file with credentials and a token that is still valid, and the
    command line [config -d Home]. *)
Definition stocked : Config :=
  {| defaults := ∅;
     sections :=
       <["netatmo" := <["client_id" := "id"]>
                        (<["client_secret" := "secret"]>
                           (<["username" := "user@example.org"]>
                              (<["password" := "password"]> ∅)))]>
         (<["netatmo/tokens" := token_section "tok0" "ref0" "2033-05-18T03:33:20"]> ∅) |}.

Definition at_desk : Net :=
  {| world := write_rc nothing rc_path stocked; asked := [] |}.

Definition config_device : Args :=
  {| a_rc_file := rc_path; a_username := None; a_password := None;
     a_client_id := None; a_client_secret := None; a_device := Some "Home" |}.


(** * Properties *)

(** ** Station directory *)

Section DirectoryFacts.

Lemma first_match_nil {A} (p : A -> bool) (x : A) : ~ first_match p [] x.
Proof.
  intros (pre & post & E & _). destruct pre; discriminate.
Qed.

Lemma first_match_here {A} (p : A -> bool) (x : A) (l : list A) :
  p x = true -> first_match p (x :: l) x.
Proof.
  intros Hp. exists [], l. repeat split; auto.
Qed.

Lemma first_match_head {A} (p : A -> bool) (x y : A) (l : list A) :
  p x = true -> first_match p (x :: l) y -> y = x.
Proof.
  intros Hp (pre & post & E & Hy & Hpre).
  destruct pre as [|z pre]; simpl in E.
  - congruence.
  - inversion E; subst z. inversion Hpre; subst. congruence.
Qed.

Lemma first_match_later {A} (p : A -> bool) (x y : A) (l : list A) :
  p x = false -> (first_match p (x :: l) y <-> first_match p l y).
Proof.
  intros Hp. split.
  - intros (pre & post & E & Hy & Hpre).
    destruct pre as [|z pre]; simpl in E.
    + inversion E; subst. congruence.
    + inversion E; subst. inversion Hpre; subst. exists pre, post. auto.
  - intros (pre & post & E & Hy & Hpre).
    exists (x :: pre), post. subst l. repeat split; auto.
Qed.

(** The general shape of both loops: a search for the first element that
    satisfies a test. *)
Lemma find_first_match {A} (p : A -> bool) (l : list A) (x : A) :
  List.find p l = Some x <-> first_match p l x.
Proof.
  induction l as [|y l IH]; simpl.
  - split; [discriminate | intros F; destruct (first_match_nil _ _ F)].
  - destruct (p y) eqn:Hy.
    + split.
      * intros E; inversion E; subst. now apply first_match_here.
      * intros F. now rewrite (first_match_head _ _ _ _ Hy F).
    + rewrite IH. symmetry. now apply first_match_later.
Qed.

Lemma find_no_match {A} (p : A -> bool) (l : list A) :
  List.find p l = None <-> no_match p l.
Proof.
  unfold no_match. induction l as [|y l IH]; simpl.
  - split; auto.
  - destruct (p y) eqn:Hy.
    + split; [discriminate | intros F; inversion F; congruence].
    + rewrite IH. split; [intros F; constructor; auto | intros F; now inversion F].
Qed.

Lemma stationByName_loop_find (s : string) (l : list StationRec) :
  s <> "" ->
  stationByName_loop (Some s) l = List.find (station_matches s) l.
Proof.
  intros Hs. apply String.eqb_neq in Hs.
  induction l as [|i l IH]; simpl; [reflexivity|].
  rewrite Hs. unfold station_matches.
  destruct (String.eqb (station_name i) s); simpl; [reflexivity|].
  destruct (String.eqb (lower (_id (main i))) (lower s)); simpl; auto.
Qed.

Lemma stationByName_loop_default (o : option string) (l : list StationRec) :
  truthy o = false -> stationByName_loop o l = head l.
Proof.
  intros Ho. destruct l as [|i l]; simpl; [reflexivity|].
  destruct o as [s|]; [|reflexivity].
  simpl in Ho. apply negb_false_iff in Ho. now rewrite Ho.
Qed.

Lemma moduleByName_loop_find (module : string) (l : list ModuleRec) :
  moduleByName_loop module l
  = List.find (fun e => module_matches module (entry_module e)) (map Module l).
Proof.
  induction l as [|m l IH]; simpl; [reflexivity|].
  unfold module_matches at 1. simpl.
  destruct (String.eqb (module_name m) module); simpl; [reflexivity|].
  destruct (String.eqb (_id m) module); simpl; auto.
Qed.

Lemma moduleByName_find (self : WeatherStation) (module : string)
  (station : option string) (s : StationRec) :
  stationByName self station = Some s ->
  moduleByName self module station
  = List.find (fun e => module_matches module (entry_module e)) (candidates s).
Proof.
  intros Hs. unfold moduleByName, candidates. rewrite Hs. simpl.
  unfold module_matches at 1. simpl.
  destruct (String.eqb (module_name (main s)) module); simpl; [reflexivity|].
  destruct (String.eqb (_id (main s)) module); simpl; [reflexivity|].
  apply moduleByName_loop_find.
Qed.

Lemma find_ext_in {A} (p q : A -> bool) (l : list A) :
  (forall x, In x l -> p x = q x) -> List.find p l = List.find q l.
Proof.
  induction l as [|y l IH]; simpl; intros H; [reflexivity|].
  rewrite <- (H y) by now left.
  destruct (p y); [reflexivity|]. apply IH. intros x Hx. apply H. now right.
Qed.

(** For an identifier spelled as the snapshot spells its ids, comparing
    ids up to case and comparing them as they are come to the same. *)
Lemma module_rules_matches (module : string) (s : StationRec) (e : entry) :
  spelled_as_stored module s = true -> In e (candidates s) ->
  module_matches module (entry_module e) = module_rules module (entry_module e).
Proof.
  intros Hs He. unfold spelled_as_stored in Hs.
  rewrite forallb_forall in Hs. specialize (Hs e He).
  unfold module_matches, module_rules.
  destruct (String.eqb (module_name (entry_module e)) module); simpl; [reflexivity|].
  destruct (String.eqb_spec (_id (entry_module e)) module) as [->|Hne].
  - now rewrite String.eqb_refl.
  - destruct (String.eqb (lower (_id (entry_module e))) (lower module));
      [discriminate Hs|reflexivity].
Qed.

End DirectoryFacts.

(** C7 (amended).  Station resolution: without a device snapshot the
    answer is [None]; the identifier used is the argument, or the stored
    default when the argument is empty or absent; when that is empty or
    absent too, the first station of the snapshot is returned; otherwise
    the first station, in snapshot order, whose name equals the identifier
    or whose id equals it up to case, and [None] when there is none.
    Module resolution: within the station so resolved, for a module
    identifier spelled as the snapshot spells its ids, the first record
    among the station's own record and its modules, in order, that
    matches by name or by id, and [None] when there is none.  No default
    stands in for an empty module identifier: it finds nothing unless a
    record has an empty name or id. *)
Theorem resolution_rules (self : WeatherStation) (station : option string)
  (module : string) :
  (devices self = None -> stationByName self station = None) /\
  (forall l, devices self = Some l ->
     (truthy (effective self station) = false ->
      stationByName self station = head l) /\
     (forall s, effective self station = Some s -> s <> "" ->
        (forall i, stationByName self station = Some i
                   <-> first_match (station_matches s) l i) /\
        (stationByName self station = None
         <-> no_match (station_matches s) l))) /\
  (stationByName self station = None ->
   moduleByName self module station = None) /\
  (forall s, stationByName self station = Some s ->
     spelled_as_stored module s = true ->
     (forall e, moduleByName self module station = Some e
                <-> first_match (fun e => module_rules module (entry_module e))
                      (candidates s) e) /\
     (moduleByName self module station = None
      <-> no_match (fun e => module_rules module (entry_module e))
            (candidates s))) /\
  (forall s, stationByName self station = Some s ->
     Forall (fun e => module_name (entry_module e) <> ""
                      /\ _id (entry_module e) <> "") (candidates s) ->
     moduleByName self "" station = None).
Proof.
  assert (Hfind : forall l s, devices self = Some l ->
            effective self station = Some s -> s <> "" ->
            stationByName self station = List.find (station_matches s) l).
  { intros l s Hl He Hs. unfold stationByName. rewrite Hl.
    fold (effective self station). rewrite He.
    now apply stationByName_loop_find. }
  split; [|split; [|split; [|split]]].
  - intros Hd. unfold stationByName. now rewrite Hd.
  - intros l Hl. split.
    + intros Ht. unfold stationByName. rewrite Hl.
      now apply stationByName_loop_default.
    + intros s He Hs. rewrite (Hfind l s Hl He Hs). split.
      * intros i. apply find_first_match.
      * apply find_no_match.
  - intros Hs. unfold moduleByName. now rewrite Hs.
  - intros s Hs Hsp. rewrite (moduleByName_find _ _ _ _ Hs).
    rewrite (find_ext_in _ (fun e => module_rules module (entry_module e)))
      by (intros e He; now apply (module_rules_matches module s)).
    split.
    + intros e. apply find_first_match.
    + apply find_no_match.
  - intros s Hs Hall. rewrite (moduleByName_find _ _ _ _ Hs).
    apply find_no_match. unfold no_match.
    apply (List.Forall_impl _ (P := fun e => module_name (entry_module e) <> ""
                                  /\ _id (entry_module e) <> "")); [|exact Hall].
    intros e [Hn Hi]. unfold module_matches.
    apply String.eqb_neq in Hn, Hi. now rewrite Hn, Hi.
Qed.

(** The outdoor module is found under its name and under its id. *)
Lemma resolution_rules_witness :
  moduleByName at_home "Outdoor" None = Some (Module outdoor) /\
  moduleByName at_home "02:00:00:00:00:0a" (Some "home") = None /\
  moduleByName at_home "02:00:00:00:00:0a" (Some "Home") = Some (Module outdoor).
Proof.
  split; [|split].
  - destruct (resolution_rules at_home None "Outdoor")
      as (_ & _ & _ & Hm & _).
    destruct (Hm home eq_refl eq_refl) as [Hsome _].
    apply Hsome. exists [Station home], []. repeat split.
    repeat constructor.
  - destruct (resolution_rules at_home (Some "home") "02:00:00:00:00:0a")
      as (_ & Hst & Hnone & _).
    apply Hnone. destruct (Hst [home] eq_refl) as [_ Hs].
    destruct (Hs "home" eq_refl) as [_ Hn]; [discriminate|].
    apply Hn. repeat constructor.
  - destruct (resolution_rules at_home (Some "Home") "02:00:00:00:00:0a")
      as (_ & _ & _ & Hm & _).
    destruct (Hm home eq_refl eq_refl) as [Hsome _].
    apply Hsome. exists [Station home], []. repeat split.
    repeat constructor.
Defined.

(** The rules one level down are not the three rules of the station
    level.  There is no default rule: with a stored default, an empty
    station identifier finds the default station (not the first one),
    an empty module identifier finds nothing.  And the module whose id is
    stored in lower case is found under that id and not under the same id
    in upper case, which is how the station is found. *)
Lemma module_rules_differ :
  (default_station by_default = Some station_id /\
   stationByName by_default (Some "") = Some home /\
   moduleByName by_default "" (Some "") = None) /\
  (stationByName at_home (Some "70:EE:50:00:00:01") = Some home /\
   In outdoor (modules home) /\
   lower (_id outdoor) = lower "02:00:00:00:00:0A" /\
   moduleByName at_home "02:00:00:00:00:0A" None = None /\
   moduleByName at_home "02:00:00:00:00:0a" None = Some (Module outdoor)).
Proof.
  repeat split; try reflexivity. now left.
Qed.

(** ** Credential store and token manager *)

Section TokenFacts.
Context {interpolation : Interpolation} {platform : Platform} {outside : Outside}.

Lemma set_option_ok (c : Config) (section opt v : string) (sec : gmap string string) :
  sections c !! section = Some sec -> accepted v ->
  set_option c section opt (Some v)
  = Ok {| defaults := defaults c;
          sections := <[section := <[opt := v]> sec]> (sections c) |}.
Proof.
  intros Hsec Hv. unfold set_option. rewrite Hsec.
  destruct Hv as [-> | Hv]; [reflexivity|].
  rewrite Hv. now rewrite andb_false_r.
Qed.

Lemma set_option_inv (c c' : Config) (section opt : string) (v : option string) :
  set_option c section opt v = Ok c' ->
  exists sec x, sections c !! section = Some sec /\ v = Some x /\ accepted x /\
    c' = {| defaults := defaults c;
            sections := <[section := <[opt := x]> sec]> (sections c) |}.
Proof.
  unfold set_option. destruct (sections c !! section) as [sec|]; [|discriminate].
  destruct v as [x|]; [|discriminate].
  destruct (negb (String.eqb x "") && negb (before_set x)) eqn:E; [discriminate|].
  intros [= <-]. exists sec, x. repeat split; auto.
  apply andb_false_iff in E as [E|E]; apply negb_false_iff in E.
  - left. now apply String.eqb_eq.
  - now right.
Qed.

Lemma set_section_tokens_inv (c c' : Config) (a : option string) (r iso : string) :
  set_section c "netatmo/tokens"
    [("access_token", a); ("refresh_token", Some r); ("expiration", Some iso)]
  = Ok c' ->
  exists x, a = Some x /\ accepted x /\ accepted r /\ accepted iso /\
    c' = {| defaults := defaults c;
            sections := <["netatmo/tokens" := token_section x r iso]> (sections c) |}.
Proof.
  unfold set_section. simpl.
  destruct (set_option _ _ "access_token" a) as [c1|] eqn:E1; [|discriminate].
  destruct (set_option c1 _ "refresh_token" _) as [c2|] eqn:E2; [|discriminate].
  destruct (set_option c2 _ "expiration" _) as [c3|] eqn:E3; [|discriminate].
  intros [= <-].
  apply set_option_inv in E1 as (s1 & x & Hs1 & -> & Hx & ->).
  apply set_option_inv in E2 as (s2 & x2 & Hs2 & [= <-] & Hr & ->).
  apply set_option_inv in E3 as (s3 & x3 & Hs3 & [= <-] & Hi & ->).
  simpl in *. rewrite lookup_insert_eq in Hs1, Hs2, Hs3.
  injection Hs1 as <-. injection Hs2 as <-. injection Hs3 as <-.
  exists x. repeat split; auto.
  unfold token_section. f_equal. now rewrite !insert_insert_eq.
Qed.

Lemma set_section_tokens_ok (c : Config) (a r iso : string) :
  accepted a -> accepted r -> accepted iso ->
  set_section c "netatmo/tokens"
    [("access_token", Some a); ("refresh_token", Some r); ("expiration", Some iso)]
  = Ok {| defaults := defaults c;
          sections := <["netatmo/tokens" := token_section a r iso]> (sections c) |}.
Proof.
  intros Ha Hr Hi. unfold set_section. simpl.
  rewrite (set_option_ok _ _ _ _ ∅) by (auto; simpl; apply lookup_insert_eq).
  rewrite (set_option_ok _ _ _ _ (<["access_token" := a]> ∅))
    by (auto; simpl; apply lookup_insert_eq).
  rewrite (set_option_ok _ _ _ _ (<["refresh_token" := r]> (<["access_token" := a]> ∅)))
    by (auto; simpl; apply lookup_insert_eq).
  simpl. unfold token_section. do 2 f_equal. now rewrite !insert_insert_eq.
Qed.

Lemma saveTokens_inv (self : WeatherStation) (w w' : World) :
  saveTokens self w = Ok w' ->
  match rc_file self with
  | None => w' = w
  | Some f =>
      exists a r e iso,
        _access_token self = Some a /\ _refresh_token self = Some r /\
        _expiration self = Some e /\ isoformat (trunc e) = Some iso /\
        w' = write_rc w (expanduser f)
               (with_tokens (read_rc w (expanduser f)) a r iso)
  end.
Proof.
  unfold saveTokens. destruct (rc_file self) as [f|]; [|now intros [= <-]].
  destruct (_refresh_token self) as [r|]; [|discriminate].
  destruct (_expiration self) as [e|]; [|discriminate].
  destruct (isoformat (trunc e)) as [iso|] eqn:Hi; [|discriminate].
  destruct (set_section _ _ _) as [c'|] eqn:E; [|discriminate].
  intros [= <-].
  apply set_section_tokens_inv in E as (x & Hx & _ & _ & _ & ->).
  exists x, r, e, iso. repeat split; auto.
Qed.

Lemma saveTokens_ok (self : WeatherStation) (w : World) (f a r iso : string) (e : Q) :
  rc_file self = Some f ->
  _access_token self = Some a -> _refresh_token self = Some r ->
  _expiration self = Some e -> isoformat (trunc e) = Some iso ->
  accepted a -> accepted r -> accepted iso ->
  saveTokens self w
  = Ok (write_rc w (expanduser f) (with_tokens (read_rc w (expanduser f)) a r iso)).
Proof.
  intros Hf Ha Hr He Hi Aa Ar Ai. unfold saveTokens.
  rewrite Hf, Hr, He, Hi, Ha. now rewrite set_section_tokens_ok.
Qed.


Lemma set_section_tokens_with (c : Config) (a r iso : string) :
  {| defaults := defaults c;
     sections := <["netatmo/tokens" := token_section a r iso]> (sections c) |}
  = with_tokens c a r iso.
Proof. reflexivity. Qed.

(** What [accept_grant] did when a token came back. *)
Lemma accept_grant_token (self self' : WeatherStation) (w w' : World)
  (resp : Reply) (t : string) :
  accept_grant self w resp = (Ok (TokenStr t), self', w') ->
  exists r e,
    resp = ReplyTokens t r e /\
    self' = granted self t r (e + time_time (clock w))%Q /\
    saveTokens self' (tick w) = Ok w'.
Proof.
  unfold accept_grant.
  destruct resp as [|err|a r e|st body|a' [r'|]]; try discriminate.
  destruct (saveTokens _ _) as [w2|] eqn:E; [|discriminate].
  intros [= <- <- <-]. exists r, e. repeat split; auto.
Qed.

(** [accept_grant] leaves the requests alone, and the rc files too unless
    it saved tokens. *)
Lemma accept_grant_sent (self self' : WeatherStation) (w w' : World)
  (resp : Reply) (res : result Token) :
  accept_grant self w resp = (res, self', w') -> sent w' = sent w.
Proof.
  unfold accept_grant. destruct resp as [|err|a r e|st body|a' [r'|]].
  - now intros [= _ _ <-].
  - now intros [= _ _ <-].
  - destruct (saveTokens _ _) as [w2|] eqn:E.
    + intros [= _ _ <-]. apply saveTokens_inv in E. simpl in E.
      destruct (rc_file self); [|now subst].
      destruct E as (? & ? & ? & ? & _ & _ & _ & _ & ->). reflexivity.
    + now intros [= _ _ <-].
  - now intros [= _ _ <-].
  - now intros [= _ _ <-].
  - now intros [= _ _ <-].
Qed.

(** The shape of every [accessToken] read that yields a token: either the
    held token was still valid and nothing but the clock was touched, or
    exactly one grant request was posted, its reply accepted and saved. *)
Lemma accessToken_token (self self' : WeatherStation) (w w' : World) (t : string) :
  accessToken self w = (Ok (TokenStr t), self', w') ->
  (self' = self /\ w' = tick w /\ _access_token self = Some t /\
   exists e, _expiration self = Some e /\
             Qle_bool e (time_time (clock w)) = false)
  \/
  (exists req r e w1,
     grant_request self = Some req /\
     sent w1 = sent w ++ [req] /\ rc_files w1 = rc_files w /\
     self' = granted self t r e /\
     saveTokens self' w1 = Ok w').
Proof.
  unfold accessToken, grant_request.
  destruct (_client_id self) as [cid|]; [|discriminate].
  destruct (_client_secret self) as [cs|]; [|discriminate].
  destruct (_access_token self) as [tok|].
  - destruct (_expiration self) as [e|]; [|discriminate].
    destruct (Qle_bool e (time_time (clock w))) eqn:Hq.
    + destruct (_refresh_token self) as [rt|]; [|discriminate].
      unfold _postRequest. intros E.
      apply accept_grant_token in E as (r & e' & _ & -> & Hs).
      right.
      exists (RefreshGrant rt cid cs), r, (e' + time_time (clock (tick w)))%Q,
        (tick (record_request (tick w) (RefreshGrant rt cid cs))).
      repeat split; auto.
    + intros [= <- <- <-]. left. repeat split; auto. now exists e.
  - destruct (_username self) as [u|]; [|discriminate].
    destruct (_password self) as [p|]; [|discriminate].
    unfold _postRequest. intros E.
    apply accept_grant_token in E as (r & e' & _ & -> & Hs).
    right.
    exists (PasswordGrant cid cs u p), r, (e' + time_time (clock w))%Q,
      (tick (record_request w (PasswordGrant cid cs u p))).
    repeat split; auto.
Qed.

(** Every read posts at most one request, and it is the grant request of
    the client. *)
Lemma accessToken_requests (self self' : WeatherStation) (w w' : World)
  (res : result Token) :
  accessToken self w = (res, self', w') ->
  sent w' = sent w \/
  exists req, grant_request self = Some req /\ sent w' = sent w ++ [req].
Proof.
  unfold accessToken, grant_request.
  destruct (_client_id self) as [cid|]; [|intros [= _ _ <-]; now left].
  destruct (_client_secret self) as [cs|]; [|intros [= _ _ <-]; now left].
  destruct (_access_token self) as [tok|].
  - destruct (_expiration self) as [e|]; [|intros [= _ _ <-]; now left].
    destruct (Qle_bool e (time_time (clock w))).
    + destruct (_refresh_token self) as [rt|]; [|intros [= _ _ <-]; now left].
      unfold _postRequest. intros E. apply accept_grant_sent in E.
      right. eexists. split; [reflexivity|]. now rewrite E.
    + intros [= _ _ <-]. now left.
  - destruct (_username self) as [u|]; [|intros [= _ _ <-]; now left].
    destruct (_password self) as [p|]; [|intros [= _ _ <-]; now left].
    unfold _postRequest. intros E. apply accept_grant_sent in E.
    right. eexists. split; [reflexivity|]. now rewrite E.
Qed.


(** A read that yields a token leaves a client that holds it. *)
Lemma accessToken_token_state (self self' : WeatherStation) (w w' : World) (t : string) :
  accessToken self w = (Ok (TokenStr t), self', w') ->
  is_Some (_client_id self') /\ is_Some (_client_secret self') /\
  _access_token self' = Some t.
Proof.
  intros E.
  assert (Hc : is_Some (_client_id self) /\ is_Some (_client_secret self)).
  { unfold accessToken in E.
    destruct (_client_id self); [|discriminate].
    destruct (_client_secret self); [|discriminate]. split; eauto. }
  apply accessToken_token in E as [(-> & _ & Ht & _)|(req & r & e & w1 & _ & _ & _ & -> & _)].
  - tauto.
  - simpl. tauto.
Qed.

(** C3.  When a read of [accessToken] has just yielded a token and the
    expiration the client holds is still ahead of the clock, the next read
    yields the same token, leaves the client as it is, posts no request
    and writes no file. *)
Theorem second_access_reuses_token (self self1 : WeatherStation) (w w1 : World)
  (t : string) (e : Q) :
  accessToken self w = (Ok (TokenStr t), self1, w1) ->
  _expiration self1 = Some e ->
  Qle_bool e (time_time (clock w1)) = false ->
  accessToken self1 w1 = (Ok (TokenStr t), self1, tick w1) /\
  sent (tick w1) = sent w1 /\ rc_files (tick w1) = rc_files w1.
Proof.
  intros E He Hq.
  apply accessToken_token_state in E as ([cid Hc] & [cs Hs] & Ht).
  unfold accessToken. rewrite Hc, Hs, Ht, He, Hq. auto.
Qed.

(** [loadTokens] does not touch the credentials. *)
Lemma loadTokens_credentials (self : WeatherStation) (w : World) :
  _client_id (loadTokens self w) = _client_id self /\
  _client_secret (loadTokens self w) = _client_secret self /\
  _username (loadTokens self w) = _username self /\
  _password (loadTokens self w) = _password self /\
  rc_file (loadTokens self w) = rc_file self.
Proof.
  unfold loadTokens. destruct (rc_file self) eqn:Hf; [|now rewrite Hf].
  repeat match goal with
         | |- context [match ?x with _ => _ end] => destruct x
         end; simpl; auto.
Qed.

(** [loadCredentials] loads all four credentials or none; with them the
    file has the credentials section. *)
Lemma loadCredentials_all_or_none (self : WeatherStation) (w : World) (f : string) :
  rc_file self = Some f ->
  rc_file (loadCredentials self w) = Some f /\
  ((_client_id (loadCredentials self w) = None /\
    _access_token (loadCredentials self w) = None)
   \/
   (is_Some (_username (loadCredentials self w)) /\
    is_Some (_password (loadCredentials self w)) /\
    is_Some (sections (read_rc w (expanduser f)) !! "netatmo"))).
Proof.
  intros Hf. unfold loadCredentials. rewrite Hf.
  destruct (get _ "netatmo" "client_id") as [a|] eqn:Ea; [|simpl; auto].
  destruct (get _ "netatmo" "client_secret") as [b|]; [|simpl; auto].
  destruct (get _ "netatmo" "username") as [c|]; [|simpl; auto].
  destruct (get _ "netatmo" "password") as [d|]; [|simpl; auto].
  assert (Hs : is_Some (sections (read_rc w (expanduser f)) !! "netatmo")).
  { unfold get in Ea. destruct (sections _ !! "netatmo"); [eauto|discriminate]. }
  destruct (has_option _ _ _); [|simpl; eauto 6].
  destruct (get _ "netatmo" "default_station"); simpl; eauto 6.
Qed.

(** A client the constructor built holds a username and a password, or
    holds no client id, or holds no token. *)
Lemma init_credentials (c : configuration) (w : World) (self : WeatherStation) :
  __init__ c w = Ok self ->
  (is_Some (_username self) /\ is_Some (_password self))
  \/ _client_id self = None \/ _access_token self = None.
Proof.
  assert (Hfile : forall s self0, self0 = set_rc_file blank (Some s) ->
            let self := load self0 w in
            (is_Some (_username self) /\ is_Some (_password self))
            \/ _client_id self = None \/ _access_token self = None).
  { intros s self0 ->. unfold load. simpl.
    destruct (negb (String.eqb s "")); [|simpl; auto].
    destruct (loadTokens_credentials (loadCredentials (set_rc_file blank (Some s)) w) w)
      as (E1 & _ & E3 & E4 & _).
    rewrite E1, E3, E4.
    destruct (loadCredentials_all_or_none (set_rc_file blank (Some s)) w s eq_refl)
      as (_ & [(Hn & _)|(Hu & Hp & _)]); auto. }
  destruct c as [d|s| |]; simpl.
  - destruct (d !! "client_id"); [|discriminate].
    destruct (d !! "client_secret"); [|discriminate].
    destruct (d !! "username"); [|discriminate].
    destruct (d !! "password"); [|discriminate].
    intros [= <-]. unfold load. simpl. auto.
  - intros [= <-]. now apply (Hfile s).
  - intros [= <-]. now apply (Hfile DEFAULT_RC_FILE).
  - intros [= <-]. unfold load. simpl. auto.
Qed.

(** C4 (amended).  With no client id or no client secret, a read of
    [accessToken] yields [None] and touches nothing: no request, no clock
    reading, no output.  The same holds with no username or no password
    (Python's [None]) while the client holds no access token, which is
    the case for every client the constructor built.  A string, empty or
    not, counts as present: a client that holds four strings and no
    access token posts the password grant with them. *)
Theorem missing_credentials (self : WeatherStation) (w : World) :
  (_client_id self = None \/ _client_secret self = None ->
   accessToken self w = (Ok TokenNone, self, w)) /\
  (_username self = None \/ _password self = None ->
   _access_token self = None ->
   accessToken self w = (Ok TokenNone, self, w)) /\
  (forall c w0, __init__ c w0 = Ok self ->
   _client_id self = None \/ _client_secret self = None \/
   _username self = None \/ _password self = None ->
   accessToken self w = (Ok TokenNone, self, w)) /\
  (forall cid cs u p res self' w',
     _client_id self = Some cid -> _client_secret self = Some cs ->
     _username self = Some u -> _password self = Some p ->
     _access_token self = None ->
     accessToken self w = (res, self', w') ->
     sent w' = sent w ++ [PasswordGrant cid cs u p]).
Proof.
  assert (Hid : _client_id self = None \/ _client_secret self = None ->
               accessToken self w = (Ok TokenNone, self, w)).
  { unfold accessToken. intros [-> | ->]; [reflexivity|].
    destruct (_client_id self); reflexivity. }
  assert (Huser : _username self = None \/ _password self = None ->
               _access_token self = None ->
               accessToken self w = (Ok TokenNone, self, w)).
  { unfold accessToken. intros Hu ->.
    destruct (_client_id self); [|reflexivity].
    destruct (_client_secret self); [|reflexivity].
    destruct Hu as [-> | ->]; [reflexivity|].
    destruct (_username self); reflexivity. }
  split; [exact Hid|]. split; [exact Huser|]. split.
  - intros c w0 Hi Hm.
    destruct Hm as [Hm|[Hm|Hm]]; auto.
    destruct (init_credentials _ _ _ Hi) as [(Hu & Hp)|[Hn|Hn]]; auto.
    destruct Hu as [u Hu], Hp as [p Hp]. destruct Hm; congruence.
  - intros cid cs u p res self' w' Hc Hs Hu Hp Ht.
    unfold accessToken. rewrite Hc, Hs, Ht, Hu, Hp. unfold _postRequest.
    intros E. apply accept_grant_sent in E. now rewrite E.
Qed.

(** C5 (amended).  When the held token has expired and the refresh grant
    is answered with an error, the read prints the error and yields
    [None]; the client is left exactly as it was, still holding the
    expired token and its refresh token, so the next read, while the token
    is expired, posts the same refresh grant again. *)
Theorem refresh_error_keeps_state (self : WeatherStation) (w : World)
  (cid cs tok rt err : string) (exp : Q) :
  _client_id self = Some cid -> _client_secret self = Some cs ->
  _access_token self = Some tok -> _refresh_token self = Some rt ->
  _expiration self = Some exp ->
  Qle_bool exp (time_time (clock w)) = true ->
  http_post (length (sent w)) (RefreshGrant rt cid cs) = ReplyError err ->
  accessToken self w
  = (Ok TokenNone, self,
     print (record_request (tick w) (RefreshGrant rt cid cs)) (PrintError err)) /\
  (forall w2, Qle_bool exp (time_time (clock w2)) = true ->
     forall res self' w', accessToken self w2 = (res, self', w') ->
       sent w' = sent w2 ++ [RefreshGrant rt cid cs]).
Proof.
  intros Hc Hs Ht Hr He Hq Hp. split.
  - unfold accessToken. rewrite Hc, Hs, Ht, He, Hq, Hr.
    unfold _postRequest. simpl. now rewrite Hp.
  - intros w2 Hq2 res self' w' E.
    unfold accessToken in E. rewrite Hc, Hs, Ht, He, Hq2, Hr in E.
    unfold _postRequest in E. apply accept_grant_sent in E. now rewrite E.
Qed.

(** A read that posted a request and yielded a token: the reply to the
    grant request was a complete token object, the client holds its
    members, and they were saved. *)
Lemma accessToken_grant (self self' : WeatherStation) (w w' : World) (t : string) :
  accessToken self w = (Ok (TokenStr t), self', w') ->
  sent w' <> sent w ->
  exists req r expires_in w1,
    grant_request self = Some req /\
    http_post (length (sent w)) req = ReplyTokens t r expires_in /\
    rc_files w1 = rc_files w /\
    self' = granted self t r (expires_in + time_time (grant_clock self w))%Q /\
    saveTokens self' w1 = Ok w'.
Proof.
  unfold accessToken, grant_request, grant_clock.
  destruct (_client_id self) as [cid|]; [|discriminate].
  destruct (_client_secret self) as [cs|]; [|discriminate].
  destruct (_access_token self) as [tok|].
  - destruct (_expiration self) as [e|]; [|discriminate].
    destruct (Qle_bool e (time_time (clock w))) eqn:Hq.
    + destruct (_refresh_token self) as [rt|]; [|discriminate].
      unfold _postRequest. intros E _.
      apply accept_grant_token in E as (r & e' & Hr & -> & Hs).
      exists (RefreshGrant rt cid cs), r, e',
        (tick (record_request (tick w) (RefreshGrant rt cid cs))).
      repeat split; auto.
    + intros [= _ _ <-] Hsent. now destruct Hsent.
  - destruct (_username self) as [u|]; [|discriminate].
    destruct (_password self) as [p|]; [|discriminate].
    unfold _postRequest. intros E _.
    apply accept_grant_token in E as (r & e' & Hr & -> & Hs).
    exists (PasswordGrant cid cs u p), r, e',
      (tick (record_request w (PasswordGrant cid cs u p))).
    repeat split; auto.
Qed.

(** C8 (amended).  A read of [accessToken] posts no request or exactly
    one, the grant request of the client (a password grant when it holds
    no token, a refresh grant when its token has expired).  When the read
    posted a request and yielded a token, the reply to that request was a
    token object whose access token is the token yielded, and the client
    holds the members of that reply: its access token, its refresh token,
    and as expiration its [expires_in] added to the clock reading taken
    after the reply.  When the client has an rc file, the token section of
    that file holds the same access token and refresh token and the ISO
    text of that expiration, cut to whole seconds, when the read returns.
    A client without an rc file leaves the rc files as they are. *)
Theorem grant_persisted (self self' : WeatherStation) (w w' : World)
  (res : result Token) :
  accessToken self w = (res, self', w') ->
  (sent w' = sent w \/
   exists req, grant_request self = Some req /\ sent w' = sent w ++ [req]) /\
  (forall t, res = Ok (TokenStr t) -> sent w' <> sent w ->
     exists req r expires_in,
       grant_request self = Some req /\
       http_post (length (sent w)) req = ReplyTokens t r expires_in /\
       (let e := (expires_in + time_time (grant_clock self w))%Q in
        _access_token self' = Some t /\
        _refresh_token self' = Some r /\
        _expiration self' = Some e /\
        match rc_file self with
        | None => rc_files w' = rc_files w
        | Some f =>
            exists iso cfg,
              isoformat (trunc e) = Some iso /\
              rc_files w' !! expanduser f = Some cfg /\
              sections cfg !! "netatmo/tokens" = Some (token_section t r iso)
        end)).
Proof.
  intros E. split; [exact (accessToken_requests _ _ _ _ _ E)|].
  intros t -> Hsent.
  apply accessToken_grant in E
    as (req & r & ex & w1 & Hreq & Hreply & Hrc & -> & Hsave); [|assumption].
  exists req, r, ex. split; [assumption|]. split; [assumption|].
  cbv zeta. do 3 (split; [reflexivity|]).
  apply saveTokens_inv in Hsave. simpl in Hsave.
  destruct (rc_file self) as [f|].
  - destruct Hsave as (a & r' & e' & iso & [= <-] & [= <-] & [= <-] & Hi & ->).
    exists iso, (with_tokens (read_rc w1 (expanduser f)) t r iso).
    repeat split; auto; simpl; apply lookup_insert_eq.
  - subst w'. exact Hrc.
Qed.

(** What a read can do to the rc files: nothing, or put the token section
    into the client's own file. *)
Lemma accept_grant_files (self self' : WeatherStation) (w w' : World)
  (resp : Reply) (res : result Token) :
  accept_grant self w resp = (res, self', w') ->
  rc_file self' = rc_file self /\ _client_id self' = _client_id self /\
  (rc_files w' = rc_files w \/
   exists f a r iso,
     rc_file self = Some f /\
     rc_files w'
     = <[expanduser f := with_tokens (read_rc w (expanduser f)) a r iso]> (rc_files w)).
Proof.
  unfold accept_grant. destruct resp as [|err|a r e|st body|a' [r'|]];
    try (intros [= _ <- <-]; simpl; auto).
  destruct (saveTokens _ _) as [w2|] eqn:E.
  - intros [= _ <- <-]. simpl. do 2 (split; [reflexivity|]).
    apply saveTokens_inv in E. simpl in E.
    destruct (rc_file self) as [f|]; [|subst; now left].
    destruct E as (a' & r' & e' & iso & _ & _ & _ & _ & ->).
    right. exists f, a', r', iso. split; reflexivity.
  - intros [= _ <- <-]. simpl. auto.
Qed.

Lemma accessToken_files (self self' : WeatherStation) (w w' : World)
  (res : result Token) :
  accessToken self w = (res, self', w') ->
  rc_file self' = rc_file self /\ _client_id self' = _client_id self /\
  (rc_files w' = rc_files w \/
   exists f a r iso,
     rc_file self = Some f /\ is_Some (_client_id self) /\
     rc_files w'
     = <[expanduser f := with_tokens (read_rc w (expanduser f)) a r iso]> (rc_files w)).
Proof.
  unfold accessToken.
  destruct (_client_id self) as [cid|] eqn:Hc; [|intros [= _ <- <-]; auto].
  assert (Hgrant : forall w1 resp, rc_files w1 = rc_files w ->
            accept_grant self w1 resp = (res, self', w') ->
            rc_file self' = rc_file self /\ _client_id self' = Some cid /\
            (rc_files w' = rc_files w \/
             exists f a r iso,
               rc_file self = Some f /\ is_Some (Some cid) /\
               rc_files w'
               = <[expanduser f := with_tokens (read_rc w (expanduser f)) a r iso]>
                   (rc_files w))).
  { intros w1 resp Hw1 E. apply accept_grant_files in E as (E1 & E2 & E3).
    rewrite Hc in E2. do 2 (split; [assumption|]).
    destruct E3 as [E3|(f & a & r & iso & Hf & E3)]; [left; congruence|].
    right. exists f, a, r, iso. split; [assumption|]. split; [eauto|].
    rewrite E3. unfold read_rc. now rewrite Hw1. }
  destruct (_client_secret self) as [cs|]; [|intros [= _ <- <-]; auto].
  destruct (_access_token self) as [tok|].
  - destruct (_expiration self) as [e|]; [|intros [= _ <- <-]; auto].
    destruct (Qle_bool e (time_time (clock w))).
    + destruct (_refresh_token self) as [rt|]; [|intros [= _ <- <-]; auto].
      unfold _postRequest. now apply Hgrant.
    + intros [= _ <- <-]. auto.
  - destruct (_username self) as [u|]; [|intros [= _ <- <-]; auto].
    destruct (_password self) as [p|]; [|intros [= _ <- <-]; auto].
    unfold _postRequest. now apply Hgrant.
Qed.

Lemma init_backed (c : configuration) (w : World) (self : WeatherStation) :
  __init__ c w = Ok self -> backed self w.
Proof.
  assert (Hfile : forall s, backed (load (set_rc_file blank (Some s)) w) w).
  { intros s f. unfold load. simpl.
    destruct (negb (String.eqb s "")); [|simpl; intros _ [x Hx]; discriminate].
    destruct (loadTokens_credentials (loadCredentials (set_rc_file blank (Some s)) w) w)
      as (E1 & _ & _ & _ & E5).
    rewrite E1, E5.
    destruct (loadCredentials_all_or_none (set_rc_file blank (Some s)) w s eq_refl)
      as (Hf & [(Hn & _)|(_ & _ & Hsec)]).
    - rewrite Hn. intros _ [x Hx]; discriminate.
    - rewrite Hf. now intros [= <-] _. }
  destruct c as [d|s| |]; simpl.
  - destruct (d !! "client_id"); [|discriminate].
    destruct (d !! "client_secret"); [|discriminate].
    destruct (d !! "username"); [|discriminate].
    destruct (d !! "password"); [|discriminate].
    intros [= <-] f. unfold load. simpl. discriminate.
  - intros [= <-]. apply Hfile.
  - intros [= <-]. apply Hfile.
  - intros [= <-] f. unfold load. simpl. discriminate.
Qed.

Lemma with_tokens_credentials (c : Config) (a r iso : string) :
  sections (with_tokens c a r iso) !! "netatmo" = sections c !! "netatmo".
Proof. simpl. now rewrite lookup_insert_ne. Qed.

Lemma with_tokens_tokens (c : Config) (a r iso : string) :
  sections (with_tokens c a r iso) !! "netatmo/tokens" = Some (token_section a r iso).
Proof. simpl. apply lookup_insert_eq. Qed.

(** C9 (amended).  [saveTokens] writes the token section into the file and
    leaves the credentials section as it found it, present or absent.  A
    client the constructor built holds credentials only if its rc file has
    the credentials section, and reads of [accessToken] keep it so; hence
    every file such a client writes has the credentials section next to
    the token section. *)
Theorem tokens_beside_credentials :
  (forall self w w' f,
     rc_file self = Some f -> saveTokens self w = Ok w' ->
     exists cfg,
       rc_files w' !! expanduser f = Some cfg /\
       is_Some (sections cfg !! "netatmo/tokens") /\
       sections cfg !! "netatmo"
       = sections (read_rc w (expanduser f)) !! "netatmo") /\
  (forall c w self, __init__ c w = Ok self -> backed self w) /\
  (forall self w res self' w',
     backed self w -> accessToken self w = (res, self', w') ->
     backed self' w' /\
     forall f, rc_file self = Some f ->
       rc_files w' !! expanduser f <> rc_files w !! expanduser f ->
       exists cfg,
         rc_files w' !! expanduser f = Some cfg /\
         is_Some (sections cfg !! "netatmo/tokens") /\
         is_Some (sections cfg !! "netatmo")).
Proof.
  split; [|split].
  - intros self w w' f Hf E. apply saveTokens_inv in E. rewrite Hf in E.
    destruct E as (a & r & e & iso & _ & _ & _ & _ & ->).
    exists (with_tokens (read_rc w (expanduser f)) a r iso).
    split; [simpl; apply lookup_insert_eq|].
    split; [rewrite with_tokens_tokens; eauto|apply with_tokens_credentials].
  - apply init_backed.
  - intros self w res self' w' Hb E.
    apply accessToken_files in E
      as (Hrc & Hcid & [Hsame|(f0 & a & r & iso & Hf0 & Hid & Hw)]).
    + split.
      * intros f Hf Hc. rewrite Hrc in Hf. rewrite Hcid in Hc.
        unfold read_rc. rewrite Hsame. now apply Hb.
      * intros f _ Hne. now rewrite Hsame in Hne.
    + pose proof (Hb f0 Hf0 Hid) as Hsec.
      assert (Hnew : rc_files w' !! expanduser f0
                     = Some (with_tokens (read_rc w (expanduser f0)) a r iso)).
      { rewrite Hw. apply lookup_insert_eq. }
      split.
      * intros f Hf _. rewrite Hrc, Hf0 in Hf. injection Hf as <-.
        unfold read_rc at 1. rewrite Hnew. now rewrite with_tokens_credentials.
      * intros f Hf _. rewrite Hf0 in Hf. injection Hf as <-.
        eexists. split; [exact Hnew|].
        rewrite with_tokens_tokens, with_tokens_credentials. eauto.
Qed.


Lemma set_options_ok (c : Config) (section : string) (kvs : list (string * string))
  (sec : gmap string string) :
  sections c !! section = Some sec ->
  Forall (fun kv => accepted (snd kv)) kvs ->
  set_options c section (map (fun kv => (fst kv, Some (snd kv))) kvs)
  = Ok {| defaults := defaults c;
          sections :=
            <[section := fold_left (fun m kv => <[fst kv := snd kv]> m) kvs sec]>
              (sections c) |}.
Proof.
  intros Hsec Hall. revert c sec Hsec.
  induction Hall as [|[k v] kvs Hv Hall IH]; intros c sec Hsec; simpl.
  - destruct c as [d s]. simpl in *. now rewrite insert_id.
  - simpl in Hv. rewrite (set_option_ok _ _ _ _ sec) by assumption.
    rewrite (IH _ (<[k := v]> sec)) by (simpl; apply lookup_insert_eq).
    simpl. now rewrite insert_insert_eq.
Qed.

(** C10 (amended).  For a client with an rc file whose credentials
    [configparser] takes, [saveCredentials] writes a file that has no
    token section, whose credentials section holds the four credentials
    (as [str] prints them) and the default station if there is one, and
    whose other sections are those of the file before; this does not
    depend on whether the credentials changed. *)
Theorem saveCredentials_discards_tokens (self : WeatherStation) (w : World)
  (f : string) :
  rc_file self = Some f ->
  accepted (str (_client_id self)) -> accepted (str (_client_secret self)) ->
  accepted (str (_username self)) -> accepted (str (_password self)) ->
  (forall d, default_station self = Some d -> accepted d) ->
  exists cfg sec,
    saveCredentials self w = Ok (write_rc w (expanduser f) cfg) /\
    sections cfg !! "netatmo/tokens" = None /\
    sections cfg !! "netatmo" = Some sec /\
    sec !! "client_id" = Some (str (_client_id self)) /\
    sec !! "client_secret" = Some (str (_client_secret self)) /\
    sec !! "username" = Some (str (_username self)) /\
    sec !! "password" = Some (str (_password self)) /\
    sec !! "default_station" = default_station self /\
    (forall s, s <> "netatmo" -> s <> "netatmo/tokens" ->
       sections cfg !! s = sections (read_rc w (expanduser f)) !! s).
Proof.
  intros Hf A1 A2 A3 A4 A5. unfold saveCredentials. rewrite Hf.
  set (c0 := read_rc w (expanduser f)).
  set (c1 := if has_section c0 "netatmo" then c0 else add_section c0 "netatmo").
  assert (Hc1 : exists sec0, sections c1 !! "netatmo" = Some sec0 /\
                  forall s, s <> "netatmo" -> sections c1 !! s = sections c0 !! s).
  { unfold c1, has_section. destruct (sections c0 !! "netatmo") as [sec0|] eqn:E.
    - rewrite bool_decide_eq_true_2 by eauto. exists sec0. auto.
    - rewrite bool_decide_eq_false_2 by (intros [x Hx]; discriminate).
      exists ∅. simpl. split; [apply lookup_insert_eq|].
      intros s Hs. now apply lookup_insert_ne. }
  destruct Hc1 as (sec0 & Hsec0 & Hother).
  change [("client_id", Some (str (_client_id self)));
          ("client_secret", Some (str (_client_secret self)));
          ("username", Some (str (_username self)));
          ("password", Some (str (_password self)))]
    with (map (fun kv : string * string => (fst kv, Some (snd kv)))
            [("client_id", str (_client_id self));
             ("client_secret", str (_client_secret self));
             ("username", str (_username self));
             ("password", str (_password self))]).
  rewrite (set_options_ok _ _ _ sec0) by (auto; repeat constructor; assumption).
  simpl fold_left.
  set (sec4 := <["password" := _]> _).
  assert (Hmaps : forall (sec5 : gmap string string) (S0 S1 : gmap string (gmap string string)) s,
            s <> "netatmo" -> s <> "netatmo/tokens" ->
            delete "netatmo/tokens" (<["netatmo" := sec5]> (<["netatmo" := sec4]> (sections c1))) !! s
            = sections c0 !! s).
  { intros sec5 _ _ s Hs Hs'.
    rewrite lookup_delete_ne, !lookup_insert_ne by congruence. now apply Hother. }
  destruct (default_station self) as [d|] eqn:Hd.
  - rewrite (set_option_ok _ _ _ _ sec4);
      [|simpl; apply lookup_insert_eq|now apply A5].
    simpl. eexists _, (<["default_station" := d]> sec4). split; [reflexivity|].
    cbn [sections remove_section].
    split; [apply lookup_delete_eq|].
    split; [rewrite lookup_delete_ne by discriminate; apply lookup_insert_eq|].
    unfold sec4.
    repeat split; try (now simplify_map_eq).
    intros s Hs Hs'. now apply (Hmaps _ ∅ ∅).
  - unfold remove_option. simpl. rewrite lookup_insert_eq.
    simpl. eexists _, (delete "default_station" sec4). split; [reflexivity|].
    cbn [sections remove_section].
    split; [apply lookup_delete_eq|].
    split; [rewrite lookup_delete_ne by discriminate; apply lookup_insert_eq|].
    unfold sec4.
    repeat split; try (now simplify_map_eq).
    intros s Hs Hs'. now apply (Hmaps _ ∅ ∅).
Qed.

End TokenFacts.

(** *** The token manager on concrete worlds *)

Section TokenExamples.
#[local] Existing Instance percent_free.
#[local] Existing Instance utc.

Lemma second_access_reuses_token_witness :
  let first := accessToken (outside := granting) fresh nothing in
  accessToken (outside := granting) (snd (fst first)) (snd first)
  = (Ok (TokenStr "tok1"), snd (fst first), tick (snd first)) /\
  sent (tick (snd first)) = sent (snd first) /\
  rc_files (tick (snd first)) = rc_files (snd first).
Proof.
  apply (second_access_reuses_token (outside := granting) fresh _ nothing _
           "tok1" (inject_Z 1478010800));
    vm_compute; reflexivity.
Defined.

(** An empty string is a username like any other: the password grant is
    posted, and the token the server grants is returned. *)
Lemma empty_username_posts_request :
  exists self' w',
    accessToken (outside := granting) empty_user nothing
    = (Ok (TokenStr "tok1"), self', w') /\
    sent w' = [PasswordGrant "id" "secret" "" ""].
Proof.
  eexists _, _. split; vm_compute; reflexivity.
Qed.

Lemma refresh_error_keeps_state_witness :
  accessToken (outside := refusing) expired nothing
  = (Ok TokenNone, expired,
     print (record_request (tick nothing) (RefreshGrant "refresh" "id" "secret"))
       (PrintError "invalid_grant")) /\
  (forall w2, Qle_bool (inject_Z 1400000000) (time_time (Outside := refusing) (clock w2)) = true ->
     forall res self' w', accessToken (outside := refusing) expired w2 = (res, self', w') ->
       sent w' = sent w2 ++ [RefreshGrant "refresh" "id" "secret"]).
Proof.
  apply (refresh_error_keeps_state (outside := refusing) expired nothing
           "id" "secret" "access" "refresh" "invalid_grant" (inject_Z 1400000000));
    reflexivity.
Defined.

(** After the refresh grant was turned down, the next read posts a refresh
    grant again, not a password grant. *)
Lemma refresh_error_then_refresh_again :
  let first := accessToken (outside := refusing) expired nothing in
  let second := accessToken (outside := refusing) (snd (fst first)) (snd first) in
  fst (fst first) = Ok TokenNone /\
  snd (fst first) = expired /\
  sent (snd second)
  = [RefreshGrant "refresh" "id" "secret"; RefreshGrant "refresh" "id" "secret"] /\
  fst (fst second) = Ok (TokenStr "tok2").
Proof.
  vm_compute. repeat split; reflexivity.
Qed.

Lemma grant_persisted_witness :
  let first := accessToken (outside := granting) fresh nothing in
  sent (snd first) = [PasswordGrant "id" "secret" "user@example.org" "password"] /\
  exists req r expires_in,
    grant_request fresh = Some req /\
    http_post (Outside := granting) (length (sent nothing)) req
    = ReplyTokens "tok1" r expires_in /\
    (let e := (expires_in + time_time (Outside := granting) (grant_clock fresh nothing))%Q in
     _access_token (snd (fst first)) = Some "tok1" /\
     _refresh_token (snd (fst first)) = Some r /\
     _expiration (snd (fst first)) = Some e /\
     exists iso cfg,
       isoformat (trunc e) = Some iso /\
       rc_files (snd first) !! expanduser rc_path = Some cfg /\
       sections cfg !! "netatmo/tokens" = Some (token_section "tok1" r iso)).
Proof.
  intros first.
  destruct (grant_persisted (outside := granting) fresh (snd (fst first)) nothing
              (snd first) (fst (fst first))) as [_ Hp].
  { vm_compute. reflexivity. }
  split; [vm_compute; reflexivity|].
  apply (Hp "tok1").
  - vm_compute. reflexivity.
  - vm_compute. discriminate.
Defined.

(** A client built from a dict has no rc file: the grant succeeds and
    nothing is persisted. *)
Lemma grant_without_rc_file_persists_nothing :
  exists self self' w',
    __init__ (ConfDict dict_credentials) nothing = Ok self /\
    accessToken (outside := granting) self nothing
    = (Ok (TokenStr "tok1"), self', w') /\
    sent w' = [PasswordGrant "id" "secret" "user@example.org" "password"] /\
    rc_files w' = ∅.
Proof.
  eexists _, _, _. split; [vm_compute; reflexivity|].
  split; [vm_compute; reflexivity|]. split; reflexivity.
Qed.

(** A client built on a path where no file exists and then given
    credentials through [auth] writes a file that has the token section
    and no credentials section. *)
Lemma tokens_written_without_credentials :
  exists self0 self' w' cfg,
    __init__ (ConfStr rc_path) nothing = Ok self0 /\
    accessToken (outside := granting)
      (auth self0 (Some "id") (Some "secret") (Some "user@example.org")
         (Some "password")) nothing
    = (Ok (TokenStr "tok1"), self', w') /\
    rc_files w' !! rc_path = Some cfg /\
    is_Some (sections cfg !! "netatmo/tokens") /\
    sections cfg !! "netatmo" = None.
Proof.
  eexists _, _, _, _. split; [vm_compute; reflexivity|].
  split; [vm_compute; reflexivity|].
  split; [vm_compute; reflexivity|].
  split; [eexists|]; vm_compute; reflexivity.
Qed.

Lemma saveCredentials_discards_tokens_witness :
  exists cfg sec,
    saveCredentials expired (write_rc nothing rc_path tokens_only)
    = Ok (write_rc (write_rc nothing rc_path tokens_only) (expanduser rc_path) cfg) /\
    sections cfg !! "netatmo/tokens" = None /\
    sections cfg !! "netatmo" = Some sec /\
    sec !! "client_id" = Some (str (_client_id expired)) /\
    sec !! "client_secret" = Some (str (_client_secret expired)) /\
    sec !! "username" = Some (str (_username expired)) /\
    sec !! "password" = Some (str (_password expired)) /\
    sec !! "default_station" = default_station expired /\
    (forall s, s <> "netatmo" -> s <> "netatmo/tokens" ->
       sections cfg !! s
       = sections (read_rc (write_rc nothing rc_path tokens_only) (expanduser rc_path)) !! s).
Proof.
  apply (saveCredentials_discards_tokens expired
           (write_rc nothing rc_path tokens_only) rc_path);
    try reflexivity; try (right; reflexivity).
  intros d Hd. discriminate.
Defined.

(** Two calls that leave the token section where it is.  A client
    without an rc file saves nothing.  A client with an rc file and a
    password that [configparser] refuses on assignment raises before the
    file is written. *)
Lemma saveCredentials_keeps_tokens :
  (rc_file client = None /\
   saveCredentials client (write_rc nothing rc_path tokens_only)
   = Ok (write_rc nothing rc_path tokens_only)) /\
  (rc_file percent_password = Some rc_path /\
   saveCredentials percent_password (write_rc nothing rc_path tokens_only)
   = Raise ValueError) /\
  is_Some (sections (read_rc (write_rc nothing rc_path tokens_only) rc_path)
           !! "netatmo/tokens").
Proof.
  repeat split; try reflexivity. eexists. vm_compute. reflexivity.
Qed.

End TokenExamples.

(** ** Time-series exporter *)

(** *** Lines *)

Lemma readlines_nonempty (c : ascii) (b : list ascii) : readlines (c :: b) <> [].
Proof.
  simpl. destruct (Ascii.eqb c newline); [discriminate|].
  destruct (readlines b); discriminate.
Qed.

(** A line break ends a line: what follows is read on its own. *)
Lemma readlines_app (p b : list ascii) :
  readlines (p ++ newline :: b) = readlines (p ++ [newline]) ++ readlines b.
Proof.
  induction p as [|c p IH]; simpl.
  - reflexivity.
  - destruct (Ascii.eqb c newline); [now rewrite IH|].
    rewrite IH.
    destruct (readlines (p ++ [newline])) as [|l ls] eqn:E; [|reflexivity].
    destruct p; simpl in E.
    + discriminate.
    + now apply readlines_nonempty in E.
Qed.

(** Bytes without a line break are one line, with or without a
    terminator after them. *)
Lemma readlines_line (body : list ascii) :
  ~ In newline body -> readlines (body ++ [newline]) = [body ++ [newline]].
Proof.
  induction body as [|c body IH]; intros Hn; simpl.
  - reflexivity.
  - destruct (Ascii.eqb_spec c newline) as [->|Hc]; [destruct Hn; now left|].
    rewrite IH by (intros Hin; apply Hn; now right). reflexivity.
Qed.

Lemma readlines_open_line (body : list ascii) :
  ~ In newline body -> body <> [] -> readlines body = [body].
Proof.
  induction body as [|c body IH]; intros Hn Hb; [congruence|]. simpl.
  destruct (Ascii.eqb_spec c newline) as [->|Hc]; [destruct Hn; now left|].
  destruct body as [|c' body]; [reflexivity|].
  rewrite IH; [reflexivity| |discriminate].
  intros Hin; apply Hn; now right.
Qed.

(** The last line of a file that ends in the line [body ++ term]. *)
Lemma readlines_last (pre body term : list ascii) :
  whole_lines pre -> ~ In newline body ->
  term = [newline] \/ term = [] /\ body <> [] ->
  List.last (readlines (pre ++ body ++ term)) [] = body ++ term.
Proof.
  intros Hpre Hbody Hterm.
  assert (Hline : readlines (body ++ term) = [body ++ term]).
  { destruct Hterm as [->|[-> Hne]].
    - now apply readlines_line.
    - rewrite app_nil_r. now apply readlines_open_line. }
  destruct Hpre as [->|[p ->]]; simpl.
  - now rewrite Hline.
  - rewrite <- app_assoc. simpl. rewrite readlines_app, Hline.
    now rewrite last_last.
Qed.

(** The last [min (length data) 100] bytes of a file that ends in a line
    of at most 100 bytes end in that line too, after whole lines. *)
Lemma tail_window (pre line : list ascii) :
  whole_lines pre -> (length line <= 100)%nat ->
  exists pre',
    whole_lines pre' /\
    skipn (length (pre ++ line) - Nat.min (length (pre ++ line)) 100) (pre ++ line)
    = pre' ++ line.
Proof.
  intros Hpre Hlen. rewrite length_app.
  set (k := (length pre + length line
             - Nat.min (length pre + length line) 100)%nat).
  assert (Hk : (k <= length pre)%nat) by (unfold k; lia).
  exists (skipn k pre). split.
  - destruct Hpre as [->|[p ->]].
    + left. now rewrite skipn_nil.
    + rewrite length_app in Hk. simpl in Hk.
      destruct (Nat.eq_dec k (length p + 1)%nat) as [Heq|Hne].
      * left. apply skipn_all2. rewrite length_app. simpl. lia.
      * right. exists (skipn k p). rewrite skipn_app.
        replace (k - length p)%nat with 0%nat by lia. reflexivity.
  - rewrite skipn_app. replace (k - length pre)%nat with 0%nat by lia.
    reflexivity.
Qed.

(** *** Fields and numbers *)

Lemma first_field_app (b rest : list ascii) :
  In semicolon b -> first_field (b ++ rest) = first_field b.
Proof.
  induction b as [|c b IH]; intros Hin; [destruct Hin|]. simpl.
  destruct (Ascii.eqb_spec c semicolon) as [->|Hc]; [reflexivity|].
  f_equal. apply IH. destruct Hin; [congruence|assumption].
Qed.

Lemma first_field_all (b : list ascii) : ~ In semicolon b -> first_field b = b.
Proof.
  induction b as [|c b IH]; intros Hn; [reflexivity|]. simpl.
  destruct (Ascii.eqb_spec c semicolon) as [->|Hc]; [destruct Hn; now left|].
  f_equal. apply IH. intros Hin. apply Hn. now right.
Qed.

Lemma first_field_prefix (b : list ascii) :
  firstn (length (first_field b)) b = first_field b.
Proof.
  induction b as [|c b IH]; [reflexivity|]. simpl.
  destruct (Ascii.eqb c semicolon); [reflexivity|]. simpl. now rewrite IH.
Qed.

Lemma first_field_length (b : list ascii) :
  (length (first_field b) <= length b)%nat.
Proof.
  induction b as [|c b IH]; [simpl; lia|]. simpl.
  destruct (Ascii.eqb c semicolon); simpl; lia.
Qed.

Lemma find_found (b : list ascii) :
  In semicolon b -> find semicolon b = Z.of_nat (length (first_field b)).
Proof.
  induction b as [|c b IH]; intros Hin; [destruct Hin|]. simpl.
  destruct (Ascii.eqb_spec c semicolon) as [->|Hc]; [reflexivity|].
  rewrite IH by (destruct Hin; [congruence|assumption]).
  destruct (Z.ltb_spec (Z.of_nat (length (first_field b))) 0); [lia|].
  simpl length. lia.
Qed.

Lemma find_missing (b : list ascii) : ~ In semicolon b -> find semicolon b = -1.
Proof.
  induction b as [|c b IH]; intros Hn; [reflexivity|]. simpl.
  destruct (Ascii.eqb_spec c semicolon) as [->|Hc]; [destruct Hn; now left|].
  rewrite IH by (intros Hin; apply Hn; now right). reflexivity.
Qed.

(** The text [last_timestamp] takes for the timestamp of a line is the
    first field of the line, when the line has a semicolon or ends with a
    line break. *)
Lemma slice_first_field (body term : list ascii) :
  ~ In newline body ->
  term = [newline] \/ term = [] /\ In semicolon body ->
  slice0 (body ++ term) (find semicolon (body ++ term)) = first_field body.
Proof.
  intros Hnl Hterm. unfold slice0.
  destruct (in_dec ascii_dec semicolon body) as [Hin|Hout].
  - rewrite find_found by (apply in_or_app; now left).
    rewrite first_field_app by assumption.
    pose proof (first_field_length body) as Hlen.
    destruct (Z.ltb_spec (Z.of_nat (length (first_field body))) 0); [lia|].
    rewrite Z.min_l by (rewrite length_app; lia).
    rewrite Nat2Z.id, <- (first_field_app body term) by assumption.
    apply first_field_prefix.
  - destruct Hterm as [->|[_ Hin]]; [|contradiction].
    rewrite find_missing.
    + simpl. rewrite length_app. simpl.
      replace (Z.to_nat (Z.max 0 (Z.of_nat (length body + 1) + -1)))
        with (length body) by lia.
      rewrite firstn_app, firstn_all, Nat.sub_diag. simpl.
      rewrite app_nil_r. symmetry. now apply first_field_all.
    + intros Hin. apply in_app_or in Hin as [Hin|[Hin|[]]]; [contradiction|].
      discriminate.
Qed.

Lemma last_row_line (pre body term : list ascii) :
  whole_lines pre -> ~ In newline body ->
  term = [newline] \/ term = [] /\ body <> [] ->
  last_row (pre ++ body ++ term) = Some body.
Proof.
  intros Hpre Hbody Hterm. unfold last_row.
  pose proof (readlines_last pre body term Hpre Hbody Hterm) as Hlast.
  destruct (readlines (pre ++ body ++ term)) as [|l ls] eqn:E.
  - simpl in Hlast. symmetry in Hlast. apply app_eq_nil in Hlast as [-> ->].
    destruct Hterm as [?|[_ ?]]; [discriminate|congruence].
  - rewrite Hlast. f_equal. unfold strip_newline.
    destruct Hterm as [->|[-> Hne]].
    + rewrite last_last, Ascii.eqb_refl. apply removelast_last.
    + rewrite app_nil_r.
      destruct (Ascii.eqb_spec (List.last body "000"%char) newline) as [Heq|]; [|reflexivity].
      exfalso. apply Hbody. rewrite <- Heq.
      destruct (exists_last Hne) as (b' & c & ->). rewrite last_last.
      apply in_or_app. right. now left.
Qed.

(** Digits spell a number that is not negative. *)
Lemma uint_of_digits (t : list ascii) :
  forallb is_digit t = true ->
  exists d, NilEmpty.uint_of_string (string_of_list_ascii t) = Some d.
Proof.
  induction t as [|c t IH]; simpl; intros Hd.
  - now exists Nil.
  - apply andb_true_iff in Hd as [Hc Ht].
    destruct (IH Ht) as [d Hd]. rewrite Hd.
    unfold is_digit in Hc.
    destruct c as [[] [] [] [] [] [] [] []]; try discriminate Hc;
      simpl; eauto.
Qed.

Lemma int_of_numeric (t : list ascii) :
  isnumeric t = true ->
  exists n, int (string_of_list_ascii t) = Some n /\ 0 <= n.
Proof.
  destruct t as [|c t]; [discriminate|]. simpl isnumeric. intros Hd.
  destruct (uint_of_digits (c :: t) Hd) as [d Hu].
  exists (Z.of_uint d). split; [|unfold Z.of_uint; lia].
  simpl in Hd. apply andb_true_iff in Hd as [Hc _].
  unfold int. simpl string_of_list_ascii in *.
  assert (Hi : NilZero.int_of_string (String c (string_of_list_ascii t)) = Some (Pos d)).
  { unfold NilZero.int_of_string, NilZero.uint_of_string.
    replace (Ascii.eqb c "-") with false
      by (unfold is_digit in Hc;
          destruct c as [[] [] [] [] [] [] [] []]; try discriminate Hc; reflexivity).
    now rewrite Hu. }
  rewrite Hi.
  unfold is_digit in Hc.
  destruct c as [[] [] [] [] [] [] [] []]; try discriminate Hc; reflexivity.
Qed.

(** *** The resume point *)

Lemma timestamp_of_nonneg (row : list ascii) (t : Z) :
  timestamp_of row = Some t -> 0 <= t.
Proof.
  unfold timestamp_of. destruct (isnumeric (first_field row)) eqn:E; [|discriminate].
  destruct (int_of_numeric _ E) as (n & Hn & Hpos). rewrite Hn. now intros [= <-].
Qed.

(** [last_timestamp] on a file that ends in a line of at most 100 ASCII
    bytes: the timestamp of that line, or 0 when it has none. *)
Lemma last_timestamp_line (w : World) (filename : string)
  (pre body term : list ascii) :
  csv_files w !! filename = Some (pre ++ body ++ term) ->
  whole_lines pre -> ~ In newline body ->
  term = [newline] \/ term = [] /\ In semicolon body ->
  (length (body ++ term) <= 100)%nat -> is_ascii (body ++ term) = true ->
  last_timestamp w filename
  = Ok (match timestamp_of body with
        | Some t => t
        | None => 0
        end).
Proof.
  intros Hfile Hpre Hbody Hterm Hlen Hascii.
  assert (Hterm' : term = [newline] \/ term = [] /\ body <> []).
  { destruct Hterm as [?|[? Hin]]; [now left|right]. split; [assumption|].
    intros ->. destruct Hin. }
  assert (Hne : (length (body ++ term) <> 0)%nat).
  { rewrite length_app. destruct Hterm' as [->|[_ Hb]]; simpl; [lia|].
    destruct body; [congruence|simpl; lia]. }
  unfold last_timestamp. rewrite Hfile.
  destruct (Nat.eqb_spec (Nat.min (length (pre ++ body ++ term)) 100) 0) as [E|_].
  { rewrite length_app in E. lia. }
  destruct (tail_window pre (body ++ term) Hpre Hlen) as (pre' & Hpre' & ->).
  rewrite (readlines_last pre' body term Hpre' Hbody Hterm'), Hascii.
  rewrite (slice_first_field body term Hbody Hterm).
  unfold timestamp_of.
  destruct (isnumeric (first_field body)) eqn:E; [|reflexivity].
  destruct (int_of_numeric _ E) as (n & -> & _). reflexivity.
Qed.

Lemma resume_of_nothing (w : World) (filename : string) :
  csv_files w !! filename = None \/ csv_files w !! filename = Some [] ->
  resume w filename = Ok 0.
Proof.
  intros [E|E]; unfold resume, last_timestamp; now rewrite E.
Qed.

(** The resume point of a file that ends in a line of at most 100 ASCII
    bytes: one past the timestamp of the line, unless that is 0 or the
    line has none. *)
Lemma resume_of_line (w : World) (filename : string)
  (pre body term : list ascii) :
  csv_files w !! filename = Some (pre ++ body ++ term) ->
  whole_lines pre -> ~ In newline body ->
  term = [newline] \/ term = [] /\ In semicolon body ->
  (length (body ++ term) <= 100)%nat -> is_ascii (body ++ term) = true ->
  resume w filename
  = Ok (match timestamp_of body with
        | Some t => if t =? 0 then 0 else t + 1
        | None => 0
        end).
Proof.
  intros Hfile Hpre Hbody Hterm Hlen Hascii. unfold resume.
  rewrite (last_timestamp_line w filename pre body term) by assumption.
  destruct (timestamp_of body) as [t|] eqn:Et; [|reflexivity].
  pose proof (timestamp_of_nonneg _ _ Et) as Hpos.
  destruct (Z.eqb_spec t 0) as [->|Hne]; [reflexivity|].
  now replace (t >? 0) with true by lia.
Qed.

(** C2 (amended).  The resume point [dl_csv] computes is 0 for an absent
    or empty sink.  For a sink that ends in a line of at most 100 ASCII
    bytes which has a semicolon or ends with a line break, that line is
    the last row, and the resume point is the row's timestamp + 1 when its
    first field is numeric and not zero, and 0 when the first field is not
    numeric or is zero. *)
Theorem resume_point (w : World) (filename : string) :
  (csv_files w !! filename = None -> resume w filename = Ok 0) /\
  (csv_files w !! filename = Some [] -> resume w filename = Ok 0) /\
  (forall pre body term,
     csv_files w !! filename = Some (pre ++ body ++ term) ->
     whole_lines pre -> ~ In newline body ->
     term = [newline] \/ term = [] /\ In semicolon body ->
     (length (body ++ term) <= 100)%nat -> is_ascii (body ++ term) = true ->
     last_row (pre ++ body ++ term) = Some body /\
     match timestamp_of body with
     | Some t =>
         resume w filename = Ok (if t =? 0 then 0 else t + 1) /\
         (t <> 0 -> resume w filename
                    = Ok (resumeTimestamp (csv_files w !! filename)))
     | None =>
         resume w filename = Ok 0 /\
         resumeTimestamp (csv_files w !! filename) = 0
     end).
Proof.
  split; [|split].
  - intros E. apply resume_of_nothing. now left.
  - intros E. apply resume_of_nothing. now right.
  - intros pre body term Hfile Hpre Hbody Hterm Hlen Hascii.
    assert (Hrow : last_row (pre ++ body ++ term) = Some body).
    { apply last_row_line; auto. destruct Hterm as [?|[? Hin]]; [now left|right].
      split; [assumption|]. intros ->. destruct Hin. }
    split; [exact Hrow|].
    rewrite (resume_of_line w filename pre body term) by assumption.
    rewrite Hfile. unfold resumeTimestamp. rewrite Hrow.
    destruct (timestamp_of body) as [t|] eqn:Et; [|split; reflexivity].
    split; [reflexivity|]. intros Hne.
    now destruct (Z.eqb_spec t 0).
Qed.

Section ResumeExamples.

Lemma resume_point_witness :
  last_row one_row
  = Some (fields_line [Num "1478000000"; Text "2016-11-01 11:33:20"; Num "21.5"]) /\
  resume (write_csv nothing "netatmo_station.csv" one_row) "netatmo_station.csv"
  = Ok 1478000001.
Proof.
  pose proof (resume_point (write_csv nothing "netatmo_station.csv" one_row)
                "netatmo_station.csv") as (_ & _ & Hrow).
  specialize (Hrow (writerow (header ["Temperature"]))
                (fields_line [Num "1478000000"; Text "2016-11-01 11:33:20"; Num "21.5"])
                [newline]).
  destruct Hrow as (Hlast & Hres).
  - reflexivity.
  - right. eexists. reflexivity.
  - vm_compute. intros Hin. repeat (destruct Hin as [Hin|Hin]; [discriminate Hin|]).
    exact Hin.
  - now left.
  - vm_compute. lia.
  - reflexivity.
  - split; [exact Hlast|]. exact (proj1 Hres).
Defined.

(** Two sinks whose last row has a numeric first field, so that the
    specification asks for its timestamp + 1.  Where the timestamp is 0
    the code resumes at 0; where the row is longer than 100 bytes the
    code reads the timestamp from the middle of the row (here "000") and
    resumes at 0 as well. *)
Lemma resume_disagrees_with_last_row :
  (resume (write_csv nothing station_csv epoch_row) station_csv = Ok 0 /\
   last_row epoch_row
   = Some (fields_line [Num "0"; Text "1970-01-01 00:00:00"; Num "21.5"]) /\
   timestamp_of (fields_line [Num "0"; Text "1970-01-01 00:00:00"; Num "21.5"])
   = Some 0 /\
   resumeTimestamp (Some epoch_row) = 1) /\
  (resume (write_csv nothing station_csv long_sink) station_csv = Ok 0 /\
   option_map timestamp_of (last_row long_sink) = Some (Some T0) /\
   resumeTimestamp (Some long_sink) = T0 + 1).
Proof.
  repeat split; vm_compute; reflexivity.
Qed.

End ResumeExamples.

(** *** The loop *)

Section LoopFacts.
Context {interpolation : Interpolation} {platform : Platform} {outside : Outside}.

Variable device_id : option string.
Variable module_id : option string.
Variable fields : list string.
Variable date_end : option Z.

(** The cursor only moves forward over a page: it ends at the highest of
    where it started and the timestamps written. *)
Lemma write_page_highest (items : list (string * list Cell)) :
  forall start res rows cursor,
    write_page items start = (res, rows, cursor) -> cursor = highest start rows.
Proof.
  induction items as [|[k v] items IH]; intros start res rows cursor; simpl.
  - now intros [= _ <- <-].
  - destruct (int k) as [t|]; [|now intros [= _ <- <-]].
    destruct (strftime t) as [dt|]; [|now intros [= _ <- <-]].
    destruct (write_page items (if start <? t then t else start))
      as [[res' rows'] cursor'] eqn:E.
    intros [= _ <- <-]. apply IH in E. rewrite E. unfold highest. simpl.
    f_equal. destruct (Z.ltb_spec start t); lia.
Qed.

Lemma highest_above (rows : list (Z * list Cell)) :
  forall start,
    start <= highest start rows /\
    Forall (fun r => fst r <= highest start rows) rows.
Proof.
  unfold highest. induction rows as [|r rows IH]; intros start; simpl.
  - split; [lia|constructor].
  - destruct (IH (Z.max start (fst r))) as (H1 & H2). split; [lia|].
    constructor; [lia|assumption].
Qed.

(** When the rows are at or after the cursor and in ascending order, the
    cursor after them is the timestamp of the last row: the highest
    timestamp written. *)
Lemma highest_last (rows : list (Z * list Cell)) (start : Z) :
  rows <> [] -> Forall (fun r => start <= fst r) rows ->
  StronglySorted Z.lt (map fst rows) ->
  highest start rows = fst (List.last rows (0, [])).
Proof.
  unfold highest. revert start.
  induction rows as [|r rows IH]; intros start Hne Hall Hs; [congruence|].
  inversion Hall as [|? ? Hr Hrest]; subst. simpl fold_left.
  destruct rows as [|r2 rows].
  - simpl. lia.
  - change (List.last (r :: r2 :: rows) (0, [])) with (List.last (r2 :: rows) (0, [])).
    simpl in Hs. inversion Hs as [|? ? Hs' Hhd]; subst.
    apply IH; [discriminate| |assumption].
    change (r2.1 :: map fst rows) with (map fst (r2 :: rows)) in Hhd.
    rewrite List.Forall_map in Hhd.
    rewrite List.Forall_forall in *. intros x Hx.
    specialize (Hhd x Hx). specialize (Hrest x Hx). simpl in *. lia.
Qed.

Lemma write_page_start (items : list (string * list Cell)) (start : Z)
  (res : result unit) (rows : list (Z * list Cell)) (cursor : Z) :
  write_page items start = (res, rows, cursor) -> start <= cursor.
Proof.
  intros E. apply write_page_highest in E. subst. apply highest_above.
Qed.

(** What one trip does, in terms of the relation. *)
Lemma trip_leave (s : LoopState) (o : Outcome) (its : list Iteration)
  (self : WeatherStation) (w : World) :
  trip device_id module_id fields date_end s = Leave o its self w ->
  trips date_end (ls_start s) o its.
Proof.
  unfold trip.
  destruct (ctime (ls_start s)) as [ct|]; [|intros [= <- <- _ _]; constructor].
  destruct (getMeasure _ _ _ _ _ _ _ _ _ _ _) as [[res self1] w1].
  destruct res as [[v|]|e]; try (intros [= <- <- _ _]; constructor).
  destruct v as [|err|a r ex|st body|a' r'];
    [| | | |intros [= <- <- _ _]; now constructor].
  - intros [= <- <- _ _]. constructor.
  - intros [= <- <- _ _]. now constructor.
  - intros [= <- <- _ _]. now constructor.
  - destruct st as [st|]; [|intros [= <- <- _ _]; now constructor].
    destruct (String.eqb st "ok") eqn:Hst;
      [|intros [= <- <- _ _]; constructor; simpl; now rewrite Hst].
    destruct body as [[d|l]|].
    + destruct (Nat.eqb_spec (size d) 0) as [Hsz|Hsz].
      { intros [= <- <- _ _]. constructor; simpl; auto. }
      destruct (write_page (sorted (map_to_list d)) (ls_start s))
        as [[res rows] cursor] eqn:Hw.
      destruct res as [[]|e].
      * destruct date_end as [e|] eqn:He.
        -- destruct (Z.geb_spec cursor e) as [Hge|Hlt]; [|discriminate].
           intros [= <- <- _ _]. eapply trips_window; eauto.
        -- intros [= <- <- _ _]. eapply trips_no_end; eauto.
      * intros [= <- <- _ _]. eapply trips_page_raised; eauto.
    + destruct l; intros [= <- <- _ _]; constructor; simpl; auto.
    + intros [= <- <- _ _]. constructor.
Qed.

Lemma trip_leave_out (s : LoopState) (o : Outcome) (its : list Iteration)
  (self : WeatherStation) (w : World) :
  trip device_id module_id fields date_end s = Leave o its self w ->
  o <> OutOfFuel.
Proof.
  unfold trip.
  repeat match goal with
         | |- context [match ?x with _ => _ end] => destruct x
         end;
    try discriminate; intros [= <- _ _ _]; discriminate.
Qed.

Lemma trip_again (s s' : LoopState) (it : Iteration) :
  trip device_id module_id fields date_end s = Again it s' ->
  ls_start s' = it_cursor it + 1 /\
  forall o its, trips date_end (it_cursor it + 1) o its ->
                trips date_end (ls_start s) o (it :: its).
Proof.
  unfold trip.
  destruct (ctime (ls_start s)) as [ct|]; [|discriminate].
  destruct (getMeasure _ _ _ _ _ _ _ _ _ _ _) as [[res self1] w1].
  destruct res as [[v|]|e]; try discriminate.
  destruct v as [|err|a r ex|st body|a' [r'|]]; try discriminate.
  destruct st as [st|]; [|discriminate].
  destruct (String.eqb st "ok") eqn:Hst; [|discriminate].
  destruct body as [[d|l]|]; try discriminate.
  - destruct (Nat.eqb_spec (size d) 0) as [Hsz|Hsz]; [discriminate|].
    destruct (write_page (sorted (map_to_list d)) (ls_start s))
      as [[res rows] cursor] eqn:Hw.
    destruct res as [[]|e]; [|discriminate].
    destruct date_end as [e|] eqn:He; [|discriminate].
    destruct (Z.geb_spec cursor e) as [Hge|Hlt]; [discriminate|].
    intros [= <- <-]. simpl. split; [reflexivity|].
    intros o its Htrips. eapply trips_next; eauto.
  - destruct l; discriminate.
Qed.

Lemma next_start_app (start : Z) (a b : list Iteration) :
  next_start start (a ++ b) = next_start (next_start start a) b.
Proof. apply fold_left_app. Qed.

(** Trips that all went round can be followed by more trips. *)
Lemma trips_app (start : Z) (its1 : list Iteration) :
  trips date_end start OutOfFuel its1 ->
  forall o its2,
    trips date_end (next_start start its1) o its2 ->
    trips date_end start o (its1 ++ its2).
Proof.
  intros H1. remember OutOfFuel as o1 eqn:Ho1.
  induction H1 as [start|start e|start v Hv|start v Hv Hsz
                   |start st d e rows cursor Hst Hsz Hw
                   |start st d rows cursor Hst Hsz Hw He
                   |start st d rows cursor e Hst Hsz Hw He Hge
                   |start st d rows cursor e o1 its Hst Hsz Hw He Hlt Htrips IH];
    try discriminate; intros o its2 H2.
  - exact H2.
  - simpl. eapply trips_next; eauto.
Qed.

(** Trips that all went round moved the cursor by at least one each and
    never reached [date_end]. *)
Lemma trips_going (start : Z) (its : list Iteration) :
  trips date_end start OutOfFuel its -> its <> [] ->
  exists e, date_end = Some e /\
            next_start start its <= e /\
            start + Z.of_nat (length its) <= next_start start its.
Proof.
  intros H1. remember OutOfFuel as o1 eqn:Ho1.
  induction H1 as [start|start e|start v Hv|start v Hv Hsz
                   |start st d e rows cursor Hst Hsz Hw
                   |start st d rows cursor Hst Hsz Hw He
                   |start st d rows cursor e Hst Hsz Hw He Hge
                   |start st d rows cursor e o1 its Hst Hsz Hw He Hlt Htrips IH];
    try discriminate; intros Hne; [congruence|].
  pose proof (write_page_start _ _ _ _ _ Hw) as Hstart.
  exists e. split; [assumption|].
  destruct its as [|it its].
  - unfold next_start. simpl. lia.
  - destruct (IH Ho1) as (e' & He' & H1 & H2); [discriminate|].
    rewrite He in He'. injection He' as <-.
    change (next_start start (Build_Iteration start
              (ReplyMeasure (Some st) (Some (BodyDict d))) rows cursor :: it :: its))
      with (next_start (cursor + 1) (it :: its)).
    split; [assumption|]. simpl length in *. lia.
Qed.

Lemma once_trips (s s' : LoopState) (o : Outcome) (its : list Iteration) :
  once device_id module_id fields date_end s = (o, its, s') ->
  trips date_end (ls_start s) o its /\
  (o = OutOfFuel ->
   ls_start s' = next_start (ls_start s) its /\ length its = 1%nat).
Proof.
  unfold once.
  destruct (trip device_id module_id fields date_end s) as [o1 its1 self1 w1|it s1] eqn:E.
  - intros [= <- <- <-]. split; [now apply trip_leave in E|].
    intros ->. now apply trip_leave_out in E.
  - intros [= <- <- <-]. destruct (trip_again _ _ _ E) as (Hs & Hnext).
    split; [apply Hnext; constructor|]. intros _. split; [assumption|reflexivity].
Qed.

(** Continuing a run that has to go on. *)
Lemma and_then_trips (start : Z) (k : LoopState -> Outcome * list Iteration * LoopState)
  (r : Outcome * list Iteration * LoopState) (n m : nat)
  (o : Outcome) (its : list Iteration) (s' : LoopState) :
  (trips date_end start (fst (fst r)) (snd (fst r)) /\
   (fst (fst r) = OutOfFuel ->
    ls_start (snd r) = next_start start (snd (fst r)) /\
    length (snd (fst r)) = n)) ->
  (forall s1 o2 its2 s2, k s1 = (o2, its2, s2) ->
     trips date_end (ls_start s1) o2 its2 /\
     (o2 = OutOfFuel ->
      ls_start s2 = next_start (ls_start s1) its2 /\ length its2 = m)) ->
  and_then r k = (o, its, s') ->
  trips date_end start o its /\
  (o = OutOfFuel ->
   ls_start s' = next_start start its /\ length its = (n + m)%nat).
Proof.
  destruct r as [[o1 its1] s1]. simpl. intros (Ht1 & Hout1) Hk.
  destruct o1.
  - intros [= <- <- <-]. split; [assumption|discriminate].
  - intros [= <- <- <-]. split; [assumption|discriminate].
  - destruct (Hout1 eq_refl) as (Hs1 & Hlen1).
    destruct (k s1) as [[o2 its2] s2] eqn:Ek.
    intros [= <- <- <-]. destruct (Hk _ _ _ _ Ek) as (Ht2 & Hout2).
    rewrite Hs1 in Ht2. split; [now apply trips_app|].
    intros Ho. destruct (Hout2 Ho) as (Hs2 & Hlen2).
    rewrite next_start_app, length_app, <- Hs1. split; [assumption|lia].
Qed.

(** Every run of the loop is a sequence of trips; when the fuel ran out,
    every unit of it went into a trip that went round. *)
Lemma while_true_trips (fuel : positive) :
  forall s o its s',
    while_true device_id module_id fields date_end fuel s = (o, its, s') ->
    trips date_end (ls_start s) o its /\
    (o = OutOfFuel ->
     ls_start s' = next_start (ls_start s) its /\
     length its = Pos.to_nat fuel).
Proof.
  induction fuel as [p IH|p IH|]; intros s o its s'; simpl.
  - intros E.
    replace (Pos.to_nat p~1) with (1 + (Pos.to_nat p + Pos.to_nat p))%nat by lia.
    eapply and_then_trips; [| |exact E].
    + destruct (once _ _ _ _ s) as [[o1 its1] s1] eqn:E1. simpl.
      now apply once_trips in E1.
    + intros s1 o2 its2 s2 E2.
      eapply and_then_trips; [| |exact E2].
      * destruct (while_true _ _ _ _ p s1) as [[o3 its3] s3] eqn:E3. simpl.
        now apply IH in E3.
      * intros s3 o4 its4 s4 E4. now apply IH in E4.
  - intros E.
    replace (Pos.to_nat p~0) with (Pos.to_nat p + Pos.to_nat p)%nat by lia.
    eapply and_then_trips; [| |exact E].
    + destruct (while_true _ _ _ _ p s) as [[o1 its1] s1] eqn:E1. simpl.
      now apply IH in E1.
    + intros s1 o2 its2 s2 E2. now apply IH in E2.
  - intros E. now apply once_trips in E.
Qed.

(** The loop comes to an end within [enough start] trips. *)
Lemma while_true_enough (s s' : LoopState) (o : Outcome) (its : list Iteration) :
  while_true device_id module_id fields date_end (enough date_end (ls_start s)) s
  = (o, its, s') ->
  o <> OutOfFuel.
Proof.
  intros E ->. apply while_true_trips in E as (Ht & Hout).
  destruct (Hout eq_refl) as (_ & Hlen).
  destruct (trips_going _ _ Ht) as (e & He & H1 & H2).
  - intros ->. simpl in Hlen. lia.
  - unfold enough in Hlen. rewrite He in Hlen. lia.
Qed.

End LoopFacts.

(** *** What the trips of a loop look like *)

Section TripsFacts.
Context {platform : Platform}.
Variable date_end : option Z.

(** The loop stops on the first trip on which one of its three conditions
    holds: no earlier trip met one, and the way it stopped is the
    condition the last trip met. *)
Lemma trips_stop (start : Z) (o : Outcome) (its : list Iteration) :
  trips date_end start o its ->
  Forall (fun it => stop_condition date_end it = None) (removelast its) /\
  forall why, o = Stopped why ->
    exists its0 last,
      its = its0 ++ [last] /\ stop_condition date_end last = Some why.
Proof.
  induction 1 as [start|start e|start v Hv|start v Hv Hsz
                  |start st d e rows cursor Hst Hsz Hw
                  |start st d rows cursor Hst Hsz Hw He
                  |start st d rows cursor e Hst Hsz Hw He Hge
                  |start st d rows cursor e o its Hst Hsz Hw He Hlt Htrips IH];
    simpl.
  - split; [constructor|discriminate].
  - split; [constructor|discriminate].
  - split; [constructor|]. intros why [= <-].
    exists [], (Build_Iteration start v [] start). split; [reflexivity|].
    unfold stop_condition. simpl. now rewrite Hv.
  - split; [constructor|]. intros why [= <-].
    exists [], (Build_Iteration start v [] start). split; [reflexivity|].
    unfold stop_condition. simpl. now rewrite Hv, Hsz.
  - split; [constructor|discriminate].
  - split; [constructor|discriminate].
  - split; [constructor|]. intros why [= <-].
    eexists [], _. split; [reflexivity|].
    unfold stop_condition. simpl. rewrite Hst. simpl.
    destruct (Nat.eqb_spec (size d) 0); [contradiction|].
    rewrite He. destruct (Z.geb_spec cursor e); [reflexivity|lia].
  - destruct IH as (IH1 & IH2).
    assert (Hnone : stop_condition date_end
                      (Build_Iteration start (ReplyMeasure (Some st) (Some (BodyDict d)))
                         rows cursor) = None).
    { unfold stop_condition. simpl. rewrite Hst. simpl.
      destruct (Nat.eqb_spec (size d) 0); [contradiction|].
      rewrite He. destruct (Z.geb_spec cursor e); [lia|reflexivity]. }
    split.
    + destruct its as [|it its]; [constructor|].
      constructor; assumption.
    + intros why Ho. destruct (IH2 why Ho) as (its0 & last & -> & Hlast).
      exists (Build_Iteration start (ReplyMeasure (Some st) (Some (BodyDict d)))
                rows cursor :: its0), last.
      split; [reflexivity|assumption].
Qed.

(** Each trip asks from where the one before ended, plus one, and its
    cursor ends at the highest of where it started and what it wrote. *)
Lemma trips_chained (start : Z) (o : Outcome) (its : list Iteration) :
  trips date_end start o its ->
  chained start its /\
  Forall (fun it => it_cursor it = highest (it_start it) (it_rows it)) its.
Proof.
  induction 1 as [start|start e|start v Hv|start v Hv Hsz
                  |start st d e rows cursor Hst Hsz Hw
                  |start st d rows cursor Hst Hsz Hw He
                  |start st d rows cursor e Hst Hsz Hw He Hge
                  |start st d rows cursor e o its Hst Hsz Hw He Hlt Htrips IH];
    simpl; try (split; [tauto|repeat constructor]);
    try (simpl; now apply write_page_highest in Hw).
Qed.

End TripsFacts.

(** *** The run as trips *)

Section RunOfTrips.
Context {interpolation : Interpolation} {platform : Platform} {outside : Outside}.

Variable device_id : option string.
Variable module_id : option string.
Variable fields : list string.

Lemma dl_csv_trips (date_end : option Z) (self : WeatherStation) (w : World)
  (filename : string) (start : Z) :
  resume w filename = Ok start ->
  let run := dl_csv device_id module_id fields date_end self w filename in
  trips date_end start (outcome run) (iterations run) /\
  outcome run <> OutOfFuel /\
  csv_files (run_world run) !! filename
  = Some (match csv_files w !! filename with
          | Some b => b
          | None => []
          end
          ++ (if wrote_header run then writerow (header fields) else [])
          ++ lines_of (rows_of (iterations run))) /\
  wrote_header run
  = (length match csv_files w !! filename with
            | Some b => b
            | None => []
            end =? 0)%nat.
Proof.
  intros Hres. unfold dl_csv. rewrite Hres.
  destruct (while_true _ _ _ _ _ _) as [[o its] s'] eqn:E.
  pose proof (while_true_enough device_id module_id fields date_end
                (Build_LoopState self w 0 start) s' o its E) as Hfuel.
  simpl in *. split; [now apply while_true_trips in E|]. split; [assumption|].
  split; [apply lookup_insert_eq|reflexivity].
Qed.

End RunOfTrips.

(** *** Sorting a page *)

Lemma insert_item_perm (x : string * list Cell) (l : list (string * list Cell)) :
  Permutation (insert_item x l) (x :: l).
Proof.
  induction l as [|y l IH]; simpl; [reflexivity|].
  destruct (String.leb (fst x) (fst y)); [reflexivity|].
  rewrite IH. apply perm_swap.
Qed.

Lemma sorted_perm (l : list (string * list Cell)) : Permutation (sorted l) l.
Proof.
  induction l as [|x l IH]; simpl; [reflexivity|].
  unfold sorted in *. simpl. rewrite insert_item_perm. now constructor.
Qed.

Lemma insert_item_hd (x y : string * list Cell) (l : list (string * list Cell)) :
  HdRel key_le y l -> key_le y x -> HdRel key_le y (insert_item x l).
Proof.
  intros Hl Hx. destruct l as [|z l]; simpl; [now constructor|].
  destruct (String.leb (fst x) (fst z)); constructor; [assumption|].
  now inversion Hl.
Qed.

Lemma insert_item_sorted (x : string * list Cell) (l : list (string * list Cell)) :
  Sorted key_le l -> Sorted key_le (insert_item x l).
Proof.
  induction 1 as [|y l Hs IH Hhd]; simpl; [repeat constructor|].
  destruct (String.leb (fst x) (fst y)) eqn:E.
  - constructor; [now constructor|]. now constructor.
  - constructor; [assumption|]. apply insert_item_hd; [assumption|].
    unfold key_le. destruct (String.leb_total (fst x) (fst y)); congruence.
Qed.

Lemma sorted_sorted (l : list (string * list Cell)) : Sorted key_le (sorted l).
Proof.
  induction l as [|x l IH]; [constructor|].
  unfold sorted in *. simpl. now apply insert_item_sorted.
Qed.

(** *** The rows of an honest page *)

Section PageFacts.
Context {platform : Platform}.

Lemma write_page_head (k : string) (v : list Cell)
  (items : list (string * list Cell)) (start : Z) (res : result unit)
  (r : Z * list Cell) (rows : list (Z * list Cell)) (cursor : Z) :
  write_page ((k, v) :: items) start = (res, r :: rows, cursor) ->
  int k = Some (fst r).
Proof.
  simpl. destruct (int k) as [t|]; [|discriminate].
  destruct (strftime t) as [dt|]; [|discriminate].
  destruct (write_page items _) as [[res' rows'] cursor'].
  now intros [= _ <- _ _].
Qed.

(** Of a page whose keys are in the order of their texts, distinct, and
    honest, the rows written are in ascending order of timestamp, at or
    after the cursor the page was asked from. *)
Lemma write_page_sorted (lower : Z) (items : list (string * list Cell)) :
  Sorted key_le items -> NoDup (map fst items) ->
  (forall a b, In a (map fst items) -> In b (map fst items) ->
               same_order a b = true) ->
  (forall k, In k (map fst items) -> honest_key lower k = true) ->
  forall start res rows cursor,
    write_page items start = (res, rows, cursor) ->
    Sorted Z.lt (map fst rows) /\
    Forall (fun r => 0 < fst r /\ lower <= fst r /\ row_shape r) rows.
Proof.
  induction items as [|[k v] items IH];
    intros Hs Hnd Hord Hkeys start res rows cursor; simpl.
  - intros [= _ <- _]. split; constructor.
  - pose proof (Hkeys k (or_introl eq_refl)) as Hk. unfold honest_key in Hk.
    destruct (int k) as [t|] eqn:Hint; [|discriminate].
    apply andb_true_iff in Hk as [Hpos Hlow].
    destruct (strftime t) as [dt|]; [|intros [= _ <- _]; split; constructor].
    destruct (write_page items (if start <? t then t else start))
      as [[res' rows'] cursor'] eqn:E.
    intros [= _ <- _].
    inversion Hs as [|? ? Hs' Hhd]; subst.
    apply NoDup_cons in Hnd as [Hnotin Hnd'].
    destruct (IH Hs' Hnd'
                (fun a b Ha Hb => Hord a b (or_intror Ha) (or_intror Hb))
                (fun k' Hk' => Hkeys k' (or_intror Hk'))
                _ _ _ _ E) as (IH1 & IH2).
    split.
    + simpl. constructor; [assumption|].
      destruct rows' as [|r2 rows']; [constructor|]. constructor.
      destruct items as [|[k2 v2] items]; [simpl in E; congruence|].
      pose proof (write_page_head _ _ _ _ _ _ _ _ E) as Hint2.
      inversion Hhd as [|? ? Hle]; subst. unfold key_le in Hle. simpl in Hle.
      assert (Hne : k <> k2).
      { intros ->. apply Hnotin. apply list_elem_of_In. simpl. now left. }
      pose proof (Hord k k2 (or_introl eq_refl) (or_intror (or_introl eq_refl)))
        as Hso.
      unfold same_order in Hso. rewrite Hle, Hint, Hint2 in Hso.
      apply String.eqb_neq in Hne. rewrite Hne in Hso. simpl in Hso. lia.
    + constructor; [|assumption]. simpl. split; [lia|]. split; [lia|].
      exists dt, v. reflexivity.
Qed.


Lemma honest_page_items (start : Z) (st : option string)
  (d : gmap string (list Cell)) :
  honest_page start (ReplyMeasure st (Some (BodyDict d))) = true ->
  Sorted key_le (sorted (map_to_list d)) /\
  NoDup (map fst (sorted (map_to_list d))) /\
  (forall a b, In a (map fst (sorted (map_to_list d))) ->
               In b (map fst (sorted (map_to_list d))) ->
               same_order a b = true) /\
  (forall k, In k (map fst (sorted (map_to_list d))) ->
             honest_key start k = true).
Proof.
  simpl. intros Hh. apply andb_true_iff in Hh as [Hkeys Hord].
  rewrite forallb_forall in Hkeys, Hord.
  assert (Hperm : Permutation (map fst (sorted (map_to_list d)))
                    (map fst (map_to_list d))).
  { apply Permutation_map, sorted_perm. }
  split; [apply sorted_sorted|]. split; [|split].
  - rewrite Hperm. apply NoDup_fst_map_to_list.
  - intros a b Ha Hb.
    apply (Permutation_in _ Hperm) in Ha. apply (Permutation_in _ Hperm) in Hb.
    specialize (Hord a Ha). rewrite forallb_forall in Hord. now apply Hord.
  - intros k Hk. apply (Permutation_in _ Hperm) in Hk. now apply Hkeys.
Qed.

Lemma write_page_honest (start : Z) (st : option string)
  (d : gmap string (list Cell)) (res : result unit)
  (rows : list (Z * list Cell)) (cursor : Z) :
  honest_page start (ReplyMeasure st (Some (BodyDict d))) = true ->
  write_page (sorted (map_to_list d)) start = (res, rows, cursor) ->
  StronglySorted Z.lt (map fst rows) /\
  Forall (fun r => 0 < fst r /\ start <= fst r /\ row_shape r) rows /\
  Forall (fun r => fst r <= cursor) rows /\ start <= cursor.
Proof.
  intros Hh Hw.
  destruct (honest_page_items _ _ _ Hh) as (Hs & Hnd & Hord & Hkeys).
  destruct (write_page_sorted start _ Hs Hnd Hord Hkeys _ _ _ _ Hw) as (H1 & H2).
  pose proof (write_page_highest _ _ _ _ _ Hw) as ->.
  destruct (highest_above rows start) as (H3 & H4).
  split; [|auto].
  apply Sorted_StronglySorted; [|assumption]. intros x y z. apply Z.lt_trans.
Qed.

(** The rows of a run whose pages were honest: in ascending order of
    timestamp, positive, at or after the cursor the run started from. *)
Lemma trips_rows (date_end : option Z) (start : Z) (o : Outcome)
  (its : list Iteration) :
  trips date_end start o its ->
  forallb honest_iteration its = true ->
  StronglySorted Z.lt (map fst (rows_of its)) /\
  Forall (fun r => 0 < fst r /\ start <= fst r /\ row_shape r) (rows_of its).
Proof.
  induction 1 as [start|start e|start v Hv|start v Hv Hsz
                  |start st d e rows cursor Hst Hsz Hw
                  |start st d rows cursor Hst Hsz Hw He
                  |start st d rows cursor e Hst Hsz Hw He Hge
                  |start st d rows cursor e o its Hst Hsz Hw He Hlt Htrips IH];
    unfold rows_of; simpl; intros Hh;
    try (split; constructor);
    try (rewrite andb_true_r in Hh; unfold honest_iteration in Hh; simpl in Hh;
         rewrite app_nil_r;
         destruct (write_page_honest start (Some st) d _ _ _ Hh Hw)
           as (H1 & H2 & _); split; assumption).
  apply andb_true_iff in Hh as [Hh Hrest].
  unfold honest_iteration in Hh. simpl in Hh.
  destruct (write_page_honest start (Some st) d _ _ _ Hh Hw)
    as (H1 & H2 & H3 & H4).
  destruct (IH Hrest) as (IH1 & IH2). fold (rows_of its) in *.
  split.
  - rewrite map_app. apply StronglySorted_app_2; [|assumption|assumption].
    intros x1 x2 Hx1 Hx2.
    apply list_elem_of_In, in_map_iff in Hx1 as (r1 & <- & Hr1).
    apply list_elem_of_In, in_map_iff in Hx2 as (r2 & <- & Hr2).
    rewrite List.Forall_forall in H3, IH2.
    specialize (H3 r1 Hr1). specialize (IH2 r2 Hr2). simpl in *. lia.
  - apply Forall_app. split; [assumption|].
    eapply Forall_impl; [exact IH2|]. simpl. intros r (? & ? & ?).
    repeat split; auto. lia.
Qed.

End PageFacts.

(** *** Reading the resume point back from a sink *)

Lemma uint_digits (d : uint) :
  forallb is_digit (list_ascii_of_string (NilEmpty.string_of_uint d)) = true.
Proof. induction d; simpl; auto. Qed.

(** A number that is not negative is printed in digits. *)
Lemma str_int_numeric (t : Z) : 0 <= t -> isnumeric (encode (str_int t)) = true.
Proof.
  intros Ht. unfold str_int, encode.
  destruct t as [|p|p]; [reflexivity| |lia].
  simpl Z.to_int. unfold NilZero.string_of_int, NilZero.string_of_uint.
  pose proof (DecimalPos.Unsigned.to_uint_nonnil p) as Hnn.
  pose proof (uint_digits (Pos.to_uint p)) as Hd.
  destruct (Pos.to_uint p) eqn:E; try congruence;
    simpl in *; exact Hd.
Qed.

(** Reading back what was printed. *)
Lemma int_str_int (t : Z) : 0 <= t -> int (str_int t) = Some t.
Proof.
  intros Ht.
  assert (Hi : NilZero.int_of_string (str_int t) = Some (Z.to_int t)).
  { unfold str_int. apply NilZero.isi.
    - destruct t as [|p|p]; simpl; try discriminate.
      intros [= E]. now apply DecimalPos.Unsigned.to_uint_nonnil in E.
    - destruct t as [|p|p]; simpl; try discriminate. lia. }
  pose proof (str_int_numeric t Ht) as Hn.
  unfold int. destruct (str_int t) as [|c s] eqn:E; [discriminate|].
  rewrite Hi. simpl. rewrite DecimalZ.of_to.
  unfold encode in Hn. simpl in Hn. apply andb_true_iff in Hn as [Hc _].
  unfold is_digit in Hc.
  destruct c as [[] [] [] [] [] [] [] []]; try discriminate Hc; reflexivity.
Qed.

Lemma digits_no_semicolon (t : list ascii) :
  forallb is_digit t = true -> ~ In semicolon t.
Proof.
  intros Hd Hin. rewrite forallb_forall in Hd. now apply Hd in Hin.
Qed.

(** The timestamp of a line that starts with a printed number. *)
Lemma timestamp_of_row (t : Z) (rest : list Cell) :
  0 <= t -> timestamp_of (fields_line (Num (str_int t) :: rest)) = Some t.
Proof.
  intros Ht. pose proof (str_int_numeric t Ht) as Hn.
  assert (Hd : forallb is_digit (encode (str_int t)) = true).
  { unfold isnumeric in Hn. destruct (encode (str_int t)); [discriminate|assumption]. }
  assert (Hf : first_field (fields_line (Num (str_int t) :: rest))
               = encode (str_int t)).
  { destruct rest as [|c rest]; simpl.
    - apply first_field_all. now apply digits_no_semicolon.
    - generalize (digits_no_semicolon _ Hd).
      generalize (encode (str_int t)) as l.
      induction l as [|x l IH]; intros Hns; simpl.
      + reflexivity.
      + destruct (Ascii.eqb_spec x semicolon) as [->|_]; [destruct Hns; now left|].
        f_equal. apply IH. intros Hin. apply Hns. now right. }
  unfold timestamp_of. rewrite Hf, Hn. unfold encode.
  rewrite string_of_list_ascii_of_string. now apply int_str_int.
Qed.

(** The header line has no timestamp. *)
Lemma timestamp_of_header (fields : list string) :
  timestamp_of (fields_line (header fields)) = None.
Proof. reflexivity. Qed.

Lemma lines_of_app (a b : list (Z * list Cell)) :
  lines_of (a ++ b) = lines_of a ++ lines_of b.
Proof. unfold lines_of. apply flat_map_app. Qed.

Lemma sink_of_app (fields : list string) (a b : list (Z * list Cell)) :
  sink_of fields (a ++ b) = sink_of fields a ++ lines_of b.
Proof.
  unfold sink_of. fold (lines_of (a ++ b)) (lines_of a).
  now rewrite lines_of_app, app_assoc.
Qed.

Lemma whole_lines_app (a b : list ascii) :
  whole_lines a -> whole_lines b -> whole_lines (a ++ b).
Proof.
  intros Ha [->|[p ->]].
  - now rewrite app_nil_r.
  - right. exists (a ++ p). now rewrite app_assoc.
Qed.

Lemma whole_lines_writerow (values : list Cell) : whole_lines (writerow values).
Proof. right. now exists (fields_line values). Qed.

Lemma whole_lines_lines_of (rows : list (Z * list Cell)) :
  whole_lines (lines_of rows).
Proof.
  induction rows as [|r rows IH]; [now left|].
  apply whole_lines_app; [apply whole_lines_writerow|assumption].
Qed.

Lemma whole_lines_sink (fields : list string) (rows : list (Z * list Cell)) :
  whole_lines (sink_of fields rows).
Proof.
  apply whole_lines_app; [apply whole_lines_writerow|apply whole_lines_lines_of].
Qed.

Lemma no_newline (l : list ascii) :
  negb (existsb (Ascii.eqb newline) l) = true -> ~ In newline l.
Proof.
  intros Hn Hin. apply negb_true_iff in Hn.
  assert (Hex : existsb (Ascii.eqb newline) l = true).
  { apply existsb_exists. exists newline. split; [assumption|apply Ascii.eqb_refl]. }
  congruence.
Qed.

Lemma resume_after_snoc (rows : list (Z * list Cell)) (r : Z * list Cell) :
  resume_after (rows ++ [r]) = fst r + 1.
Proof.
  unfold resume_after. rewrite last_last.
  destruct (rows ++ [r]) eqn:E; [|reflexivity].
  now apply app_eq_nil in E as [_ E].
Qed.

(** The resume point of a sink that holds the header and rows that fit:
    the timestamp of the last row + 1, and 0 when there is no row. *)
Lemma resume_sink (w : World) (filename : string) (fields : list string)
  (rows : list (Z * list Cell)) :
  csv_files w !! filename = Some (sink_of fields rows) ->
  header_fits fields = true -> forallb row_fits rows = true ->
  resume w filename = Ok (resume_after rows).
Proof.
  intros Hfile Hhead Hrows.
  destruct rows as [|r1 rows1].
  - unfold header_fits in Hhead.
    apply andb_true_iff in Hhead as [Hhead Hascii].
    apply andb_true_iff in Hhead as [Hnl Hlen].
    unfold sink_of in Hfile. simpl in Hfile. rewrite app_nil_r in Hfile.
    unfold writerow in Hfile.
    rewrite (resume_of_line w filename [] (fields_line (header fields)) [newline]);
      [now rewrite timestamp_of_header|assumption|now left|now apply no_newline
      |now left|now apply Nat.leb_le|assumption].
  - destruct (@exists_last _ (r1 :: rows1)) as (rows' & r & E); [discriminate|].
    rewrite E in *. clear E r1 rows1.
    rewrite forallb_app in Hrows. apply andb_true_iff in Hrows as [_ Hr].
    simpl in Hr. rewrite andb_true_r in Hr. unfold row_fits in Hr.
    apply andb_true_iff in Hr as [Hr Hascii].
    apply andb_true_iff in Hr as [Hr Hlen].
    apply andb_true_iff in Hr as [Hr Hnl].
    apply andb_true_iff in Hr as [Hpos Hshape].
    destruct r as [t values]. simpl in *.
    destruct values as [|[s| |s] rest]; try discriminate.
    apply String.eqb_eq in Hshape. subst s.
    rewrite sink_of_app in Hfile. simpl in Hfile. rewrite app_nil_r in Hfile.
    unfold writerow in Hfile at 2.
    rewrite (resume_of_line w filename (sink_of fields rows')
               (fields_line (Num (str_int t) :: rest)) [newline]);
      [|assumption|apply whole_lines_sink|now apply no_newline
       |now left|now apply Nat.leb_le|assumption].
    rewrite timestamp_of_row, resume_after_snoc by lia. simpl.
    destruct (Z.eqb_spec t 0); [lia|reflexivity].
Qed.

(** *** The run of the loop, trip by trip *)

Section RunFacts.
Context {interpolation : Interpolation} {platform : Platform} {outside : Outside}.

Variable device_id : option string.
Variable module_id : option string.
Variable fields : list string.
Variable date_end : option Z.

(** What a trip that got a reply comes to, condition by condition. *)
Lemma trip_decides (s : LoopState) (ct : string) (v : Reply)
  (self1 : WeatherStation) (w1 : World) :
  ctime (ls_start s) = Some ct ->
  getMeasure (ls_self s)
    (print (ls_world s) (PrintGetmeasure (S (ls_n s)) (ls_start s) ct))
    device_id "max" (join "," fields) module_id (Some (ls_start s))
    None None false false
  = (Ok (Some v), self1, w1) ->
  let start := ls_start s in
  let unwritten := Build_Iteration start v [] start in
  (v <> ReplyNull -> status_ok v = false ->
   trip device_id module_id fields date_end s
   = Leave (Stopped StatusNotOk) [unwritten] self1 (print w1 (PrintErrorReply v))) /\
  (status_ok v = true -> empty_page v = true ->
   trip device_id module_id fields date_end s
   = Leave (Stopped EmptyPage) [unwritten] self1 w1) /\
  (forall d rows cursor e,
     v = ReplyMeasure (Some "ok") (Some (BodyDict d)) -> size d <> 0%nat ->
     write_page (sorted (map_to_list d)) start = (Ok tt, rows, cursor) ->
     date_end = Some e ->
     let it := Build_Iteration start v rows cursor in
     (e <= cursor ->
      trip device_id module_id fields date_end s
      = Leave (Stopped WindowEnd) [it] self1 w1) /\
     (cursor < e ->
      trip device_id module_id fields date_end s
      = Again it (Build_LoopState self1 w1 (S (ls_n s)) (cursor + 1)))).
Proof.
  intros Hct Hget start unwritten. unfold trip. rewrite Hct, Hget.
  subst start unwritten. split; [|split].
  - intros Hv Hst. destruct v as [|err|a r ex|st body|a r]; try reflexivity.
    + now destruct Hv.
    + destruct st as [st|]; [|reflexivity]. simpl in Hst. now rewrite Hst.
  - intros Hst He. destruct v as [|err|a r ex|st body|a r]; try discriminate.
    destruct st as [st|]; [|discriminate]. simpl in Hst. rewrite Hst.
    destruct body as [[d|[|x l]]|]; try discriminate; [|reflexivity].
    simpl in He. now rewrite He.
  - intros d rows cursor e -> Hsz Hw He. simpl.
    destruct (Nat.eqb_spec (size d) 0) as [Hz|_]; [contradiction|].
    rewrite Hw, He. split; intros Hc.
    + destruct (Z.geb_spec cursor e); [reflexivity|lia].
    + destruct (Z.geb_spec cursor e); [lia|reflexivity].
Qed.

Lemma rounds_app (s s1 s2 : LoopState) (a b : list Iteration) :
  rounds device_id module_id fields date_end s a s1 ->
  rounds device_id module_id fields date_end s1 b s2 ->
  rounds device_id module_id fields date_end s (a ++ b) s2.
Proof.
  induction 1 as [s|s s1 s3 it its Ht Hr IH]; intros Hb; [exact Hb|].
  simpl. econstructor; [exact Ht|]. now apply IH.
Qed.

Lemma runs_after (s s1 : LoopState) (a b : list Iteration) (o : Outcome)
  (self : WeatherStation) (w : World) :
  rounds device_id module_id fields date_end s a s1 ->
  runs device_id module_id fields date_end s1 o b self w ->
  runs device_id module_id fields date_end s o (a ++ b) self w.
Proof.
  intros Ha (before & s2 & last & Hb & Ht & ->).
  exists (a ++ before), s2, last. split; [now apply rounds_app with s1|].
  split; [assumption|]. now rewrite app_assoc.
Qed.

(** One trip either went round or ended the run. *)
Lemma once_runs (s s' : LoopState) (o : Outcome) (its : list Iteration) :
  once device_id module_id fields date_end s = (o, its, s') ->
  (o = OutOfFuel /\ rounds device_id module_id fields date_end s its s')
  \/ (o <> OutOfFuel /\
      runs device_id module_id fields date_end s o its (ls_self s') (ls_world s')).
Proof.
  unfold once.
  destruct (trip device_id module_id fields date_end s)
    as [o1 its1 self1 w1|it s1] eqn:E.
  - intros [= <- <- <-]. right. split; [now apply trip_leave_out in E|].
    exists [], s, its1. split; [constructor|]. split; [exact E|reflexivity].
  - intros [= <- <- <-]. left. split; [reflexivity|].
    econstructor; [exact E|constructor].
Qed.

Lemma and_then_runs (s : LoopState)
  (r : Outcome * list Iteration * LoopState)
  (k : LoopState -> Outcome * list Iteration * LoopState)
  (o : Outcome) (its : list Iteration) (s' : LoopState) :
  ((fst (fst r) = OutOfFuel /\
    rounds device_id module_id fields date_end s (snd (fst r)) (snd r))
   \/ (fst (fst r) <> OutOfFuel /\
       runs device_id module_id fields date_end s (fst (fst r)) (snd (fst r))
         (ls_self (snd r)) (ls_world (snd r)))) ->
  (forall s1 o2 its2 s2, k s1 = (o2, its2, s2) ->
     (o2 = OutOfFuel /\ rounds device_id module_id fields date_end s1 its2 s2)
     \/ (o2 <> OutOfFuel /\
         runs device_id module_id fields date_end s1 o2 its2 (ls_self s2) (ls_world s2))) ->
  and_then r k = (o, its, s') ->
  (o = OutOfFuel /\ rounds device_id module_id fields date_end s its s')
  \/ (o <> OutOfFuel /\
      runs device_id module_id fields date_end s o its (ls_self s') (ls_world s')).
Proof.
  destruct r as [[o1 its1] s1]. simpl. intros Hr Hk.
  destruct o1.
  - intros [= <- <- <-]. exact Hr.
  - intros [= <- <- <-]. exact Hr.
  - destruct Hr as [(_ & Hr)|(Hr & _)]; [|now destruct Hr].
    destruct (k s1) as [[o2 its2] s2] eqn:Ek.
    intros [= <- <- <-].
    destruct (Hk _ _ _ _ Ek) as [(-> & H2)|(Ho & H2)].
    + left. split; [reflexivity|]. now apply rounds_app with s1.
    + right. split; [assumption|]. now apply runs_after with s1.
Qed.

(** Every run of the loop is made of trips that went round, followed,
    unless the fuel ran out, by the one that left the loop. *)
Lemma while_true_runs (fuel : positive) :
  forall s o its s',
    while_true device_id module_id fields date_end fuel s = (o, its, s') ->
    (o = OutOfFuel /\ rounds device_id module_id fields date_end s its s')
    \/ (o <> OutOfFuel /\
        runs device_id module_id fields date_end s o its (ls_self s') (ls_world s')).
Proof.
  induction fuel as [p IH|p IH|]; intros s o its s'; simpl.
  - intros E. eapply and_then_runs; [| |exact E].
    + destruct (once _ _ _ _ s) as [[o1 its1] s1] eqn:E1. simpl.
      now apply once_runs in E1.
    + intros s1 o2 its2 s2 E2. eapply and_then_runs; [| |exact E2].
      * destruct (while_true _ _ _ _ p s1) as [[o3 its3] s3] eqn:E3. simpl.
        now apply IH in E3.
      * intros s3 o4 its4 s4 E4. now apply IH in E4.
  - intros E. eapply and_then_runs; [| |exact E].
    + destruct (while_true _ _ _ _ p s) as [[o1 its1] s1] eqn:E1. simpl.
      now apply IH in E1.
    + intros s1 o2 its2 s2 E2. now apply IH in E2.
  - intros E. now apply once_runs in E.
Qed.

(** The trips of a run are determined by the loop variables it starts
    from. *)
Lemma rounds_leave_unique (s s1 : LoopState) (a : list Iteration) :
  rounds device_id module_id fields date_end s a s1 ->
  forall o l self w b s2 o' l' self' w',
    trip device_id module_id fields date_end s1 = Leave o l self w ->
    rounds device_id module_id fields date_end s b s2 ->
    trip device_id module_id fields date_end s2 = Leave o' l' self' w' ->
    a = b /\ s1 = s2.
Proof.
  induction 1 as [s|s s1 s3 it its Ht Hr IH];
    intros o l self w b s2 o' l' self' w' Hl Hb Hl'.
  - inversion Hb as [|? ? ? ? ? Ht' Hr']; subst; [split; reflexivity|].
    rewrite Hl in Ht'. discriminate.
  - inversion Hb as [|? ? ? ? ? Ht' Hr']; subst.
    + rewrite Hl' in Ht. discriminate.
    + rewrite Ht in Ht'. injection Ht' as <- <-.
      destruct (IH _ _ _ _ _ _ _ _ _ _ Hl Hr' Hl') as (-> & ->).
      split; reflexivity.
Qed.

Lemma runs_unique (s : LoopState) (o o' : Outcome) (its its' : list Iteration)
  (self self' : WeatherStation) (w w' : World) :
  runs device_id module_id fields date_end s o its self w ->
  runs device_id module_id fields date_end s o' its' self' w' ->
  o = o' /\ its = its' /\ self = self' /\ w = w'.
Proof.
  intros (a & s1 & l & Ha & Hl & ->) (b & s2 & l' & Hb & Hl' & ->).
  destruct (rounds_leave_unique _ _ _ Ha _ _ _ _ _ _ _ _ _ _ Hl Hb Hl') as (-> & ->).
  rewrite Hl in Hl'. injection Hl' as <- <- <- <-. repeat split.
Qed.

(** The run of [dl_csv] is the run of its loop from the resume point. *)
Lemma dl_csv_runs (self : WeatherStation) (w : World) (filename : string)
  (start : Z) :
  resume w filename = Ok start ->
  let run := dl_csv device_id module_id fields date_end self w filename in
  exists w1,
    runs device_id module_id fields date_end (Build_LoopState self w 0 start)
      (outcome run) (iterations run) (run_self run) w1 /\
    run_world run
    = write_csv w1 filename
        (match csv_files w !! filename with
         | Some b => b
         | None => []
         end
         ++ (if wrote_header run then writerow (header fields) else [])
         ++ lines_of (rows_of (iterations run))).
Proof.
  intros Hres. unfold dl_csv. rewrite Hres.
  destruct (while_true _ _ _ _ _ _) as [[o its] s'] eqn:E.
  pose proof (while_true_enough device_id module_id fields date_end
                (Build_LoopState self w 0 start) s' o its E) as Hfuel.
  simpl. apply while_true_runs in E as [(-> & _)|(_ & Hr)]; [now destruct Hfuel|].
  exists (ls_world s'). split; [exact Hr|reflexivity].
Qed.

End RunFacts.

(** *** Keys with the same number of digits *)

Lemma digits_value_acc (d : uint) :
  forall acc, Npos (Pos.of_uint_acc d acc) = digits_value d (Npos acc).
Proof.
  induction d; intros acc; simpl; try reflexivity; rewrite IHd; f_equal; lia.
Qed.

Lemma digits_value_of_uint (d : uint) : Pos.of_uint d = digits_value d 0.
Proof.
  induction d; simpl; try reflexivity; try assumption;
    rewrite digits_value_acc; reflexivity.
Qed.

Lemma digits_value_to_uint (p : positive) : digits_value (Pos.to_uint p) 0 = Npos p.
Proof. rewrite <- digits_value_of_uint. apply DecimalPos.Unsigned.of_to. Qed.

Lemma string_of_uint_length (d : uint) :
  String.length (NilEmpty.string_of_uint d) = Decimal.nb_digits d.
Proof. induction d; simpl; congruence. Qed.

(** The digits before count for more than the digits that follow. *)
Lemma digits_value_split (d : uint) :
  forall acc,
    (digits_value d acc
     = acc * 10 ^ N.of_nat (Decimal.nb_digits d) + digits_value d 0
     /\ digits_value d 0 < 10 ^ N.of_nat (Decimal.nb_digits d))%N.
Proof.
  induction d; intros acc;
    try (simpl; split; [lia|reflexivity]);
    (cbn [digits_value Decimal.nb_digits];
     rewrite Nat2N.inj_succ, N.pow_succ_r';
     destruct (IHd (10 * acc)%N) as (E0 & Hlt);
     match goal with
     | |- context [digits_value d (10 * acc + ?k)%N] =>
         destruct (IHd (10 * acc + k)%N) as (E1 & _);
         destruct (IHd (10 * 0 + k)%N) as (E2 & _);
         rewrite E1, E2
     | _ => destruct (IHd (10 * 0)%N) as (E2 & _); rewrite E0, E2
     end;
     set (P := (10 ^ N.of_nat (Decimal.nb_digits d))%N) in *;
     set (V := digits_value d 0) in *; split; nia).
Qed.

Lemma digits_value_lt (d1 d2 : uint) (a1 a2 : N) :
  Decimal.nb_digits d1 = Decimal.nb_digits d2 -> (a1 < a2)%N ->
  (digits_value d1 a1 < digits_value d2 a2)%N.
Proof.
  intros Hn Ha.
  destruct (digits_value_split d1 a1) as (E1 & H1).
  destruct (digits_value_split d2 a2) as (E2 & H2).
  rewrite E1, E2, Hn in *.
  set (P := (10 ^ N.of_nat (Decimal.nb_digits d2))%N) in *. nia.
Qed.

(** Between two strings of as many digits, the order of the texts is the
    order of the numbers. *)
Lemma digits_compare (d1 : uint) :
  forall d2 acc,
    Decimal.nb_digits d1 = Decimal.nb_digits d2 ->
    String.compare (NilEmpty.string_of_uint d1) (NilEmpty.string_of_uint d2)
    = N.compare (digits_value d1 acc) (digits_value d2 acc).
Proof.
  induction d1; destruct d2; intros acc Hn; simpl in Hn; try discriminate;
    try (simpl; symmetry; apply N.compare_refl);
    injection Hn as Hn;
    cbn [NilEmpty.string_of_uint digits_value String.compare];
    match goal with
    | |- context [Ascii.compare ?a ?b] =>
        let r := eval vm_compute in (Ascii.compare a b) in
        change (Ascii.compare a b) with r
    end;
    cbv iota;
    first
      [ now apply IHd1
      | symmetry; apply N.compare_lt_iff; apply digits_value_lt; [assumption|lia]
      | symmetry; apply N.compare_gt_iff; apply digits_value_lt;
        [symmetry; assumption|lia] ].
Qed.

Lemma str_int_pos (p : positive) :
  str_int (Zpos p) = NilEmpty.string_of_uint (Pos.to_uint p).
Proof.
  unfold str_int. simpl. unfold NilZero.string_of_uint.
  destruct (Pos.to_uint p) eqn:E; try reflexivity.
  now apply DecimalPos.Unsigned.to_uint_nonnil in E.
Qed.

(** Two positive timestamps with the same number of digits are in the
    same order as texts as they are as numbers. *)
Lemma text_before_same_digits (a b : Z) :
  0 < a < b ->
  String.length (str_int a) = String.length (str_int b) ->
  text_before a b.
Proof.
  intros (Ha & Hab) Hlen. unfold text_before.
  destruct a as [|p|p]; try lia. destruct b as [|q|q]; try lia.
  rewrite !str_int_pos in *. rewrite !string_of_uint_length in Hlen.
  unfold String.leb.
  rewrite (digits_compare _ _ 0%N) by (symmetry; exact Hlen).
  rewrite !digits_value_to_uint.
  assert (Hc : (N.pos q ?= N.pos p)%N = Gt) by (apply N.compare_gt_iff; lia).
  now rewrite Hc.
Qed.

(** *** The two-page scenario *)

Lemma nth_single {A} (k : nat) (x d : A) : nth k [x] (List.last [x] d) = x.
Proof. destruct k as [|[|k]]; reflexivity. Qed.

(** Two keys in the order of their texts. *)
Lemma leb_false_lt (a b : string) :
  String.leb b a = false -> String.leb a b = true /\ a <> b.
Proof.
  unfold String.leb. intros H.
  destruct (String.compare b a) eqn:E; try discriminate. split.
  - rewrite String.compare_antisym, E. reflexivity.
  - intros ->. pose proof (String.compare_antisym b b) as Ha.
    rewrite E in Ha. discriminate.
Qed.

Lemma sorted_pair (k1 k2 : string) (v1 v2 : list Cell) :
  String.leb k2 k1 = false ->
  sorted (map_to_list (<[k1 := v1]> (<[k2 := v2]> (∅ : gmap string (list Cell)))))
  = [(k1, v1); (k2, v2)].
Proof.
  intros H. destruct (leb_false_lt _ _ H) as (Hle & Hne).
  assert (Hp : Permutation
                 (map_to_list (<[k1 := v1]> (<[k2 := v2]> (∅ : gmap string (list Cell)))))
                 [(k1, v1); (k2, v2)]).
  { rewrite map_to_list_insert.
    - rewrite insert_empty, map_to_list_singleton. reflexivity.
    - rewrite lookup_insert_ne by congruence. apply lookup_empty. }
  apply Permutation_sym, Permutation_length_2_inv in Hp as [-> | ->];
    unfold sorted; simpl.
  - now rewrite Hle.
  - now rewrite H.
Qed.

Section TwoPages.
Context {interpolation : Interpolation} {platform : Platform}.

Lemma write_pair (ka kb : string) (ta tb : Z) (va vb : list Cell)
  (da db : string) (start : Z) :
  int ka = Some ta -> int kb = Some tb ->
  strftime ta = Some da -> strftime tb = Some db ->
  start < ta -> ta < tb ->
  write_page [(ka, va); (kb, vb)] start
  = (Ok tt,
     [(ta, Num (str_int ta) :: Text da :: va);
      (tb, Num (str_int tb) :: Text db :: vb)], tb).
Proof.
  intros Ha Hb Hda Hdb H1 H2. simpl. rewrite Ha, Hda, Hb, Hdb.
  destruct (Z.ltb_spec start ta); [|lia].
  destruct (Z.ltb_spec ta tb); [|lia]. reflexivity.
Qed.

(** The client of the scenario holds a token that is valid at every
    reading of the scripted clock. *)
Lemma client_token (replies : list Reply) (w : World) :
  accessToken (outside := scripted [inject_Z 1478000000] replies) client w
  = (Ok (TokenStr "access"), client, tick w).
Proof.
  unfold accessToken.
  change (_client_id client) with (Some "id").
  change (_client_secret client) with (Some "secret").
  change (_access_token client) with (Some "access").
  change (_expiration client) with (Some (inject_Z 2000000000)).
  change (time_time (clock w))
    with (nth (clock w) [inject_Z 1478000000]
            (List.last [inject_Z 1478000000] 0%Q)).
  rewrite nth_single. reflexivity.
Qed.

Lemma client_page (replies : list Reply) (w : World) (d : string)
  (m : option string) (fields : list string) (start : Z) :
  join "," fields <> "*" ->
  getMeasure (outside := scripted [inject_Z 1478000000] replies) client w
    (Some d) "max" (join "," fields) m (Some start) None None false false
  = (Ok (Some (nth (length (sent w)) replies ReplyNull)), client,
     record_request (tick w) (page_request "access" d m fields start)).
Proof.
  intros Hf. unfold getMeasure. rewrite client_token.
  apply String.eqb_neq in Hf. rewrite Hf. unfold _postRequest, page_request.
  simpl. destruct start; reflexivity.
Qed.

End TwoPages.

Section TwoPageRun.
Context {interpolation : Interpolation} {platform : Platform}.

Variable t0 : Z.
Variables v1 v2 v3 v4 : list Cell.
Variable d : string.
Variable m : option string.
Variable fields : list string.

(** A trip of the scenario: the page asked from [start] holds two keys
    above [start], in the order of their texts. *)
Lemma two_pages_trip (w : World) (n : nat) (start ta tb : Z)
  (va vb : list Cell) (ct da db : string) :
  0 <= start -> start < ta -> ta < tb ->
  text_before ta tb ->
  ctime start = Some ct -> strftime ta = Some da -> strftime tb = Some db ->
  join "," fields <> "*" ->
  nth (length (sent w))
    [page_of [(t0, v1); (t0 + 60, v2)]; page_of [(t0 + 120, v3); (t0 + 3600, v4)]]
    ReplyNull
  = page_of [(ta, va); (tb, vb)] ->
  let it := Build_Iteration start (page_of [(ta, va); (tb, vb)])
              [(ta, Num (str_int ta) :: Text da :: va);
               (tb, Num (str_int tb) :: Text db :: vb)] tb in
  let w1 := record_request (tick (print w (PrintGetmeasure (S n) start ct)))
              (page_request "access" d m fields start) in
  let s := Build_LoopState client w n start in
  (t0 + 3600 <= tb ->
   trip (outside := two_pages t0 v1 v2 v3 v4) (Some d) m fields (Some (t0 + 3600)) s
   = Leave (Stopped WindowEnd) [it] client w1) /\
  (tb < t0 + 3600 ->
   trip (outside := two_pages t0 v1 v2 v3 v4) (Some d) m fields (Some (t0 + 3600)) s
   = Again it (Build_LoopState client w1 (S n) (tb + 1))).
Proof.
  intros H0 H1 H2 Hleb Hct Hda Hdb Hf Hnth it w1 s.
  assert (Hget :
    getMeasure (outside := two_pages t0 v1 v2 v3 v4) (ls_self s)
      (print (ls_world s) (PrintGetmeasure (S (ls_n s)) (ls_start s) ct))
      (Some d) "max" (join "," fields) m (Some (ls_start s)) None None false false
    = (Ok (Some (page_of [(ta, va); (tb, vb)])), client, w1)).
  { unfold two_pages. rewrite client_page by assumption.
    simpl sent. simpl ls_world. rewrite Hnth. reflexivity. }
  destruct (trip_decides (outside := two_pages t0 v1 v2 v3 v4) (Some d) m fields
              (Some (t0 + 3600)) s ct _ _ _ Hct Hget) as (_ & _ & H3).
  apply (H3 (<[str_int ta := va]> (<[str_int tb := vb]> ∅))).
  - reflexivity.
  - intros Hz. apply map_size_empty_inv in Hz. now apply insert_non_empty in Hz.
  - rewrite sorted_pair by assumption.
    apply write_pair; try assumption; apply int_str_int; lia.
  - reflexivity.
Qed.

(** The run of the scenario. *)
Lemma two_pages_run (w : World) (filename : string) (c0 c1 d1 d2 d3 d4 : string) :
  0 < t0 ->
  text_before t0 (t0 + 60) ->
  text_before (t0 + 120) (t0 + 3600) ->
  ctime 0 = Some c0 -> ctime (t0 + 61) = Some c1 ->
  strftime t0 = Some d1 -> strftime (t0 + 60) = Some d2 ->
  strftime (t0 + 120) = Some d3 -> strftime (t0 + 3600) = Some d4 ->
  join "," fields <> "*" ->
  empty_sink w filename -> sent w = [] ->
  let run := dl_csv (outside := two_pages t0 v1 v2 v3 v4) (Some d) m fields
               (Some (t0 + 3600)) client w filename in
  let rows := [(t0, Num (str_int t0) :: Text d1 :: v1);
               (t0 + 60, Num (str_int (t0 + 60)) :: Text d2 :: v2);
               (t0 + 120, Num (str_int (t0 + 120)) :: Text d3 :: v3);
               (t0 + 3600, Num (str_int (t0 + 3600)) :: Text d4 :: v4)] in
  outcome run = Stopped WindowEnd /\
  map it_start (iterations run) = [0; t0 + 61] /\
  rows_of (iterations run) = rows /\
  sent (run_world run)
  = [page_request "access" d m fields 0;
     page_request "access" d m fields (t0 + 61)] /\
  csv_files (run_world run) !! filename = Some (sink_of fields rows).
Proof.
  intros Ht0 Hk1 Hk2 Hc0 Hc1 Hd1 Hd2 Hd3 Hd4 Hf Hsink Hsent run rows.
  pose proof (resume_of_nothing w filename Hsink) as Hres.
  destruct (dl_csv_runs (outside := two_pages t0 v1 v2 v3 v4) (Some d) m fields
              (Some (t0 + 3600)) client w filename 0 Hres) as (wl & Hruns & Hworld).
  destruct (dl_csv_trips (outside := two_pages t0 v1 v2 v3 v4) (Some d) m fields
              (Some (t0 + 3600)) client w filename 0 Hres) as (_ & _ & _ & Hhead).
  fold run in Hruns, Hworld, Hhead.
  destruct (two_pages_trip w 0 0 t0 (t0 + 60) v1 v2 c0 d1 d2) as (_ & T1);
    try assumption; try lia; [now rewrite Hsent|].
  specialize (T1 ltac:(lia)).
  replace (t0 + 60 + 1) with (t0 + 61) in T1 by lia.
  match type of T1 with
  | _ = Again ?it (Build_LoopState _ ?w1 _ _) =>
      destruct (two_pages_trip w1 1 (t0 + 61) (t0 + 120) (t0 + 3600)
                  v3 v4 c1 d3 d4) as (T2 & _);
        try assumption; try lia; [simpl; now rewrite Hsent|];
      specialize (T2 ltac:(lia))
  end.
  match type of T1 with
  | _ = Again ?it1 ?s1 =>
      match type of T2 with
      | _ = Leave _ [?it2] _ ?w2 =>
          assert (Hr : runs (outside := two_pages t0 v1 v2 v3 v4) (Some d) m fields
                         (Some (t0 + 3600)) (Build_LoopState client w 0 0)
                         (Stopped WindowEnd) [it1; it2] client w2)
            by (exists [it1], s1, [it2];
                split; [econstructor; [exact T1|constructor]|];
                split; [exact T2|reflexivity])
      end
  end.
  destruct (runs_unique _ _ _ _ _ _ _ _ _ _ _ _ _ Hruns Hr) as (Ho & Hits & _ & ->).
  assert (Hold : match csv_files w !! filename with
                 | Some b => b
                 | None => []
                 end = []) by (destruct Hsink as [-> | ->]; reflexivity).
  rewrite Hold in Hworld, Hhead. simpl in Hhead. rewrite Hhead, Hits in Hworld.
  split; [exact Ho|]. rewrite Hits, Hworld.
  split; [reflexivity|].
  split; [reflexivity|].
  split; [simpl; now rewrite Hsent|].
  simpl. rewrite lookup_insert_eq. reflexivity.
Qed.

End TwoPageRun.

(** *** The stop conditions *)

Section StopConditions.
Context {interpolation : Interpolation} {platform : Platform} {outside : Outside}.

Variable device_id : option string.
Variable module_id : option string.
Variable fields : list string.

(** C6 (amended).  With [date_end] given, a trip of the loop of [dl_csv]
    that got a reply leaves the loop through a [break] in exactly three
    cases, tested in this order: the status of the reply is missing or not
    "ok" (the reply is printed, nothing is written on this trip, and the
    rows of the earlier trips stay); the page has no entry; after the rows
    of the page were written, the cursor has reached or passed [date_end].
    Otherwise the trip goes round and the next one asks from the cursor
    plus one.  The cursor is the highest of the timestamp the trip asked
    from and the timestamps it wrote; for a page in ascending order at or
    after the timestamp asked from it is the highest timestamp written.
    A run of [dl_csv] always comes to an end: it is made of trips that
    went round, each asking from where the one before it ended, followed
    by the first trip that met one of the conditions or raised an
    exception; a run that ended through a [break] ended as the condition
    its last trip met, and whatever the trips wrote is in the file,
    however the run ended.  In the scenario - an empty sink, [date_end]
    at [t0 + 3600], the pages {t0, t0+60} and {t0+120, t0+3600}, the keys
    of each page being in the same order as texts as they are as numbers -
    the run writes the header and exactly the four rows in the order of
    their timestamps, and stops after the second page because the cursor
    has reached [date_end].  Two positive timestamps with the same number
    of digits are in that same order. *)
Theorem loop_stop_conditions (date_end : option Z) (self : WeatherStation)
  (w : World) (filename : string) :
  let run := dl_csv device_id module_id fields date_end self w filename in
  (forall (s : LoopState) (ct : string) (v : Reply)
          (self1 : WeatherStation) (w1 : World),
     ctime (ls_start s) = Some ct ->
     getMeasure (ls_self s)
       (print (ls_world s) (PrintGetmeasure (S (ls_n s)) (ls_start s) ct))
       device_id "max" (join "," fields) module_id (Some (ls_start s))
       None None false false
     = (Ok (Some v), self1, w1) ->
     let start := ls_start s in
     let unwritten := Build_Iteration start v [] start in
     (v <> ReplyNull -> status_ok v = false ->
      trip device_id module_id fields date_end s
      = Leave (Stopped StatusNotOk) [unwritten] self1
          (print w1 (PrintErrorReply v))) /\
     (status_ok v = true -> empty_page v = true ->
      trip device_id module_id fields date_end s
      = Leave (Stopped EmptyPage) [unwritten] self1 w1) /\
     (forall d rows cursor e,
        v = ReplyMeasure (Some "ok") (Some (BodyDict d)) -> size d <> 0%nat ->
        write_page (sorted (map_to_list d)) start = (Ok tt, rows, cursor) ->
        date_end = Some e ->
        let it := Build_Iteration start v rows cursor in
        cursor = highest start rows /\
        (e <= cursor ->
         trip device_id module_id fields date_end s
         = Leave (Stopped WindowEnd) [it] self1 w1) /\
        (cursor < e ->
         trip device_id module_id fields date_end s
         = Again it (Build_LoopState self1 w1 (S (ls_n s)) (cursor + 1))))) /\
  outcome run <> OutOfFuel /\
  (forall start, resume w filename = Ok start ->
     exists w1,
       runs device_id module_id fields date_end (Build_LoopState self w 0 start)
         (outcome run) (iterations run) (run_self run) w1 /\
       run_world run
       = write_csv w1 filename
           (match csv_files w !! filename with
            | Some b => b
            | None => []
            end
            ++ (if wrote_header run then writerow (header fields) else [])
            ++ lines_of (rows_of (iterations run)))) /\
  Forall (fun it => stop_condition date_end it = None)
    (removelast (iterations run)) /\
  (forall why, outcome run = Stopped why ->
     exists its last,
       iterations run = its ++ [last] /\
       stop_condition date_end last = Some why) /\
  Forall (fun it => it_cursor it = highest (it_start it) (it_rows it))
    (iterations run) /\
  (forall it, In it (iterations run) -> it_rows it <> [] ->
     Forall (fun r => it_start it <= fst r) (it_rows it) ->
     StronglySorted Z.lt (map fst (it_rows it)) ->
     it_cursor it = fst (List.last (it_rows it) (0, []))) /\
  (forall start, resume w filename = Ok start ->
     chained start (iterations run) /\
     csv_files (run_world run) !! filename
     = Some (match csv_files w !! filename with
             | Some b => b
             | None => []
             end
             ++ (if wrote_header run then writerow (header fields) else [])
             ++ lines_of (rows_of (iterations run)))) /\
  (forall (t0 : Z) (v1 v2 v3 v4 : list Cell) (d : string) (m : option string)
          (columns : list string) (w0 : World) (sink : string)
          (c0 c1 d1 d2 d3 d4 : string),
     0 < t0 ->
     text_before t0 (t0 + 60) ->
     text_before (t0 + 120) (t0 + 3600) ->
     ctime 0 = Some c0 -> ctime (t0 + 61) = Some c1 ->
     strftime t0 = Some d1 -> strftime (t0 + 60) = Some d2 ->
     strftime (t0 + 120) = Some d3 -> strftime (t0 + 3600) = Some d4 ->
     join "," columns <> "*" ->
     empty_sink w0 sink -> sent w0 = [] ->
     let scenario := dl_csv (outside := two_pages t0 v1 v2 v3 v4) (Some d) m
                       columns (Some (t0 + 3600)) client w0 sink in
     let rows := [(t0, Num (str_int t0) :: Text d1 :: v1);
                  (t0 + 60, Num (str_int (t0 + 60)) :: Text d2 :: v2);
                  (t0 + 120, Num (str_int (t0 + 120)) :: Text d3 :: v3);
                  (t0 + 3600, Num (str_int (t0 + 3600)) :: Text d4 :: v4)] in
     outcome scenario = Stopped WindowEnd /\
     map it_start (iterations scenario) = [0; t0 + 61] /\
     rows_of (iterations scenario) = rows /\
     sent (run_world scenario)
     = [page_request "access" d m columns 0;
        page_request "access" d m columns (t0 + 61)] /\
     csv_files (run_world scenario) !! sink = Some (sink_of columns rows)) /\
  (forall a b : Z,
     0 < a < b -> String.length (str_int a) = String.length (str_int b) ->
     text_before a b).
Proof.
  intros run. split.
  { intros s ct v self1 w1 Hct Hget start unwritten.
    destruct (trip_decides device_id module_id fields date_end s ct v self1 w1
                Hct Hget) as (H1 & H2 & H3).
    split; [exact H1|]. split; [exact H2|].
    intros d rows cursor e Hv Hsz Hw He it.
    split; [exact (write_page_highest _ _ _ _ _ Hw)|].
    exact (H3 d rows cursor e Hv Hsz Hw He). }
  destruct (resume w filename) as [start|e] eqn:Hres.
  - destruct (dl_csv_trips device_id module_id fields date_end self w filename
                start Hres) as (Htrips & Hfuel & Hfile & _).
    fold run in Htrips, Hfuel, Hfile.
    destruct (trips_stop _ _ _ _ Htrips) as (Hnone & Hstop).
    destruct (trips_chained _ _ _ _ Htrips) as (Hchain & Hcur).
    split; [exact Hfuel|]. split.
    { intros start' [= <-].
      exact (dl_csv_runs device_id module_id fields date_end self w filename
               start Hres). }
    split; [exact Hnone|]. split; [exact Hstop|].
    split; [exact Hcur|]. split.
    { intros it Hin Hne Hall Hs.
      rewrite List.Forall_forall in Hcur. rewrite (Hcur it Hin).
      now apply highest_last. }
    split; [intros start' [= <-]; split; assumption|].
    split; [|exact text_before_same_digits].
    intros t0 v1 v2 v3 v4 d m columns w0 sink c0 c1 d1 d2 d3 d4.
    apply two_pages_run.
  - split; [subst run; unfold dl_csv; rewrite Hres; discriminate|].
    split; [discriminate|].
    subst run. unfold dl_csv. rewrite Hres. simpl.
    split; [constructor|]. split; [discriminate|]. split; [constructor|].
    split; [intros it []|]. split; [discriminate|].
    split; [|exact text_before_same_digits].
    intros t0 v1 v2 v3 v4 d m columns w0 sink c0 c1 d1 d2 d3 d4.
    apply two_pages_run.
Qed.

End StopConditions.

Section Scenario.
#[local] Existing Instance percent_free.
#[local] Existing Instance utc.

(** The scenario at [T0]: the hypotheses on the keys and on the dates
    hold there, four rows are written in the order of their timestamps
    and two requests are posted. *)
Lemma loop_stop_conditions_witness :
  let scenario :=
    dl_csv (outside := two_pages T0 [Num "21.5"] [Num "21.4"] [Num "21.4"] [Num "20.9"])
      (Some station_id) None ["Temperature"] (Some (T0 + 3600)) client nothing
      station_csv in
  let rows :=
    [(T0, Num (str_int T0) :: Text "2016-11-01 11:33:20" :: [Num "21.5"]);
     (T0 + 60, Num (str_int (T0 + 60)) :: Text "2016-11-01 11:34:20" :: [Num "21.4"]);
     (T0 + 120, Num (str_int (T0 + 120)) :: Text "2016-11-01 11:35:20" :: [Num "21.4"]);
     (T0 + 3600, Num (str_int (T0 + 3600)) :: Text "2016-11-01 12:33:20" :: [Num "20.9"])] in
  outcome scenario = Stopped WindowEnd /\
  map it_start (iterations scenario) = [0; T0 + 61] /\
  rows_of (iterations scenario) = rows /\
  sent (run_world scenario)
  = [page_request "access" station_id None ["Temperature"] 0;
     page_request "access" station_id None ["Temperature"] (T0 + 61)] /\
  csv_files (run_world scenario) !! station_csv
  = Some (sink_of ["Temperature"] rows).
Proof.
  pose proof (loop_stop_conditions (outside := scenario_server) (Some station_id)
                None ["Temperature"] (Some (T0 + 3600)) client nothing station_csv)
    as (_ & _ & _ & _ & _ & _ & _ & _ & Hscenario & Hdigits).
  apply (Hscenario T0 [Num "21.5"] [Num "21.4"] [Num "21.4"] [Num "20.9"]
           station_id None ["Temperature"] nothing station_csv
           "Thu Jan  1 00:00:00 1970" "Tue Nov  1 11:34:21 2016").
  - reflexivity.
  - apply Hdigits; [unfold T0; lia|reflexivity].
  - apply Hdigits; [unfold T0; lia|reflexivity].
  - vm_compute. reflexivity.
  - vm_compute. reflexivity.
  - vm_compute. reflexivity.
  - vm_compute. reflexivity.
  - vm_compute. reflexivity.
  - vm_compute. reflexivity.
  - vm_compute. discriminate.
  - left. reflexivity.
  - reflexivity.
Defined.

(** Three runs that the three conditions do not account for.  The loop
    stops as for the third condition although the highest timestamp
    written, 10, is below [date_end], 50: the cursor, which started from
    the resume point 100, is what is compared.  Without a [date_end] the
    run ends on an exception after the first page, no condition being
    met.  With keys of nine and of ten digits on one page the rows are
    not written in the order of their timestamps. *)
Lemma loop_leaves_otherwise :
  (let run := dl_csv (outside := early_page) (Some station_id) None
                ["Temperature"] (Some 50) client
                (write_csv nothing station_csv row_99) station_csv in
   outcome run = Stopped WindowEnd /\
   map it_start (iterations run) = [100] /\
   map fst (rows_of (iterations run)) = [10] /\
   map it_cursor (iterations run) = [100]) /\
  (let run := dl_csv
                (outside := two_pages T0 [Num "21.5"] [Num "21.4"] [Num "21.4"] [Num "20.9"])
                (Some station_id) None ["Temperature"] None client nothing
                station_csv in
   outcome run = Raised TypeError /\
   map fst (rows_of (iterations run)) = [T0; T0 + 60] /\
   Forall (fun it => stop_condition None it = None) (iterations run)) /\
  (let run := dl_csv
                (outside := two_pages 999999879 [Num "21.5"] [Num "21.4"] [Num "21.4"] [Num "20.9"])
                (Some station_id) None ["Temperature"] (Some (999999879 + 3600))
                client nothing station_csv in
   map fst (rows_of (iterations run))
   = [999999879; 999999939; 1000003479; 999999999]).
Proof.
  split; [|split].
  - vm_compute. repeat split; reflexivity.
  - split; [vm_compute; reflexivity|]. split; [vm_compute; reflexivity|].
    vm_compute. repeat constructor.
  - vm_compute. reflexivity.
Qed.

End Scenario.

(** *** Runs that keep the sink in ascending order *)

Lemma sorted_below_resume (l : list (Z * list Cell)) :
  StronglySorted Z.lt (map fst l) ->
  Forall (fun r => fst r < resume_after l) l.
Proof.
  intros Hs. destruct l as [|r1 l1]; [constructor|].
  destruct (@exists_last _ (r1 :: l1)) as (l' & r & E); [discriminate|].
  rewrite E in *. clear E r1 l1. rewrite resume_after_snoc.
  apply Forall_app. split.
  - rewrite map_app in Hs. rewrite List.Forall_forall. intros x Hx.
    assert (fst x < fst r); [|lia].
    apply (StronglySorted_app_1_elem_of _ _ _ _ _ Hs).
    + apply list_elem_of_In, in_map_iff. now exists x.
    + simpl. apply list_elem_of_In. now left.
  - repeat constructor. lia.
Qed.

Lemma writerow_nonempty (values : list Cell) : length (writerow values) <> 0%nat.
Proof. unfold writerow. rewrite length_app. simpl. lia. Qed.

Lemma sink_of_nonempty (fields : list string) (rows : list (Z * list Cell)) :
  (length (sink_of fields rows) =? 0)%nat = false.
Proof.
  apply Nat.eqb_neq. unfold sink_of. rewrite length_app.
  pose proof (writerow_nonempty (header fields)). lia.
Qed.

Section ExportFacts.
Context {interpolation : Interpolation} {platform : Platform} {outside : Outside}.

Variable device_id : option string.
Variable module_id : option string.
Variable fields : list string.

(** C1 (amended).  Take a sink that is absent or empty, or that holds the
    header and rows, each on a line of at most 100 ASCII bytes, with
    positive timestamps in strictly ascending order.  Take a run of
    [dl_csv] on it in which every page the server returned was honest
    (positive timestamps at or after the cursor asked for, the keys in
    the same order as texts and as numbers) and every row written fits
    such a line.  Then the run resumed one past the last timestamp of the
    sink (at 0 when it had no row); the rows it wrote have strictly
    ascending timestamps, all at or after the resume point, so the sink
    after the run holds no timestamp twice; and the sink after the run,
    or after a part of the run cut after any whole row, is again such a
    sink whose resume point is above every timestamp it holds, and a run
    on it whose pages are honest appends only rows at or after that
    resume point: no row with a timestamp already present. *)
Theorem export_keeps_sink_ascending (date_end : option Z)
  (self : WeatherStation) (w : World) (filename : string)
  (rows0 : list (Z * list Cell)) :
  sink_holds fields rows0 (csv_files w !! filename) ->
  header_fits fields = true ->
  forallb row_fits rows0 = true ->
  StronglySorted Z.lt (map fst rows0) ->
  forallb honest_iteration
    (iterations (dl_csv device_id module_id fields date_end self w filename))
  = true ->
  forallb row_fits
    (rows_of (iterations (dl_csv device_id module_id fields date_end self w filename)))
  = true ->
  let run := dl_csv device_id module_id fields date_end self w filename in
  let new := rows_of (iterations run) in
  resume w filename = Ok (resume_after rows0) /\
  StronglySorted Z.lt (map fst (rows0 ++ new)) /\
  Forall (fun r => resume_after rows0 <= fst r) new /\
  csv_files (run_world run) !! filename = Some (sink_of fields (rows0 ++ new)) /\
  (forall cut rest self2 w2,
     new = cut ++ rest ->
     csv_files w2 !! filename = Some (sink_of fields (rows0 ++ cut)) ->
     resume w2 filename = Ok (resume_after (rows0 ++ cut)) /\
     StronglySorted Z.lt (map fst (rows0 ++ cut)) /\
     Forall (fun r => fst r < resume_after (rows0 ++ cut)) (rows0 ++ cut) /\
     (forallb honest_iteration
        (iterations (dl_csv device_id module_id fields date_end self2 w2 filename))
      = true ->
      Forall (fun r => resume_after (rows0 ++ cut) <= fst r)
        (rows_of (iterations
           (dl_csv device_id module_id fields date_end self2 w2 filename))))).
Proof.
  intros Hsink Hhead Hfit0 Hsorted0 Hhonest Hfit1 run new.
  assert (Hres : resume w filename = Ok (resume_after rows0)).
  { destruct Hsink as [(-> & Hn)|Hs].
    - now apply resume_of_nothing.
    - now apply (resume_sink w filename fields rows0). }
  destruct (dl_csv_trips device_id module_id fields date_end self w filename
              _ Hres) as (Htrips & _ & Hfile & Hhdr).
  fold run in Htrips, Hfile, Hhdr.
  destruct (trips_rows _ _ _ _ Htrips Hhonest) as (Hs1 & Hall1).
  fold new in Hs1, Hall1.
  assert (Hbelow : Forall (fun r => fst r < resume_after rows0) rows0)
    by now apply sorted_below_resume.
  assert (Hall : StronglySorted Z.lt (map fst (rows0 ++ new))).
  { rewrite map_app. apply StronglySorted_app_2; [|assumption|assumption].
    intros x1 x2 Hx1 Hx2.
    apply list_elem_of_In, in_map_iff in Hx1 as (r1 & <- & Hr1).
    apply list_elem_of_In, in_map_iff in Hx2 as (r2 & <- & Hr2).
    rewrite List.Forall_forall in Hbelow, Hall1.
    specialize (Hbelow r1 Hr1). destruct (Hall1 r2 Hr2) as (_ & ? & _). lia. }
  split; [exact Hres|]. split; [exact Hall|]. split; [|split].
  - eapply Forall_impl; [exact Hall1|]. simpl. tauto.
  - rewrite Hfile, Hhdr. f_equal. fold new.
    destruct Hsink as [(-> & [Hn|He])|Hs].
    + rewrite Hn. reflexivity.
    + rewrite He. reflexivity.
    + rewrite Hs, sink_of_nonempty. simpl. now rewrite sink_of_app.
  - intros cut rest self2 w2 Hcut Hfile2.
    assert (Hs2 : StronglySorted Z.lt (map fst (rows0 ++ cut))).
    { rewrite Hcut, app_assoc, map_app in Hall.
      now apply StronglySorted_app_1_l in Hall. }
    assert (Hres2 : resume w2 filename = Ok (resume_after (rows0 ++ cut))).
    { apply (resume_sink w2 filename fields (rows0 ++ cut)); auto.
      rewrite forallb_app, Hfit0. simpl.
      fold run new in Hfit1. rewrite Hcut, forallb_app in Hfit1.
      now apply andb_true_iff in Hfit1 as [-> _]. }
    split; [exact Hres2|].
    split; [exact Hs2|]. split; [now apply sorted_below_resume|].
    intros Hhonest2.
    destruct (dl_csv_trips device_id module_id fields date_end self2 w2 filename
                _ Hres2) as (Htrips2 & _).
    destruct (trips_rows _ _ _ _ Htrips2 Hhonest2) as (_ & Hall2).
    eapply Forall_impl; [exact Hall2|]. simpl. tauto.
Qed.

End ExportFacts.

Section ExportExamples.
#[local] Existing Instance percent_free.
#[local] Existing Instance utc.

(** A run that resumes a sink cut after two rows of the scenario. *)
Lemma export_keeps_sink_ascending_witness :
  let run := dl_csv (outside := scenario_server) (Some station_id) None
               ["Temperature"] (Some (T0 + 3600)) client cut_world station_csv in
  let new := rows_of (iterations run) in
  resume cut_world station_csv = Ok (resume_after two_rows) /\
  StronglySorted Z.lt (map fst (two_rows ++ new)) /\
  Forall (fun r => resume_after two_rows <= fst r) new /\
  csv_files (run_world run) !! station_csv
  = Some (sink_of ["Temperature"] (two_rows ++ new)) /\
  (forall cut rest self2 w2,
     new = cut ++ rest ->
     csv_files w2 !! station_csv = Some (sink_of ["Temperature"] (two_rows ++ cut)) ->
     resume w2 station_csv = Ok (resume_after (two_rows ++ cut)) /\
     StronglySorted Z.lt (map fst (two_rows ++ cut)) /\
     Forall (fun r => fst r < resume_after (two_rows ++ cut)) (two_rows ++ cut) /\
     (forallb honest_iteration
        (iterations (dl_csv (outside := scenario_server) (Some station_id) None
                       ["Temperature"] (Some (T0 + 3600)) self2 w2 station_csv))
      = true ->
      Forall (fun r => resume_after (two_rows ++ cut) <= fst r)
        (rows_of (iterations
           (dl_csv (outside := scenario_server) (Some station_id) None
              ["Temperature"] (Some (T0 + 3600)) self2 w2 station_csv))))).
Proof.
  apply (export_keeps_sink_ascending (outside := scenario_server)
           (Some station_id) None ["Temperature"] (Some (T0 + 3600))
           client cut_world station_csv two_rows).
  - right. reflexivity.
  - vm_compute. reflexivity.
  - vm_compute. reflexivity.
  - vm_compute. repeat constructor.
  - vm_compute. reflexivity.
  - vm_compute. reflexivity.
Defined.

(** What that run appended. *)
Lemma resumed_run_rows :
  map fst (rows_of (iterations
    (dl_csv (outside := scenario_server) (Some station_id) None
       ["Temperature"] (Some (T0 + 3600)) client cut_world station_csv)))
  = [T0 + 120; T0 + 3600].
Proof. vm_compute. reflexivity. Qed.

(** Running the scenario again on the sink it left appends nothing. *)
Lemma scenario_rerun_appends_nothing :
  let first := dl_csv (outside := scenario_server) (Some station_id) None
                 ["Temperature"] (Some (T0 + 3600)) client nothing station_csv in
  let second := dl_csv (outside := scenario_server) (Some station_id) None
                  ["Temperature"] (Some (T0 + 3600)) (run_self first)
                  (run_world first) station_csv in
  resume (run_world first) station_csv = Ok (T0 + 3601) /\
  outcome second = Stopped EmptyPage /\
  rows_of (iterations second) = [] /\
  csv_files (run_world second) !! station_csv
  = csv_files (run_world first) !! station_csv.
Proof.
  vm_compute. repeat split; reflexivity.
Qed.

(** Timestamps that are written twice.  A server that answers two
    requests with the same page: [dl_csv] writes the rows it is given, the
    row of the second page as well.  And rows longer than 100 bytes: the
    resume point is not read from the start of the last row, the second
    run asks from 0 again and the server, honest as it is, returns the
    row that is already there. *)
Lemma timestamps_are_written_twice :
  (let run := dl_csv (outside := repeating_server) (Some station_id) None
                ["Temperature"] (Some (T0 + 3600)) client nothing station_csv in
   outcome run = Stopped EmptyPage /\
   map it_start (iterations run) = [0; T0 + 1; T0 + 2] /\
   map fst (rows_of (iterations run)) = [T0; T0]) /\
  (let first := dl_csv (outside := long_server) (Some station_id) None
                  long_fields (Some T0) client nothing station_csv in
   let second := dl_csv (outside := long_server) (Some station_id) None
                   long_fields (Some T0) (run_self first) (run_world first)
                   station_csv in
   outcome first = Stopped WindowEnd /\
   map fst (rows_of (iterations first)) = [T0] /\
   map (fun r => length (writerow (snd r))) (rows_of (iterations first))
   = [107%nat] /\
   forallb honest_iteration (iterations first) = true /\
   resume (run_world first) station_csv = Ok 0 /\
   outcome second = Stopped WindowEnd /\
   forallb honest_iteration (iterations second) = true /\
   map fst (rows_of (iterations second)) = [T0] /\
   csv_files (run_world second) !! station_csv
   = Some (sink_of long_fields
             (rows_of (iterations first) ++ rows_of (iterations first)))).
Proof.
  vm_compute. repeat split; reflexivity.
Qed.

(** A page is sorted by the texts of its keys: with keys of different
    lengths the rows are not written in the order of their timestamps. *)
Lemma rows_follow_the_text_order :
  map fst (rows_of (iterations
    (dl_csv (outside := uneven_server) (Some station_id) None
       ["Temperature"] (Some 1000000000) client nothing station_csv)))
  = [1000000000; 999999999].
Proof. vm_compute. reflexivity. Qed.

End ExportExamples.

(** * Further properties *)

Section TokenExtras.
Context {interpolation : Interpolation} {platform : Platform} {outside : Outside}.

Lemma same_settings_refl (a : WeatherStation) : same_settings a a.
Proof. repeat split. Qed.

Lemma same_settings_trans (a b c : WeatherStation) :
  same_settings a b -> same_settings b c -> same_settings a c.
Proof.
  unfold same_settings. intros (?&?&?&?&?&?&?) (?&?&?&?&?&?&?).
  repeat split; congruence.
Qed.

Lemma saveTokens_frame (self : WeatherStation) (w w' : World) :
  saveTokens self w = Ok w' ->
  csv_files w' = csv_files w /\ sent w' = sent w /\ clock w' = clock w /\
  stdout w' = stdout w /\
  forall g, (forall f, rc_file self = Some f -> g <> expanduser f) ->
    rc_files w' !! g = rc_files w !! g.
Proof.
  intros E. apply saveTokens_inv in E. destruct (rc_file self) as [f|].
  - destruct E as (a & r & e & iso & _ & _ & _ & _ & ->). simpl.
    repeat split; auto. intros g Hg. apply lookup_insert_ne.
    intros Heq. now apply (Hg f).
  - subst. repeat split; auto.
Qed.

Lemma accept_grant_frame (self : WeatherStation) (w : World) (resp : Reply) :
  same_settings self (snd (fst (accept_grant self w resp))) /\
  csv_files (snd (accept_grant self w resp)) = csv_files w /\
  forall g, (forall f, rc_file self = Some f -> g <> expanduser f) ->
    rc_files (snd (accept_grant self w resp)) !! g = rc_files w !! g.
Proof.
  unfold accept_grant. destruct resp as [|err|a r e|st body|a' [r'|]]; simpl;
    try (repeat split; auto; fail).
  destruct (saveTokens _ _) as [w2|ex] eqn:E; simpl.
  - apply saveTokens_frame in E as (Hc & _ & _ & _ & Hrc). simpl in *.
    split; [repeat split|]. split; [assumption|]. intros g Hg. now rewrite Hrc.
  - repeat split; auto.
Qed.

Lemma accessToken_frame (self : WeatherStation) (w : World) :
  same_settings self (snd (fst (accessToken self w))) /\
  csv_files (snd (accessToken self w)) = csv_files w /\
  forall g, (forall f, rc_file self = Some f -> g <> expanduser f) ->
    rc_files (snd (accessToken self w)) !! g = rc_files w !! g.
Proof.
  unfold accessToken.
  destruct (_client_id self) as [cid|]; [|repeat split].
  destruct (_client_secret self) as [cs|]; [|repeat split].
  destruct (_access_token self) as [tok|].
  - destruct (_expiration self) as [e|]; [|repeat split].
    destruct (Qle_bool e (time_time (clock w))); [|repeat split].
    destruct (_refresh_token self) as [rt|]; [|repeat split].
    unfold _postRequest.
    exact (accept_grant_frame self (record_request (tick w) (RefreshGrant rt cid cs)) _).
  - destruct (_username self) as [u|]; [|repeat split].
    destruct (_password self) as [p|]; [|repeat split].
    unfold _postRequest.
    exact (accept_grant_frame self (record_request w (PasswordGrant cid cs u p)) _).
Qed.

(** X1.  The token operations change nothing but the tokens.  A read of
    [accessToken] leaves the four credentials, the default station, the
    device snapshot and the path of the rc file of the client as they
    were, touches no CSV file and no rc file other than the client's
    own; [loadTokens] leaves the same settings alone; and [saveTokens]
    writes the client's own rc file only, where it keeps the default
    section and every section but the token section. *)
Theorem token_manager_keeps_settings (self : WeatherStation) (w : World) :
  (same_settings self (snd (fst (accessToken self w))) /\
   csv_files (snd (accessToken self w)) = csv_files w /\
   forall g, (forall f, rc_file self = Some f -> g <> expanduser f) ->
     rc_files (snd (accessToken self w)) !! g = rc_files w !! g) /\
  same_settings self (loadTokens self w) /\
  (forall w', saveTokens self w = Ok w' ->
     csv_files w' = csv_files w /\
     (forall g, (forall f, rc_file self = Some f -> g <> expanduser f) ->
        rc_files w' !! g = rc_files w !! g) /\
     (forall f, rc_file self = Some f ->
        defaults (read_rc w' (expanduser f)) = defaults (read_rc w (expanduser f)) /\
        forall s, s <> "netatmo/tokens" ->
          sections (read_rc w' (expanduser f)) !! s
          = sections (read_rc w (expanduser f)) !! s)).
Proof.
  split; [apply accessToken_frame|]. split.
  - unfold loadTokens. destruct (rc_file self); [|apply same_settings_refl].
    destruct (get _ _ "access_token"); [|repeat split].
    destruct (get _ _ "refresh_token"); [|repeat split].
    destruct (get _ _ "expiration"); [|repeat split].
    destruct (strptime _); repeat split.
  - intros w' E. pose proof (saveTokens_frame _ _ _ E) as (Hc & _ & _ & _ & Hr).
    split; [exact Hc|]. split; [exact Hr|].
    intros f Hf. apply saveTokens_inv in E. rewrite Hf in E.
    destruct E as (a & r & e & iso & _ & _ & _ & _ & ->).
    assert (Hread : forall c, read_rc (write_rc w (expanduser f) c) (expanduser f) = c).
    { intros c. unfold read_rc, write_rc. simpl. now rewrite lookup_insert_eq. }
    rewrite Hread. simpl.
    split; [reflexivity|]. intros s Hs. apply lookup_insert_ne. congruence.
Qed.

End TokenExtras.

Section TokenInvariant.
Context {interpolation : Interpolation} {platform : Platform} {outside : Outside}.







End TokenInvariant.

Section TokenBoundary.
Context {interpolation : Interpolation} {platform : Platform} {outside : Outside}.

(** X3.  A client that holds a token uses it again exactly while the
    clock is before the expiration it holds: then the read returns the
    token and posts nothing.  From the expiration on, the instant of
    expiration included, the read posts a refresh grant with the stored
    refresh token, whether or not the client holds a username and a
    password. *)
Theorem token_used_until_expiration (self0 : WeatherStation) (cid cs : string)
  (u p : option string) (tok rt : string) (e : Q) (w : World) :
  let self := holding self0 cid cs u p tok rt e in
  ((time_time (clock w) < e)%Q ->
   accessToken self w = (Ok (TokenStr tok), self, tick w)) /\
  ((e <= time_time (clock w))%Q ->
   sent (snd (accessToken self w)) = sent w ++ [RefreshGrant rt cid cs]).
Proof.
  intros self. unfold accessToken. simpl. split.
  - intros Hlt. destruct (Qle_bool e (time_time (clock w))) eqn:Hq; [|reflexivity].
    apply Qle_bool_iff in Hq. now apply Qlt_not_le in Hlt.
  - intros Hle. apply Qle_bool_iff in Hle. rewrite Hle. unfold _postRequest.
    destruct (accept_grant _ _ _) as [[res self'] w'] eqn:E.
    apply accept_grant_sent in E. simpl. now rewrite E.
Qed.

(** X4.  The new token is stored in the client before it is written to
    the rc file.  When a password grant succeeds and writing the rc file
    raises, the read raises the same exception, and the client holds the
    granted token, its refresh token and its expiration (the seconds
    granted, counted from the clock reading taken after the reply); the
    request was posted and no rc file was written.  The next read, before
    that expiration, returns the token without a request, although no
    file holds it. *)
Theorem grant_kept_when_saving_fails (self : WeatherStation) (w : World)
  (cid cs u p a r : string) (ex : Q) (err : exn) :
  _client_id self = Some cid -> _client_secret self = Some cs ->
  _username self = Some u -> _password self = Some p ->
  _access_token self = None ->
  http_post (length (sent w)) (PasswordGrant cid cs u p) = ReplyTokens a r ex ->
  saveTokens (granted self a r (ex + time_time (clock w))%Q)
    (tick (record_request w (PasswordGrant cid cs u p))) = Raise err ->
  let self' := granted self a r (ex + time_time (clock w))%Q in
  let w' := tick (record_request w (PasswordGrant cid cs u p)) in
  accessToken self w = (Raise err, self', w') /\
  rc_files w' = rc_files w /\
  ((time_time (clock w') < ex + time_time (clock w))%Q ->
   accessToken self' w' = (Ok (TokenStr a), self', tick w')).
Proof.
  intros Hc Hs Hu Hp Ht Hr Hsave self' w'. split; [|split; [reflexivity|]].
  - unfold accessToken.
    rewrite Hc, Hs, Ht, Hu, Hp. unfold _postRequest. rewrite Hr.
    unfold accept_grant. cbn [clock record_request].
    unfold granted in Hsave. now rewrite Hsave.
  - intros Hlt. unfold accessToken, self'. simpl. rewrite Hc, Hs.
    destruct (Qle_bool _ _) eqn:Hq; [|reflexivity].
    apply Qle_bool_iff in Hq. now apply Qlt_not_le in Hlt.
Qed.

End TokenBoundary.

Lemma grant_kept_when_saving_fails_witness :
  let self' := granted fresh "tok%1" "ref1" (10800 + inject_Z 1478000000)%Q in
  let w' := tick (record_request nothing
                    (PasswordGrant "id" "secret" "user@example.org" "password")) in
  accessToken (interpolation := percent_free) (platform := utc)
    (outside := granting_percent) fresh nothing
  = (Raise ValueError, self', w') /\
  rc_files w' = rc_files nothing /\
  accessToken (interpolation := percent_free) (platform := utc)
    (outside := granting_percent) self' w'
  = (Ok (TokenStr "tok%1"), self', tick w').
Proof.
  intros self' w'.
  destruct (grant_kept_when_saving_fails (interpolation := percent_free)
              (platform := utc) (outside := granting_percent) fresh nothing
              "id" "secret" "user@example.org" "password" "tok%1" "ref1" 10800
              ValueError) as (H1 & H2 & H3); try reflexivity.
  split; [exact H1|]. split; [exact H2|]. apply H3. reflexivity.
Defined.

Section CredentialsWritten.
Context {interpolation : Interpolation} {platform : Platform}.


End CredentialsWritten.

Section MeasureRequests.
Context {interpolation : Interpolation} {platform : Platform} {outside : Outside}.

Lemma getMeasure_sent (self : WeatherStation) (w : World)
  (device_id : option string) (scale mtype : string) (module_id : option string)
  (date_begin date_end limit : option Z) (optimize real_time : bool) :
  exists extra,
    sent (snd (getMeasure self w device_id scale mtype module_id date_begin
                 date_end limit optimize real_time))
    = sent w ++ extra /\
    Forall (measure_request device_id scale mtype module_id date_begin date_end
              limit optimize real_time) extra.
Proof.
  unfold getMeasure.
  destruct (accessToken self w) as [[res self1] w1] eqn:Eacc.
  apply accessToken_requests in Eacc as Hreq.
  assert (Hw1 : exists extra,
            sent w1 = sent w ++ extra /\
            Forall (measure_request device_id scale mtype module_id date_begin
                      date_end limit optimize real_time) extra).
  { destruct Hreq as [E|(req & Hg & E)].
    - exists []. rewrite E, app_nil_r. split; [reflexivity|constructor].
    - exists [req]. split; [exact E|]. constructor; [|constructor].
      unfold grant_request in Hg.
      destruct (_client_id self), (_client_secret self); try discriminate.
      destruct (_access_token self).
      + destruct (_refresh_token self); [|discriminate].
        injection Hg as <-. exact I.
      + destruct (_username self), (_password self); try discriminate.
        injection Hg as <-. exact I. }
  destruct Hw1 as (extra & E & Hall).
  destruct res as [tok|e]; [|exists extra; auto].
  destruct tok as [t| |]; [|exists extra; auto|];
    (destruct device_id as [d|] eqn:Hdev;
     [|destruct (stationByName self1 None) as [s|]]);
    try (exists extra; split; [exact E|exact Hall]);
    (destruct (String.eqb mtype "*") eqn:Hm;
     [destruct module_id as [m|];
      [destruct (moduleByName self1 m _)|destruct (stationByName self1 (Some _))]|]);
    try (exists extra; split; [exact E|exact Hall]);
    (eexists (extra ++ [_]); simpl; split; [now rewrite E, app_assoc|];
     apply Forall_app; split; [exact Hall|]; constructor; [|constructor];
     simpl; repeat split; try discriminate;
     try (intros ? [= <-]; reflexivity);
     try (intros Hne; apply String.eqb_neq in Hne; congruence)).
Qed.

(** X8.  [getMeasure] reads the token first and posts at most one
    measurement request after that.  The client it leaves is the client
    the token read left.  When the token read yields [None] nothing more
    is posted and the result is [None]; in every other case in which a
    request is posted, the result is the reply to it, and the request
    carries what the token read yielded ([False] included) and the
    arguments of the call, those left out that are falsy: a
    [date_begin], [date_end] or [limit] of 0 and an empty module id. *)
Theorem getMeasure_posts (self : WeatherStation) (w : World)
  (device_id : option string) (scale mtype : string) (module_id : option string)
  (date_begin date_end limit : option Z) (optimize real_time : bool) :
  let acc := accessToken self w in
  let r := getMeasure self w device_id scale mtype module_id date_begin date_end
             limit optimize real_time in
  snd (fst r) = snd (fst acc) /\
  (fst (fst acc) = Ok TokenNone -> r = (Ok None, snd (fst acc), snd acc)) /\
  (snd r = snd acc \/
   exists p,
     snd r = record_request (snd acc) (GetMeasure p) /\
     fst (fst acc) = Ok (p_access_token p) /\ p_access_token p <> TokenNone /\
     measure_request device_id scale mtype module_id date_begin date_end limit
       optimize real_time (GetMeasure p) /\
     p_date_begin p <> Some 0 /\ p_module_id p <> Some "" /\
     fst (fst r) = Ok (Some (http_post (length (sent (snd acc))) (GetMeasure p)))).
Proof.
  assert (Hz : forall x, unless_zero x <> Some 0).
  { intros [[| |]|]; discriminate. }
  assert (Hm0 : (if truthy module_id then module_id else None) <> Some "").
  { destruct module_id as [[|c m]|]; discriminate. }
  cbv zeta. unfold getMeasure.
  destruct (accessToken self w) as [[res self1] w1]. simpl.
  destruct res as [tok|e]; [|repeat split; try discriminate; now left].
  destruct tok as [t| |]; [|repeat split; now left|];
    (destruct device_id as [d|]; [|destruct (stationByName self1 None) as [s|]]);
    try (repeat split; try discriminate; now left);
    (destruct (String.eqb mtype "*") eqn:Hm;
     [destruct module_id as [m|];
      [destruct (moduleByName self1 m _)|destruct (stationByName self1 (Some _))]|]);
    try (repeat split; try discriminate; now left);
    (simpl; split; [reflexivity|]; split; [discriminate|]; right;
     eexists; split; [reflexivity|]; simpl;
     split; [reflexivity|]; split; [discriminate|];
     split; [repeat split; try discriminate;
             try (intros ? [= <-]; reflexivity);
             try (intros Hne; apply String.eqb_neq in Hne; congruence)|];
     split; [apply (Hz date_begin)|]; split; [first [exact Hm0|discriminate]|];
     reflexivity).
Qed.

(** X9.  With the type "*" [getMeasure] asks for every data type of the
    station, or of the module when a module id is given, their names
    joined by commas.  The station or module is looked up in the
    snapshot: when it is not there the call raises [TypeError] after the
    token was read, without posting a measurement request. *)
Theorem getMeasure_star (self : WeatherStation) (w : World) (d scale : string)
  (module_id : option string) (date_begin date_end limit : option Z)
  (optimize real_time : bool) (t : string) (self1 : WeatherStation) (w1 : World) :
  accessToken self w = (Ok (TokenStr t), self1, w1) ->
  let found :=
    match module_id with
    | None => option_map (fun s => data_type (main s)) (stationByName self (Some d))
    | Some m => option_map entry_data_type (moduleByName self m (Some d))
    end in
  getMeasure self w (Some d) scale "*" module_id date_begin date_end limit
    optimize real_time
  = match found with
    | None => (Raise TypeError, self1, w1)
    | Some types =>
        let p :=
          {| p_access_token := TokenStr t; p_device_id := d;
             p_module_id := if truthy module_id then module_id else None;
             p_scale := scale; p_type := join "," types;
             p_date_begin := match date_begin with Some 0 => None | _ => date_begin end;
             p_date_end := match date_end with Some 0 => None | _ => date_end end;
             p_limit := match limit with Some 0 => None | _ => limit end;
             p_optimize := optimize; p_real_time := real_time |} in
        (Ok (Some (http_post (length (sent w1)) (GetMeasure p))), self1,
         record_request w1 (GetMeasure p))
    end.
Proof.
  intros Hacc found.
  assert (Hs : same_settings self self1).
  { pose proof (accessToken_frame self w) as (H & _). now rewrite Hacc in H. }
  assert (Hst : forall x, stationByName self1 x = stationByName self x).
  { intros x. unfold stationByName. destruct Hs as (_&_&_&_&Hd&Hv&_).
    now rewrite <- Hd, <- Hv. }
  assert (Hmo : forall m x, moduleByName self1 m x = moduleByName self m x).
  { intros m x. unfold moduleByName. now rewrite Hst. }
  unfold getMeasure. rewrite Hacc. simpl. unfold found.
  destruct module_id as [m|].
  - rewrite Hmo. destruct (moduleByName self m (Some d)); reflexivity.
  - rewrite Hst. destruct (stationByName self (Some d)); reflexivity.
Qed.

End MeasureRequests.

Lemma getMeasure_star_witness :
  getMeasure (interpolation := percent_free) (platform := utc)
    (outside := scenario_server) at_home nothing (Some station_id) "max" "*"
    (Some "Outdoor") (Some T0) None None false false
  = (let p :=
       {| p_access_token := TokenStr "access"; p_device_id := station_id;
          p_module_id := Some "Outdoor"; p_scale := "max";
          p_type := "Temperature,Humidity";
          p_date_begin := Some T0; p_date_end := None; p_limit := None;
          p_optimize := false; p_real_time := false |} in
     (Ok (Some (http_post (Outside := scenario_server) 0 (GetMeasure p))), at_home,
      record_request (tick nothing) (GetMeasure p))).
Proof.
  apply (getMeasure_star (interpolation := percent_free) (platform := utc)
           (outside := scenario_server) at_home nothing station_id "max"
           (Some "Outdoor") (Some T0) None None false false "access" at_home
           (tick nothing)).
  reflexivity.
Defined.

Section ResumeExtras.

(** X10.  [last_timestamp] looks at the last 100 bytes of the file only:
    two files that end in the same 100 bytes or more give the same
    result, whatever comes before. *)
Theorem last_timestamp_window (w : World) (filename : string)
  (pre tail : list ascii) :
  (100 <= length tail)%nat ->
  last_timestamp (write_csv w filename (pre ++ tail)) filename
  = last_timestamp (write_csv w filename tail) filename.
Proof.
  intros Hlen. unfold last_timestamp, write_csv. simpl.
  rewrite !lookup_insert_eq.
  rewrite length_app.
  replace (Nat.min (length pre + length tail) 100) with 100%nat by lia.
  replace (Nat.min (length tail) 100) with 100%nat by lia.
  rewrite skipn_app.
  replace (length pre + length tail - 100 - length pre)%nat
    with (length tail - 100)%nat by lia.
  rewrite skipn_all2 by lia. reflexivity.
Qed.

(** X11.  [last_timestamp] returns a number that is not negative, and
    the only exception it raises is [UnicodeDecodeError].  The resume
    point of [dl_csv] is therefore 0 or at least 2. *)
Theorem last_timestamp_range (w : World) (filename : string) :
  match last_timestamp w filename with
  | Ok n => 0 <= n
  | Raise e => e = UnicodeDecodeError
  end /\
  match resume w filename with
  | Ok n => n = 0 \/ 2 <= n
  | Raise e => e = UnicodeDecodeError
  end.
Proof.
  assert (H : match last_timestamp w filename with
              | Ok n => 0 <= n
              | Raise e => e = UnicodeDecodeError
              end).
  { unfold last_timestamp. destruct (csv_files w !! filename) as [data|]; [|lia].
    destruct (_ =? 0)%nat; [lia|].
    destruct (is_ascii _); [|reflexivity].
    destruct (isnumeric _) eqn:Hn; [|lia].
    apply int_of_numeric in Hn as (n & -> & Hn). exact Hn. }
  split; [exact H|]. unfold resume.
  destruct (last_timestamp w filename) as [n|e]; [|exact H].
  destruct (Z.gtb_spec n 0); [right|left]; lia.
Qed.

End ResumeExtras.

Lemma last_timestamp_window_witness :
  last_timestamp (write_csv nothing station_csv (writerow (header long_fields) ++ long_line))
    station_csv
  = last_timestamp (write_csv nothing station_csv long_line) station_csv.
Proof.
  apply (last_timestamp_window nothing station_csv (writerow (header long_fields))
           long_line).
  vm_compute. lia.
Defined.

Section ExportExtras.
Context {interpolation : Interpolation} {platform : Platform} {outside : Outside}.

Variable device_id : option string.
Variable module_id : option string.
Variable fields : list string.

Lemma getMeasure_frame (self : WeatherStation) (w : World)
  (dev : option string) (scale mtype : string) (m : option string)
  (date_begin date_end limit : option Z) (optimize real_time : bool) :
  let r := getMeasure self w dev scale mtype m date_begin date_end limit
             optimize real_time in
  same_settings self (snd (fst r)) /\
  csv_files (snd r) = csv_files w /\
  forall g, (forall f, rc_file self = Some f -> g <> expanduser f) ->
    rc_files (snd r) !! g = rc_files w !! g.
Proof.
  cbv zeta. unfold getMeasure.
  pose proof (accessToken_frame self w) as Hacc.
  destruct (accessToken self w) as [[res self1] w1]. simpl in Hacc.
  destruct res as [tok|e]; [|exact Hacc].
  destruct tok as [t| |]; [|exact Hacc|];
    (destruct dev as [d|]; [|destruct (stationByName self1 None) as [s|]]);
    try exact Hacc;
    (destruct (String.eqb mtype "*");
     [destruct m as [m0|];
      [destruct (moduleByName self1 m0 _)|destruct (stationByName self1 (Some _))]|]);
    try exact Hacc; exact Hacc.
Qed.

(** One trip keeps what the trips before it kept. *)
Lemma trip_untouched (date_end : option Z) (filename : string)
  (self : WeatherStation) (w : World) (s : LoopState) :
  untouched filename self w (ls_self s) (ls_world s) ->
  match trip device_id module_id fields date_end s with
  | Leave _ _ self' w' => untouched filename self w self' w'
  | Again _ s' => untouched filename self w (ls_self s') (ls_world s')
  end.
Proof.
  intros Hu0. pose proof Hu0 as (Hs & Hc & Hr). unfold trip.
  destruct (ctime (ls_start s)) as [ct|]; [|exact Hu0].
  pose proof (getMeasure_frame (ls_self s)
                (print (ls_world s) (PrintGetmeasure (S (ls_n s)) (ls_start s) ct))
                device_id "max" (join "," fields) module_id (Some (ls_start s))
                None None false false) as Hf.
  destruct (getMeasure _ _ _ _ _ _ _ _ _ _ _) as [[res self1] w1].
  cbv zeta in Hf. simpl in Hf. destruct Hf as (Hs1 & Hc1 & Hr1).
  assert (Hu : untouched filename self w self1 w1).
  { split; [now apply (same_settings_trans _ (ls_self s))|]. split.
    - intros g Hg. rewrite Hc1. now apply Hc.
    - intros g Hg. rewrite Hr1; [now apply Hr|].
      intros f Hf. apply Hg. destruct Hs as (_&_&_&_&_&_&Hrc). congruence. }
  assert (Hp : forall x, untouched filename self w self1 (print w1 x)).
  { intros x. exact Hu. }
  destruct res as [[v|]|e]; try exact Hu.
  destruct v as [|err|a r ex|st body|a' [r'|]]; try exact Hu; try apply Hp.
  destruct st as [st|]; [|apply Hp].
  destruct (String.eqb st "ok"); [|apply Hp].
  destruct body as [[d|l]|]; try exact Hu.
  - destruct (size d =? 0)%nat; [exact Hu|].
    destruct (write_page _ _) as [[res rows] cursor].
    destruct res as [[]|e]; [|exact Hu].
    destruct date_end as [e|]; [|exact Hu].
    destruct (cursor >=? e); exact Hu.
  - destruct l; exact Hu.
Qed.

(** What every trip keeps, the loop keeps. *)
Lemma while_true_invariant (date_end : option Z)
  (P : WeatherStation -> World -> Prop) :
  (forall s, P (ls_self s) (ls_world s) ->
     match trip device_id module_id fields date_end s with
     | Leave _ _ self' w' => P self' w'
     | Again _ s' => P (ls_self s') (ls_world s')
     end) ->
  forall fuel s,
    P (ls_self s) (ls_world s) ->
    P (ls_self (snd (while_true device_id module_id fields date_end fuel s)))
      (ls_world (snd (while_true device_id module_id fields date_end fuel s))).
Proof.
  intros Htrip.
  assert (Honce : forall s,
            P (ls_self s) (ls_world s) ->
            P (ls_self (snd (once device_id module_id fields date_end s)))
              (ls_world (snd (once device_id module_id fields date_end s)))).
  { intros s Hs. apply Htrip in Hs. unfold once.
    destruct (trip _ _ _ _ s); exact Hs. }
  assert (Hthen : forall r k,
            P (ls_self (snd r)) (ls_world (snd r)) ->
            (forall s1, P (ls_self s1) (ls_world s1) ->
                        P (ls_self (snd (k s1))) (ls_world (snd (k s1)))) ->
            P (ls_self (snd (and_then r k))) (ls_world (snd (and_then r k)))).
  { intros [[o its] s1] k Hr Hk. simpl in *.
    destruct o; try exact Hr.
    specialize (Hk s1 Hr). destruct (k s1) as [[o2 its2] s2]. exact Hk. }
  induction fuel as [p IH|p IH|]; intros s Hs; simpl.
  - apply Hthen; [now apply Honce|].
    intros s1 Hs1. apply Hthen; [now apply IH|]. intros s2 Hs2. now apply IH.
  - apply Hthen; [now apply IH|]. intros s1 Hs1. now apply IH.
  - now apply Honce.
Qed.

(** X12.  [dl_csv] touches the sink and nothing else of its kind: every
    other CSV file is as before, and so is every rc file but the
    client's own (which a token grant may rewrite); the client comes out
    with the credentials, default station, snapshot and rc file path it
    had. *)
Theorem dl_csv_untouched (date_end : option Z) (self : WeatherStation) (w : World)
  (filename : string) :
  let run := dl_csv device_id module_id fields date_end self w filename in
  untouched filename self w (run_self run) (run_world run).
Proof.
  cbv zeta. unfold dl_csv. destruct (resume w filename) as [start|e].
  - pose proof (while_true_invariant date_end (untouched filename self w)
                  (trip_untouched date_end filename self w)
                  (enough date_end start) (Build_LoopState self w 0 start)) as H.
    destruct (while_true _ _ _ _ _ _) as [[o its] s']. simpl in *.
    destruct H as (Hs & Hc & Hr);
      [split; [apply same_settings_refl|split; reflexivity]|].
    split; [exact Hs|]. split; [|exact Hr].
    intros g Hg. simpl. rewrite lookup_insert_ne by congruence. now apply Hc.
  - split; [apply same_settings_refl|split; reflexivity].
Qed.

(** One trip posts requests of the export only. *)
Lemma trip_requests (date_end : option Z) (w : World) (s : LoopState) :
  (exists extra, sent (ls_world s) = sent w ++ extra /\
                 Forall (export_request device_id module_id fields) extra) ->
  match trip device_id module_id fields date_end s with
  | Leave _ _ _ w' =>
      exists extra, sent w' = sent w ++ extra /\
                    Forall (export_request device_id module_id fields) extra
  | Again _ s' =>
      exists extra, sent (ls_world s') = sent w ++ extra /\
                    Forall (export_request device_id module_id fields) extra
  end.
Proof.
  intros H0. pose proof H0 as (extra0 & E0 & Hall0). unfold trip.
  destruct (ctime (ls_start s)) as [ct|]; [|exact H0].
  destruct (getMeasure_sent (ls_self s)
              (print (ls_world s) (PrintGetmeasure (S (ls_n s)) (ls_start s) ct))
              device_id "max" (join "," fields) module_id (Some (ls_start s))
              None None false false) as (extra1 & E1 & Hall1).
  destruct (getMeasure _ _ _ _ _ _ _ _ _ _ _) as [[res self1] w1].
  simpl in E1.
  assert (Hu : exists extra, sent w1 = sent w ++ extra /\
                 Forall (export_request device_id module_id fields) extra).
  { exists (extra0 ++ extra1). split; [now rewrite E1, E0, app_assoc|].
    apply Forall_app. split; [exact Hall0|].
    eapply Forall_impl; [exact Hall1|]. intros r Hr. now exists (ls_start s). }
  assert (Hp : forall x, exists extra, sent (print w1 x) = sent w ++ extra /\
                 Forall (export_request device_id module_id fields) extra).
  { intros x. exact Hu. }
  destruct res as [[v|]|e]; try exact Hu.
  destruct v as [|err|a r ex|st body|a' [r'|]]; try exact Hu; try apply Hp.
  destruct st as [st|]; [|apply Hp].
  destruct (String.eqb st "ok"); [|apply Hp].
  destruct body as [[d|l]|]; try exact Hu.
  - destruct (size d =? 0)%nat; [exact Hu|].
    destruct (write_page _ _) as [[res rows] cursor].
    destruct res as [[]|e]; [|exact Hu].
    destruct date_end as [e|]; [|exact Hu].
    destruct (cursor >=? e); exact Hu.
  - destruct l; exact Hu.
Qed.

(** X13.  [dl_csv] never passes [date_end] to the server, nor a limit:
    every measurement request of a run asks with the scale "max", for
    the device, the module and the fields of the call, from a
    [date_begin] that is never 0 (a run that starts at 0 asks without
    it), and with no [date_end] and no [limit].  The end of the window is
    checked by the client alone.  Requests posted before the run stay in
    the record. *)
Theorem dl_csv_requests (date_end : option Z) (self : WeatherStation) (w : World)
  (filename : string) :
  let run := dl_csv device_id module_id fields date_end self w filename in
  exists extra,
    sent (run_world run) = sent w ++ extra /\
    Forall (export_request device_id module_id fields) extra /\
    Forall (fun r => match r with
                     | GetMeasure p =>
                         p_date_end p = None /\ p_limit p = None /\
                         p_date_begin p <> Some 0 /\ p_scale p = "max"
                     | _ => True
                     end) extra.
Proof.
  cbv zeta.
  assert (Hshape : forall extra,
            Forall (export_request device_id module_id fields) extra ->
            Forall (fun r => match r with
                             | GetMeasure p =>
                                 p_date_end p = None /\ p_limit p = None /\
                                 p_date_begin p <> Some 0 /\ p_scale p = "max"
                             | _ => True
                             end) extra).
  { intros extra Hall. eapply Forall_impl; [exact Hall|].
    intros [| |p] Hr; try exact I.
    destruct Hr as (start & _ & Hs & _ & _ & Hb & He & Hl & _).
    repeat split; auto. rewrite Hb. destruct start; discriminate. }
  unfold dl_csv. destruct (resume w filename) as [start|e].
  - pose proof (while_true_invariant date_end
                  (fun _ w' => exists extra, sent w' = sent w ++ extra /\
                     Forall (export_request device_id module_id fields) extra)
                  (trip_requests date_end w)
                  (enough date_end start) (Build_LoopState self w 0 start)) as H.
    destruct (while_true _ _ _ _ _ _) as [[o its] s']. simpl in *.
    destruct H as (extra & E & Hall).
    { exists []. split; [now rewrite app_nil_r|constructor]. }
    exists extra. split; [exact E|]. split; [exact Hall|now apply Hshape].
  - exists []. simpl. split; [now rewrite app_nil_r|]. split; constructor.
Qed.

Lemma write_page_whole (items : list (string * list Cell)) :
  forall start rows cursor,
    write_page items start = (Ok tt, rows, cursor) ->
    map (fun r => Some (fst r)) rows = map (fun kv => int (fst kv)) items /\
    map (fun r => skipn 2 (snd r)) rows = map snd items.
Proof.
  induction items as [|[k v] items IH]; intros start rows cursor; simpl.
  - intros [= <- _]. split; reflexivity.
  - destruct (int k) as [t|]; [|discriminate].
    destruct (strftime t) as [dt|]; [|discriminate].
    destruct (write_page items _) as [[res rows1] c1] eqn:E.
    intros [= -> <- _]. destruct (IH _ _ _ E) as (H1 & H2).
    simpl. now rewrite H1, H2.
Qed.

Lemma trips_whole (date_end : option Z) (start : Z) (o : Outcome)
  (its : list Iteration) :
  trips date_end start o its -> (forall e, o <> Raised e) ->
  Forall whole_page its.
Proof.
  induction 1; intros Ho; try (now constructor);
    try (exfalso; eapply Ho; reflexivity).
  - constructor; [|constructor]. unfold whole_page. simpl.
    destruct v as [|err|a r ex|st body|a' [r'|]]; try reflexivity.
    destruct st as [st|]; [|destruct body as [[?|?]|]; reflexivity].
    simpl in H. rewrite H. destruct body as [[?|?]|]; reflexivity.
  - constructor; [|constructor]. unfold whole_page. simpl.
    destruct v as [|err|a r ex|st body|a' [r'|]]; try reflexivity.
    destruct st as [st|]; [|destruct body as [[?|?]|]; reflexivity].
    destruct body as [[d|l]|]; try reflexivity.
    simpl in H, H0. rewrite H.
    apply map_size_empty_inv in H0. subst d.
    rewrite map_to_list_empty. split; reflexivity.
  - constructor; [|constructor]. unfold whole_page. simpl. rewrite H.
    now apply write_page_whole in H1.
  - constructor; [|now apply IHtrips]. unfold whole_page. simpl. rewrite H.
    now apply write_page_whole in H1.
Qed.

(** X14.  [date_end] filters no row.  In a run that did not raise, every
    page that came with the status "ok" was written whole: one row for
    each of its keys, in the order of the keys as texts, also the rows
    whose timestamp is past [date_end]; a reply without that status
    wrote no row. *)
Theorem pages_written_whole (date_end : option Z) (self : WeatherStation)
  (w : World) (filename : string) :
  let run := dl_csv device_id module_id fields date_end self w filename in
  (forall e, outcome run <> Raised e) ->
  Forall whole_page (iterations run).
Proof.
  intros run Ho.
  destruct (resume w filename) as [start|e] eqn:Hres.
  - destruct (dl_csv_trips device_id module_id fields date_end self w filename
                start Hres) as (Htrips & _).
    now apply (trips_whole date_end start (outcome run)).
  - unfold run, dl_csv. rewrite Hres. constructor.
Qed.

(** X15.  Called without [date_end] (its default, [None]), [dl_csv]
    makes one trip at most and never ends by reaching the end of the
    window: it stops on a reply that is not "ok" or on an empty page, and
    after a page with entries it raises, the rows of that page being
    written. *)
Theorem dl_csv_without_date_end (self : WeatherStation) (w : World)
  (filename : string) :
  let run := dl_csv device_id module_id fields None self w filename in
  (length (iterations run) <= 1)%nat /\
  outcome run <> Stopped WindowEnd /\ outcome run <> OutOfFuel /\
  (forall it, In it (iterations run) ->
     status_ok (it_reply it) = true -> page_size (it_reply it) <> 0%nat ->
     exists e, outcome run = Raised e) /\
  (forall start, resume w filename = Ok start ->
     csv_files (run_world run) !! filename
     = Some (match csv_files w !! filename with
             | Some b => b
             | None => []
             end
             ++ (if wrote_header run then writerow (header fields) else [])
             ++ lines_of (rows_of (iterations run)))).
Proof.
  intros run.
  destruct (resume w filename) as [start|e] eqn:Hres.
  - destruct (dl_csv_trips device_id module_id fields None self w filename
                start Hres) as (Htrips & Hfuel & Hfile & _).
    fold run in Htrips, Hfuel, Hfile.
    assert (H : (length (iterations run) <= 1)%nat /\
                outcome run <> Stopped WindowEnd /\
                (forall it, In it (iterations run) ->
                   status_ok (it_reply it) = true ->
                   page_size (it_reply it) <> 0%nat ->
                   exists e, outcome run = Raised e)).
    { inversion Htrips; subst; try discriminate; simpl;
        (split; [lia|split; [congruence|]]);
        intros it Hin Hok Hsz;
        first [ now destruct Hin
              | destruct Hin as [<-|[]]; simpl in *; first [congruence|eauto] ]. }
    destruct H as (H1 & H2 & H3).
    split; [exact H1|]. split; [exact H2|]. split; [exact Hfuel|].
    split; [exact H3|]. intros start0 _. exact Hfile.
  - unfold run, dl_csv. rewrite Hres. simpl.
    split; [lia|]. split; [discriminate|]. split; [discriminate|].
    split; [intros it []|discriminate].
Qed.

End ExportExtras.

Lemma pages_written_whole_witness :
  let run := dl_csv (interpolation := percent_free) (platform := utc)
               (outside := scenario_server) (Some station_id) None
               ["Temperature"] (Some (T0 + 100)) client nothing station_csv in
  Forall whole_page (iterations run) /\
  map fst (rows_of (iterations run)) = [T0; T0 + 60; T0 + 120; T0 + 3600].
Proof.
  intros run. split.
  - apply (pages_written_whole (interpolation := percent_free) (platform := utc)
             (outside := scenario_server)).
    intros e. vm_compute. discriminate.
  - vm_compute. reflexivity.
Defined.

Section DirectoryExtras.
Context {interpolation : Interpolation} {platform : Platform}
  {outside : Outside} {directory : Directory}.

(** X16.  [getData] reads the token first and posts at most one directory
    request after that, none when the token read yields [None].  The
    request names the default station when no device is given, no device
    for "*", and the given device otherwise.  The snapshot is replaced
    only by a fetch that returns [True], by the list of the reply; a
    fetch that returns [False] leaves snapshot and user as they were. *)
Theorem getData_outcome (self : Account) (n : Net) (device_id : option string) :
  let acc := accessToken (ws self) (world n) in
  let r := getData self n device_id in
  (fst (fst acc) = Ok TokenNone ->
   r = (Ok false, {| ws := snd (fst acc); user := user self |},
        {| world := snd acc; asked := asked n |})) /\
  (asked (snd r) = asked n \/
   exists p, asked (snd r) = asked n ++ [p] /\
             fst (fst acc) = Ok (s_access_token p) /\
             s_device_id p = stations_device (ws self) device_id /\
             s_get_favorites p = false) /\
  (fst (fst r) <> Ok true ->
   devices (ws (snd (fst r))) = devices (ws self)) /\
  (fst (fst r) = Ok false -> user (snd (fst r)) = user self) /\
  (fst (fst r) = Ok true ->
   exists p u l,
     asked (snd r) = asked n ++ [p] /\
     http_stations (length (asked n)) p = StationsData (Some (Some u, Some l)) /\
     devices (ws (snd (fst r))) = Some l /\ user (snd (fst r)) = Some u).
Proof.
  cbv zeta. unfold getData.
  pose proof (accessToken_frame (ws self) (world n)) as (Hs & _).
  destruct (accessToken (ws self) (world n)) as [[res c] w]. simpl in Hs.
  assert (Hdev : devices c = devices (ws self))
    by (destruct Hs as (_&_&_&_&_&Hd&_); now rewrite Hd).
  assert (Hdef : default_station c = default_station (ws self))
    by (destruct Hs as (_&_&_&_&Hd&_); now rewrite Hd).
  destruct res as [tok|e]; simpl.
  2:{ repeat split; try discriminate; auto. }
  destruct tok as [t| |]; simpl.
  2:{ repeat split; try discriminate; auto. }
  all: match goal with
       | |- context [http_stations ?k ?p] =>
           set (pp := p); destruct (http_stations k pp) as [|err|body] eqn:Hr
       end;
    [| |destruct body as [[[u|] [l|]]|]]; simpl;
    (split; [discriminate|]);
    (split; [right; exists pp; split; [reflexivity|]; split; [reflexivity|];
             split; [|reflexivity]; unfold pp, stations_device; simpl;
             destruct device_id; [reflexivity|now rewrite Hdef]|]);
    (split; [intros Hne; first [exact Hdev | now destruct Hne]|]);
    (split; [intros Hf; first [reflexivity | discriminate Hf]|]);
    intros Ht; first [discriminate Ht | exists pp, u, l; repeat split; assumption].
Qed.

Lemma lower_ascii_idem (c : ascii) : lower_ascii (lower_ascii c) = lower_ascii c.
Proof.
  destruct c as [[] [] [] [] [] [] [] []]; reflexivity.
Qed.

Lemma lower_idem (s : string) : lower (lower s) = lower s.
Proof.
  induction s as [|c s IH]; simpl; [reflexivity|].
  now rewrite lower_ascii_idem, IH.
Qed.

Lemma lower_empty (s : string) : lower s = "" -> s = "".
Proof. destruct s; [reflexivity|discriminate]. Qed.

Lemma mac_address_nonempty (s : string) : mac_address s = true -> s <> "".
Proof. intros H ->. discriminate H. Qed.

Lemma stationByName_loop_finds (d : string) (l : list StationRec) (i : StationRec) :
  In i l -> lower (_id (main i)) = lower d ->
  is_Some (stationByName_loop (Some d) l).
Proof.
  intros Hin Hi. induction l as [|j l IH]; [destruct Hin|]. simpl.
  destruct (String.eqb d ""); [eauto|].
  destruct (String.eqb (station_name j) d); [eauto|].
  destruct (String.eqb_spec (lower (_id (main j))) (lower d)) as [E|E]; [eauto|].
  destruct Hin as [->|Hin]; [contradiction|]. now apply IH.
Qed.

Lemma stationByName_default_finds (self : WeatherStation) (d : string)
  (l : list StationRec) (i : StationRec) :
  devices self = Some l -> default_station self = Some d -> In i l ->
  lower (_id (main i)) = lower d ->
  is_Some (stationByName self None).
Proof.
  intros Hl Hd Hin Hi. unfold stationByName. rewrite Hl, Hd. simpl.
  now apply (stationByName_loop_finds d l i).
Qed.

(** X17.  A MAC address, six pairs of hexadecimal digits in upper or
    lower case with colons or hyphens between them, becomes the default
    station in lower case without any lookup: no token is read, no
    request is posted, the call returns [True] whether or not a station
    has that address, and the address gives the same result in any case
    of its letters.  A station of the snapshot with that address, in
    whatever case, is then found by a lookup without argument. *)
Theorem setDefaultStation_mac (self : Account) (n : Net) (device : string) :
  mac_address (lower device) = true ->
  let r := setDefaultStation self n device in
  r = (Ok true,
       {| ws := set_default_station (ws self) (Some (lower device));
          user := user self |}, n) /\
  r = setDefaultStation self n (lower device) /\
  (forall l i, devices (ws self) = Some l -> In i l ->
     lower (_id (main i)) = lower device ->
     is_Some (stationByName (ws (snd (fst r))) None)).
Proof.
  intros Hmac r.
  assert (Hne : String.eqb device "" = false).
  { apply String.eqb_neq. intros ->. discriminate Hmac. }
  assert (Hne' : String.eqb (lower device) "" = false).
  { apply String.eqb_neq. now apply mac_address_nonempty. }
  assert (Hr : r = (Ok true,
       {| ws := set_default_station (ws self) (Some (lower device));
          user := user self |}, n)).
  { unfold r, setDefaultStation. now rewrite Hne, Hmac. }
  split; [exact Hr|]. split.
  - rewrite Hr. unfold setDefaultStation.
    now rewrite Hne', !lower_idem, Hmac.
  - intros l i Hl Hin Hi. rewrite Hr. simpl.
    apply (stationByName_default_finds _ (lower device) l i); auto.
    now rewrite lower_idem.
Qed.

Lemma stationByName_found (self : WeatherStation) (device : string)
  (i : StationRec) :
  device <> "" -> stationByName self (Some device) = Some i ->
  exists l, devices self = Some l /\ In i l /\ station_matches device i = true.
Proof.
  intros Hne. unfold stationByName. destruct (devices self) as [l|]; [|discriminate].
  simpl. apply String.eqb_neq in Hne. rewrite Hne. simpl.
  intros E. exists l. split; [reflexivity|].
  induction l as [|j l IH]; [discriminate|]. simpl in E. rewrite Hne in E.
  unfold station_matches.
  destruct (String.eqb (station_name j) device) eqn:E1.
  - injection E as <-. rewrite E1. split; [now left|reflexivity].
  - destruct (String.eqb (lower (_id (main j))) (lower device)) eqn:E2.
    + injection E as <-. rewrite E1, E2. split; [now left|reflexivity].
    + destruct (IH E) as (Hin & Hm). split; [now right|exact Hm].
Qed.

(** A fetch of the whole directory keeps the default station and names
    no device in its request. *)
Lemma getData_star (self : Account) (n : Net) :
  default_station (ws (snd (fst (getData self n (Some "*")))))
  = default_station (ws self) /\
  forall p, In p (asked (snd (getData self n (Some "*")))) ->
            In p (asked n) \/ s_device_id p = None.
Proof.
  unfold getData.
  pose proof (accessToken_frame (ws self) (world n)) as (Hs & _).
  destruct (accessToken (ws self) (world n)) as [[res c] w]. simpl in Hs.
  destruct Hs as (_&_&_&_&Hd&_).
  destruct res as [tok|e]; simpl; [|split; [now rewrite Hd|auto]].
  destruct tok as [t| |]; simpl; try (split; [now rewrite Hd|auto]);
    (destruct (http_stations _ _) as [|err|[[[u|] [l|]]|]]; simpl;
     (split; [now rewrite Hd|]);
     intros p Hp;
     (apply in_app_or in Hp as [Hp|[<-|[]]]; [now left|now right])).
Qed.

(** X18.  For a device that is neither empty nor a MAC address,
    [setDefaultStation] fetches the whole directory and looks the device
    up in the snapshot it then has, by name or by id without regard to
    case, whether or not the fetch succeeded.  When it returns [True] the
    default station is the id (as the snapshot spells it) of a station of
    that snapshot that matches the device, and a lookup without argument
    finds a station; when it returns [False] the default station is the
    one before. *)
Theorem setDefaultStation_by_name (self : Account) (n : Net) (device : string) :
  device <> "" -> mac_address (lower device) = false ->
  let r := setDefaultStation self n device in
  let after := ws (snd (fst r)) in
  (fst (fst r) = Ok true ->
   exists l i,
     devices after = Some l /\ In i l /\ station_matches device i = true /\
     default_station after = Some (_id (main i)) /\
     is_Some (stationByName after None)) /\
  (fst (fst r) = Ok false ->
   default_station after = default_station (ws self) /\
   stationByName after (Some device) = None) /\
  (forall p, In p (asked (snd r)) -> In p (asked n) \/ s_device_id p = None).
Proof.
  intros Hne Hmac. cbv zeta. unfold setDefaultStation.
  apply String.eqb_neq in Hne. rewrite Hne, Hmac.
  apply String.eqb_neq in Hne.
  destruct (getData_star self n) as (Hdef & Hask).
  destruct (getData self n (Some "*")) as [[res self1] n1]. simpl in *.
  destruct res as [b|e]; simpl; [|repeat split; try discriminate; auto].
  destruct (stationByName (ws self1) (Some device)) as [i|] eqn:Hi; simpl.
  - split; [|split; [discriminate|exact Hask]].
    intros _. destruct (stationByName_found _ _ _ Hne Hi) as (l & Hl & Hin & Hm).
    exists l, i. repeat split; auto.
    apply (stationByName_default_finds _ (_id (main i)) l i); auto.
  - split; [discriminate|]. split; [|exact Hask]. intros _. split; auto.
Qed.

End DirectoryExtras.

Lemma setDefaultStation_mac_witness :
  setDefaultStation (interpolation := percent_free) (platform := utc)
    (outside := scenario_server) (directory := listing) newcomer offline
    "70-EE-50-00-00-01"
  = (Ok true,
     {| ws := set_default_station client (Some "70-ee-50-00-00-01");
        user := None |}, offline).
Proof.
  apply (setDefaultStation_mac (interpolation := percent_free) (platform := utc)
           (outside := scenario_server) (directory := listing) newcomer offline
           "70-EE-50-00-00-01").
  reflexivity.
Defined.

Lemma setDefaultStation_by_name_witness :
  let r := setDefaultStation (interpolation := percent_free) (platform := utc)
             (outside := scenario_server) (directory := listing) newcomer offline
             "Home" in
  fst (fst r) = Ok true /\
  default_station (ws (snd (fst r))) = Some station_id /\
  exists l i,
    devices (ws (snd (fst r))) = Some l /\ In i l /\
    station_matches "Home" i = true /\
    default_station (ws (snd (fst r))) = Some (_id (main i)) /\
    is_Some (stationByName (ws (snd (fst r))) None).
Proof.
  intros r. split; [reflexivity|]. split; [reflexivity|].
  apply (setDefaultStation_by_name (interpolation := percent_free) (platform := utc)
           (outside := scenario_server) (directory := listing) newcomer offline
           "Home"); [discriminate|reflexivity|reflexivity].
Defined.

Section ConfigExtras.
Context {interpolation : Interpolation} {platform : Platform}
  {outside : Outside} {directory : Directory}.

Lemma loadTokens_default_station (self : WeatherStation) (w : World) :
  default_station (loadTokens self w) = default_station self.
Proof.
  unfold loadTokens. destruct (rc_file self); [|reflexivity].
  destruct (get _ _ "access_token"); [|reflexivity].
  destruct (get _ _ "refresh_token"); [|reflexivity].
  destruct (get _ _ "expiration"); [|reflexivity].
  destruct (strptime _); reflexivity.
Qed.

(** What [loadCredentials] does with a client that has an rc file. *)
Lemma loadCredentials_loaded (self : WeatherStation) (w : World) (f : string) :
  rc_file self = Some f ->
  _access_token (loadCredentials self w) = None /\
  rc_file (loadCredentials self w) = Some f /\
  credentials (loadCredentials self w)
  = (if loadable (read_rc w (expanduser f))
     then stored_credentials (read_rc w (expanduser f))
     else (None, None, None, None)) /\
  default_station (loadCredentials self w)
  = (if loadable (read_rc w (expanduser f))
        && has_option (read_rc w (expanduser f)) "netatmo" "default_station"
     then get (read_rc w (expanduser f)) "netatmo" "default_station"
     else default_station self).
Proof.
  intros Hf. unfold loadCredentials, loadable, stored_credentials, credentials.
  rewrite Hf.
  destruct (get _ _ "client_id") as [a|]; [|simpl; now rewrite Hf].
  destruct (get _ _ "client_secret") as [b|]; [|simpl; now rewrite Hf].
  destruct (get _ _ "username") as [u|]; [|simpl; now rewrite Hf].
  destruct (get _ _ "password") as [p|]; [|simpl; now rewrite Hf].
  destruct (has_option _ _ _) eqn:Ho; simpl.
  - destruct (get _ _ "default_station") as [d|] eqn:Hd.
    + rewrite bool_decide_eq_true_2 by eauto. simpl. now rewrite Hf.
    + rewrite bool_decide_eq_false_2 by (intros [x Hx]; discriminate).
      simpl. now rewrite Hf.
  - now rewrite Hf.
Qed.

(** The client [config] starts from, and the client after its first
    [loadCredentials]. *)
Lemma config_start (f : string) (w : World) :
  f <> "" ->
  exists ws0,
    __init__ (ConfStr f) w = Ok ws0 /\ rc_file ws0 = Some f /\
    default_station (loadCredentials ws0 w)
    = default_station (loadCredentials (set_rc_file blank (Some f)) w).
Proof.
  intros Hne. eexists. split; [reflexivity|].
  unfold load. cbn [rc_file set_rc_file blank truthy].
  apply String.eqb_neq in Hne. rewrite Hne. cbn [negb].
  set (b := set_rc_file blank (Some f)).
  destruct (loadCredentials_loaded b w f eq_refl) as (_ & Hrc & _ & Hd).
  destruct (loadTokens_credentials (loadCredentials b w) w) as (_&_&_&_&Hrc2).
  rewrite Hrc in Hrc2. split; [exact Hrc2|].
  destruct (loadCredentials_loaded _ w f Hrc2) as (_ & _ & _ & Hd2).
  rewrite Hd2, loadTokens_default_station, Hd.
  now destruct (loadable _ && has_option _ _ _).
Qed.

Lemma saveCredentials_saved (self : WeatherStation) (w w' : World) (f : string) :
  rc_file self = Some f -> saveCredentials self w = Ok w' ->
  sent w' = sent w /\
  sections (read_rc w' (expanduser f)) !! "netatmo/tokens" = None.
Proof.
  intros Hf. unfold saveCredentials. rewrite Hf.
  destruct (set_options _ _ _) as [c1|]; [|discriminate].
  destruct (match default_station self with Some d => _ | None => _ end) as [c2|];
    [|discriminate].
  intros [= <-]. split; [reflexivity|].
  unfold read_rc, write_rc. simpl. rewrite lookup_insert_eq. simpl.
  apply lookup_delete_eq.
Qed.

Lemma accessToken_password (self : WeatherStation) (w : World)
  (cid cs u p : string) :
  credentials self = (Some cid, Some cs, Some u, Some p) ->
  _access_token self = None ->
  sent (snd (accessToken self w)) = sent w ++ [PasswordGrant cid cs u p].
Proof.
  unfold credentials. intros [= Hc Hs Hu Hp] Ht. unfold accessToken.
  rewrite Hc, Hs, Ht, Hu, Hp. unfold _postRequest.
  destruct (accept_grant _ _ _) as [[res self'] w'] eqn:E.
  apply accept_grant_sent in E. simpl. now rewrite E.
Qed.

Lemma getData_sent (self : Account) (n : Net) (device_id : option string) :
  sent (world (snd (getData self n device_id)))
  = sent (snd (accessToken (ws self) (world n))).
Proof.
  unfold getData. destruct (accessToken _ _) as [[res c] w]. simpl.
  destruct res as [tok|e]; [|reflexivity].
  destruct tok as [t| |]; try reflexivity;
    destruct (http_stations _ _) as [|err|[[[u|] [l|]]|]]; reflexivity.
Qed.


(** X20.  [config -d NAME] asks for a new token every time.  With an rc
    file that holds the four credentials, and a device that is neither
    empty nor a MAC address, the command posts one request to the token
    endpoint, a password grant with the credentials of the file, however
    fresh the token in the file is; and when it gets as far as printing
    the values, the rc file it leaves has no token section. *)
Theorem config_device_asks_for_a_token (args : Args) (n : Net)
  (device cid cs u p : string) :
  a_device args = Some device -> device <> "" ->
  mac_address (lower device) = false ->
  a_username args = None -> a_password args = None ->
  a_client_id args = None -> a_client_secret args = None ->
  a_rc_file args <> "" ->
  loadable (read_rc (world n) (expanduser (a_rc_file args))) = true ->
  stored_credentials (read_rc (world n) (expanduser (a_rc_file args)))
  = (Some cid, Some cs, Some u, Some p) ->
  let r := action_config args n in
  sent (world (snd r)) = sent (world n) ++ [PasswordGrant cid cs u p] /\
  (forall wrote a b c d e, fst r = ConfigShown wrote a b c d e ->
     wrote = true /\
     sections (read_rc (world (snd r)) (expanduser (a_rc_file args)))
     !! "netatmo/tokens" = None).
Proof.
  intros Hdev Hne Hmac Hu Hp Hc Hs Hf Hload Hstored r. unfold r, action_config.
  destruct (config_start (a_rc_file args) (world n) Hf) as (ws0 & Hinit & Hrc0 & _).
  rewrite Hinit, Hu, Hp, Hc, Hs, Hdev. simpl.
  try rewrite bool_decide_eq_true_2 by eauto.
  destruct (loadCredentials_loaded ws0 (world n) _ Hrc0) as (Ht1 & Hrc1 & Hcr1 & _).
  rewrite Hload, Hstored in Hcr1.
  set (ws1 := loadCredentials ws0 (world n)) in *.
  unfold setDefaultStation. apply String.eqb_neq in Hne. rewrite Hne, Hmac.
  pose proof (getData_sent {| ws := ws1; user := None |} n (Some "*")) as Hsent.
  simpl in Hsent. rewrite (accessToken_password ws1 _ cid cs u p Hcr1 Ht1) in Hsent.
  assert (Hrc : rc_file (ws (snd (fst (getData {| ws := ws1; user := None |} n
                                         (Some "*"))))) = Some (a_rc_file args)).
  { unfold getData. simpl.
    pose proof (accessToken_frame ws1 (world n)) as ((_&_&_&_&_&_&E) & _).
    destruct (accessToken ws1 (world n)) as [[res c0] w0]. simpl in E.
    rewrite Hrc1 in E.
    destruct res as [tok|e]; [|now simpl].
    destruct tok as [t| |]; simpl; try (now symmetry);
      destruct (http_stations _ _) as [|err|[[[x|] [l|]]|]]; simpl; now symmetry. }
  destruct (getData _ n (Some "*")) as [[res acc] n1]. simpl in Hsent, Hrc.
  destruct res as [b|e]; simpl; [|split; [exact Hsent|discriminate]].
  destruct (stationByName (ws acc) (Some device)) as [i|]; simpl.
  - destruct (saveCredentials _ (world n1)) as [w'|e] eqn:Hsave; simpl.
    + apply (saveCredentials_saved _ _ _ (a_rc_file args)) in Hsave
        as (Hs1 & Htok); [|exact Hrc].
      split; [now rewrite Hs1|]. intros wrote a0 b0 c0 d0 e0 [= <- _ _ _ _ _].
      split; [reflexivity|exact Htok].
    + split; [exact Hsent|discriminate].
  - destruct (saveCredentials _ (world n1)) as [w'|e] eqn:Hsave; simpl.
    + apply (saveCredentials_saved _ _ _ (a_rc_file args)) in Hsave
        as (Hs1 & Htok); [|exact Hrc].
      split; [now rewrite Hs1|]. intros wrote a0 b0 c0 d0 e0 [= <- _ _ _ _ _].
      split; [reflexivity|exact Htok].
    + split; [exact Hsent|discriminate].
Qed.

End ConfigExtras.


Lemma config_device_asks_for_a_token_witness :
  let r := action_config (interpolation := percent_free) (platform := utc)
             (outside := granting) (directory := listing) config_device at_desk in
  sent (world (snd r)) = [PasswordGrant "id" "secret" "user@example.org" "password"] /\
  fst r = ConfigShown true (Some "user@example.org") (Some "password") (Some "id")
            (Some "secret") (Some station_id) /\
  sections (read_rc (world (snd r)) rc_path) !! "netatmo/tokens" = None.
Proof.
  intros r.
  assert (Hr : fst r = ConfigShown true (Some "user@example.org") (Some "password")
                         (Some "id") (Some "secret") (Some station_id))
    by (vm_compute; reflexivity).
  destruct (config_device_asks_for_a_token (interpolation := percent_free)
              (platform := utc) (outside := granting) (directory := listing)
              config_device at_desk "Home" "id" "secret" "user@example.org"
              "password") as (H1 & H2).
  - reflexivity.
  - discriminate.
  - vm_compute. reflexivity.
  - reflexivity.
  - reflexivity.
  - reflexivity.
  - reflexivity.
  - discriminate.
  - vm_compute. reflexivity.
  - vm_compute. reflexivity.
  - split; [exact H1|]. split; [exact Hr|]. exact (proj2 (H2 _ _ _ _ _ _ Hr)).
Defined.
